(** * devhosts: the transactional apply engine

    A shallow embedding of the Go sources of cdfuller/devhosts:
    - [internal/filesystem]  (the [FS] interface, [ExpandUser]),
    - [internal/system]      ([WrapPermission], [IsErrNeedsSudo]),
    - [internal/state]       ([Host], [Snapshot], the host name pattern,
                              [NormalizeHostName], [ValidateSnapshot]),
    - [internal/hostsfile]   ([Apply], [Restore], [stripManagedBlock], ...),
    - [internal/caddy]       ([GenerateInclude], [UpdateInclude], ...),
    - [internal/cli]         ([applyState], [rollbackOutcome], [parseHostSpec],
                              [handleApply], the loops of [handleAdd] and
                              [handleRemove]).

    Go strings are byte strings and are modelled by [string]; the file
    system is a finite map from paths to contents together with the trace
    of the operations that were issued on it. *)

From Stdlib Require Import Ascii String.
From stdpp Require Import base gmap strings list sorting.



(** ** The parts of Go's [strings] package the sources use *)

Module GoStrings.

Definition nl : ascii := "010"%char.

(** [c] occurs in [s] ([strings.IndexByte(s, c) >= 0]). *)
Fixpoint hasByte (c : ascii) (s : string) : bool :=
  match s with
  | EmptyString => false
  | String x s' => Ascii.eqb x c || hasByte c s'
  end.

(** [strings.Split(s, sep)] for a one-byte separator: never returns the
    empty list, and yields [[""]] on the empty string. *)
Fixpoint Split (sep : ascii) (s : string) : list string :=
  match s with
  | EmptyString => [EmptyString]
  | String c s' =>
      if Ascii.eqb c sep then EmptyString :: Split sep s'
      else match Split sep s' with
           | x :: xs => String c x :: xs
           | [] => [String c EmptyString]
           end
  end.

(** [strings.Join(elems, sep)]. *)
Fixpoint Join (elems : list string) (sep : string) : string :=
  match elems with
  | [] => ""
  | x :: rest =>
      match rest with
      | [] => x
      | _ :: _ => x +:+ sep +:+ Join rest sep
      end
  end.

Definition HasPrefix (s pre : string) : bool := String.prefix pre s.

(** [strings.HasSuffix]: some tail of [s] is [suffix]. *)
Fixpoint HasSuffix (s suffix : string) : bool :=
  if String.eqb s suffix then true
  else match s with
       | EmptyString => false
       | String _ s' => HasSuffix s' suffix
       end.

(** [strings.Contains]: [substr] is a prefix of some tail of [s]. *)
Fixpoint Contains (s substr : string) : bool :=
  if String.prefix substr s then true
  else match s with
       | EmptyString => false
       | String _ s' => Contains s' substr
       end.

Fixpoint drop (n : nat) (s : string) : string :=
  match n, s with
  | O, _ => s
  | S n', String _ s' => drop n' s'
  | S _, EmptyString => EmptyString
  end.

(** [strings.TrimPrefix]. *)
Definition TrimPrefix (s pre : string) : string :=
  if HasPrefix s pre then drop (String.length pre) s else s.

(** White space as [unicode.IsSpace] sees it in a UTF-8 byte string:
    the six ASCII characters, U+0085, U+00A0, U+1680, U+2000..U+200A,
    U+2028, U+2029, U+202F, U+205F and U+3000.  [spaceWidth s] is the
    number of bytes of the white-space rune that starts [s], or 0. *)
Definition isAsciiSpace (c : ascii) : bool :=
  match c with
  | "009" | "010" | "011" | "012" | "013" | " " => true
  | _ => false
  end%char.

Definition byte (c : ascii) : N := N_of_ascii c.

Definition isE280Space (b : N) : bool :=
  ((128 <=? b) && (b <=? 138) || (b =? 168) || (b =? 169) || (b =? 175))%N.

Definition spaceWidth (s : string) : nat :=
  match s with
  | EmptyString => 0
  | String c0 s0 =>
      if isAsciiSpace c0 then 1
      else match s0 with
           | EmptyString => 0
           | String c1 s1 =>
               if ((byte c0 =? 194) && ((byte c1 =? 133) || (byte c1 =? 160)))%N
               then 2
               else match s1 with
                    | EmptyString => 0
                    | String c2 _ =>
                        let b0 := byte c0 in
                        let b1 := byte c1 in
                        let b2 := byte c2 in
                        if ((b0 =? 225) && (b1 =? 154) && (b2 =? 128)
                            || (b0 =? 226) && (b1 =? 128) && isE280Space b2
                            || (b0 =? 226) && (b1 =? 129) && (b2 =? 159)
                            || (b0 =? 227) && (b1 =? 128) && (b2 =? 128))%N
                        then 3 else 0
                    end
           end
  end.

(** The same test on the reversed string: the width of the white-space
    rune that ends the original string. *)
Definition spaceWidthRev (r : string) : nat :=
  match r with
  | EmptyString => 0
  | String c0 r0 =>
      if isAsciiSpace c0 then 1
      else match r0 with
           | EmptyString => 0
           | String c1 r1 =>
               if ((byte c1 =? 194) && ((byte c0 =? 133) || (byte c0 =? 160)))%N
               then 2
               else match r1 with
                    | EmptyString => 0
                    | String c2 _ =>
                        let b0 := byte c2 in
                        let b1 := byte c1 in
                        let b2 := byte c0 in
                        if ((b0 =? 225) && (b1 =? 154) && (b2 =? 128)
                            || (b0 =? 226) && (b1 =? 128) && isE280Space b2
                            || (b0 =? 226) && (b1 =? 129) && (b2 =? 159)
                            || (b0 =? 227) && (b1 =? 128) && (b2 =? 128))%N
                        then 3 else 0
                    end
           end
  end.

(** Drop leading runes while [width] recognises one; [skip] counts the
    bytes of the current rune still to drop. *)
Fixpoint trimLeading (width : string -> nat) (skip : nat) (s : string) : string :=
  match s with
  | EmptyString => EmptyString
  | String _ s' =>
      match skip with
      | S k => trimLeading width k s'
      | O => match width s with
             | O => s
             | S k => trimLeading width k s'
             end
      end
  end.

(** [strings.TrimSpace]. *)
Definition TrimSpace (s : string) : string :=
  String.rev (trimLeading spaceWidthRev 0 (String.rev (trimLeading spaceWidth 0 s))).

(** [strings.Fields]: the maximal runs of bytes between white space. *)
Fixpoint fieldsGo (skip : nat) (cur : option string) (s : string) : list string :=
  match s with
  | EmptyString => option_list (String.rev <$> cur)
  | String c s' =>
      match skip with
      | S k => fieldsGo k cur s'
      | O => match spaceWidth s with
             | O => fieldsGo 0 (Some (String c (default EmptyString cur))) s'
             | S k => option_list (String.rev <$> cur) ++ fieldsGo k None s'
             end
      end
  end.

Definition Fields (s : string) : list string := fieldsGo 0 None s.

(** [strings.ToLower].  On a string of ASCII bytes it maps [A-Z] to
    [a-z] byte by byte; on any other string it is
    [strings.Map(unicode.ToLower, s)], which depends on the tables of the
    [unicode] package and is left to [mapLower]. *)
Fixpoint isASCII (s : string) : bool :=
  match s with
  | EmptyString => true
  | String c s' => (byte c <? 128)%N && isASCII s'
  end.

Definition lowerByte (c : ascii) : ascii :=
  let b := byte c in
  if ((65 <=? b) && (b <=? 90))%N then ascii_of_N (b + 32) else c.

Fixpoint lowerASCII (s : string) : string :=
  match s with
  | EmptyString => EmptyString
  | String c s' => String (lowerByte c) (lowerASCII s')
  end.

Definition ToLower (mapLower : string -> string) (s : string) : string :=
  if isASCII s then lowerASCII s else mapLower s.

(** [strings.SplitN(s, sep, 2)] for a one-byte separator: [s] alone when
    [sep] does not occur in it, else what precedes the first [sep] and
    what follows it. *)
Fixpoint SplitN2 (sep : ascii) (s : string) : list string :=
  match s with
  | EmptyString => [EmptyString]
  | String c s' =>
      if Ascii.eqb c sep then [EmptyString; s']
      else match SplitN2 sep s' with
           | x :: xs => String c x :: xs
           | [] => [String c EmptyString]
           end
  end.

(** [strings.LastIndex(s, sep)] for a one-byte separator: the index of
    its last occurrence, or -1. *)
Fixpoint LastIndexByte (c : ascii) (s : string) : Z :=
  match s with
  | EmptyString => (-1)%Z
  | String x s' =>
      let i := LastIndexByte c s' in
      if (0 <=? i)%Z then (i + 1)%Z
      else if Ascii.eqb x c then 0%Z else (-1)%Z
  end.

(** [strconv.Atoi] where [int] has 64 bits: an optional sign, then
    decimal digits, at least one; [None] is an error, of syntax or of
    range. *)
Definition isDigit (c : ascii) : bool := ((48 <=? byte c) && (byte c <=? 57))%N.

Fixpoint digitsValue (acc : Z) (s : string) : option Z :=
  match s with
  | EmptyString => Some acc
  | String c s' =>
      if isDigit c then digitsValue (acc * 10 + (Z.of_N (byte c) - 48))%Z s'
      else None
  end.

Definition Atoi (s : string) : option Z :=
  let '(neg, body) :=
    match s with
    | String "+"%char r => (false, r)
    | String "-"%char r => (true, r)
    | _ => (false, s)
    end in
  match body with
  | EmptyString => None
  | String _ _ =>
      match digitsValue 0 body with
      | None => None
      | Some v =>
          let v := if neg then (- v)%Z else v in
          if ((- 2 ^ 63 <=? v) && (v <=? 2 ^ 63 - 1))%Z then Some v else None
      end
  end.

(** [sort.Strings]: byte-wise lexicographic order.  Equal strings are
    identical, so the result does not depend on the sorting algorithm. *)
Definition sortStrings (l : list string) : list string :=
  merge_sort String.le l.

End GoStrings.

Import GoStrings.

(** ** internal/state *)

Record Host := mkHost { Name : string; Upstream : string; TLS : bool }.

Record Snapshot := mkSnapshot {
  Version : Z;
  Hosts : list Host;
  BaseCaddyfile : string;
  IncludeCaddyfile : string
}.

(** [hostPattern = ^[a-z0-9](?:[a-z0-9-]*[a-z0-9])?$], as
    [hostPattern.MatchString]. *)
Definition isLowerAlnum (c : ascii) : bool :=
  let b := byte c in
  ((48 <=? b) && (b <=? 57) || (97 <=? b) && (b <=? 122))%N.

Definition isHostChar (c : ascii) : bool :=
  isLowerAlnum c || Ascii.eqb c "-"%char.

Fixpoint hostPatternTail (s : string) : bool :=
  match s with
  | EmptyString => true
  | String c EmptyString => isLowerAlnum c
  | String c s' => isHostChar c && hostPatternTail s'
  end.

Definition hostPatternMatch (s : string) : bool :=
  match s with
  | EmptyString => false
  | String c s' => isLowerAlnum c && hostPatternTail s'
  end.

(** *** [NormalizeHostName] and [ValidateSnapshot]

    [net/url] is not part of the sources: [urlParse] stands for
    [url.Parse] followed by the accessors the sources call on its
    result, [None] when the parse fails. *)

Record URL := mkURL {
  Scheme : string;
  Hostname : string;
  Path : string;
  Port : string
}.

(** The errors [ValidateSnapshot] builds with [errors.New] and
    [fmt.Errorf], one constructor for each message. *)
Inductive upstreamError :=
| ErrUpstreamRequired
| ErrNotLocalTarget
| ErrURLParse
| ErrHostnameNotLocal
| ErrSchemeNotHTTP
| ErrPathSegments
| ErrPortRequired
| ErrInvalidPort
| ErrPortOutOfRange (portNum : Z).

Inductive hostError :=
| ErrNameRequired
| ErrNameHasDots
| ErrNamePattern
| ErrUpstreamInvalid (upstream : string) (inner : upstreamError).

Inductive snapshotError :=
| ErrUnsupportedVersion (version : Z)
| ErrBaseUnset
| ErrIncludeUnset
| ErrHostInvalid (name : string) (inner : hostError)
| ErrDuplicateName (name : string).

Definition localhostPrefixes : list string :=
  ["http://localhost:"; "http://127.0.0.1:"].

(** The order [sort.Slice] is given in [ValidateSnapshot]; the names are
    pairwise distinct when it is called, so that the sorted slice does
    not depend on the sorting algorithm. *)
Definition nameLe (a b : Host) : Prop := String.le (Name a) (Name b).

#[global] Instance nameLe_dec : RelDecision nameLe.
Proof. intros a b. unfold nameLe. apply _. Defined.

Section Validation.
Context (mapLower : string -> string) (urlParse : string -> option URL).

(** [NormalizeHostName] trims and lowercases a hostname. *)
Definition NormalizeHostName (raw : string) : string :=
  ToLower mapLower (TrimSpace raw).

Definition validateUpstream (raw : string) : option upstreamError :=
  if String.eqb raw "" then Some ErrUpstreamRequired
  else
    let allowed :=
      existsb (fun pre => HasPrefix (ToLower mapLower raw) pre) localhostPrefixes in
    if negb allowed then Some ErrNotLocalTarget
    else
      match urlParse raw with
      | None => Some ErrURLParse
      | Some u =>
          let host := ToLower mapLower (Hostname u) in
          if negb (String.eqb host "localhost") && negb (String.eqb host "127.0.0.1")
          then Some ErrHostnameNotLocal
          else if negb (String.eqb (Scheme u) "http") then Some ErrSchemeNotHTTP
          else if negb (String.eqb (Path u) "") && negb (String.eqb (Path u) "/")
          then Some ErrPathSegments
          else
            let port := Port u in
            if String.eqb port "" then Some ErrPortRequired
            else
              match Atoi port with
              | None => Some ErrInvalidPort
              | Some portNum =>
                  if ((portNum <? 1) || (65535 <? portNum))%Z
                  then Some (ErrPortOutOfRange portNum)
                  else None
              end
      end.

Definition validateHost (h : Host) : option hostError :=
  if String.eqb (Name h) "" then Some ErrNameRequired
  else if Contains (Name h) "." then Some ErrNameHasDots
  else if negb (hostPatternMatch (Name h)) then Some ErrNamePattern
  else
    match validateUpstream (Upstream h) with
    | Some e => Some (ErrUpstreamInvalid (Upstream h) e)
    | None => None
    end.

(** The loop of [ValidateSnapshot] over the hosts.  It writes the
    normalised name into the slice element before it checks it, and the
    slice shares its array with the caller's: the hosts are returned as
    the loop leaves them, also when it stops on an error. *)
Fixpoint validateHosts (names : gset string) (hosts : list Host)
    : option snapshotError * list Host :=
  match hosts with
  | [] => (None, [])
  | h :: rest =>
      let h' := mkHost (NormalizeHostName (Name h)) (Upstream h) (TLS h) in
      match validateHost h' with
      | Some e => (Some (ErrHostInvalid (Name h') e), h' :: rest)
      | None =>
          if decide (Name h' ∈ names)
          then (Some (ErrDuplicateName (Name h')), h' :: rest)
          else
            let '(err, rest') := validateHosts ({[Name h']} ∪ names) rest in
            (err, h' :: rest')
      end
  end.

(** [ValidateSnapshot] ensures the snapshot adheres to product rules.
    Beside its error it returns the hosts as it leaves them in the
    caller's slice: normalised, and sorted by name when it succeeds. *)
Definition ValidateSnapshot (s : Snapshot) : option snapshotError * list Host :=
  if negb (Version s =? 1)%Z then (Some (ErrUnsupportedVersion (Version s)), Hosts s)
  else if String.eqb (BaseCaddyfile s) "" then (Some ErrBaseUnset, Hosts s)
  else if String.eqb (IncludeCaddyfile s) "" then (Some ErrIncludeUnset, Hosts s)
  else
    match validateHosts ∅ (Hosts s) with
    | (Some e, hosts) => (Some e, hosts)
    | (None, hosts) => (None, merge_sort nameLe hosts)
    end.

End Validation.

(** ** Errors *)

(** The errors of the [os] package that the sources tell apart with
    [errors.Is]. *)
Inductive oserr := ErrNotExist | ErrPermission | ErrIO.

Inductive error :=
| OsError (e : oserr)
| ErrNeedsSudo (Op Path : string) (Err : oserr)
| ErrNoHome
| ErrOtherUserHome
| ErrMissingImport (includePath : string)
| ErrBaseInvalid (resolvedBase : string) (inner : error)
| ErrTildeImport (resolvedBase alt includePath : string)
| ErrConflicts (resolvedBase : string) (conflicts : string)
| ErrRun (name : string) (args : list string)
| ErrReload (inner : error) (details : string).

(** A Go result pair [(T, error)]. *)
Inductive result (A : Type) :=
| Ok (a : A)
| Err (e : error).
Arguments Ok {A} a.
Arguments Err {A} e.

(** internal/system: [WrapPermission] on a non-nil error. *)
Definition WrapPermission (op path : string) (err : oserr) : error :=
  match err with
  | ErrPermission => ErrNeedsSudo op path err
  | _ => OsError err
  end.

(** internal/system: [IsErrNeedsSudo], that is [errors.As] with a
    [*ErrNeedsSudo] target: it looks through the errors that
    [fmt.Errorf] wraps with [%w]. *)
Fixpoint IsErrNeedsSudo (err : error) : bool :=
  match err with
  | ErrNeedsSudo _ _ _ => true
  | ErrBaseInvalid _ inner => IsErrNeedsSudo inner
  | ErrReload inner _ => IsErrNeedsSudo inner
  | _ => false
  end.

(** ** The file system and the world around the program

    [files] maps a path to the bytes stored there.  [trace] records, oldest
    first, every operation issued through the [filesystem.FS] interface and
    every external command.  [clock] counts the readings of the time taken
    so far.  [fault] is what makes an operation fail for a reason of the
    operating system's own (permissions, I/O): it may depend on how many
    operations were issued before.  A failed operation leaves [files] as it
    was; directories are not modelled, [MkdirAll] only succeeds or fails. *)

Inductive fsop := OpReadFile | OpWriteFile | OpMkdirAll | OpRename | OpRemove.

Inductive failure := Denied | Broken.

Definition oserr_of (f : failure) : oserr :=
  match f with Denied => ErrPermission | Broken => ErrIO end.

Inductive event :=
| EvReadFile (path : string)
| EvWriteFile (path data : string)
| EvMkdirAll (path : string)
| EvRename (oldPath newPath : string)
| EvRemove (path : string)
| EvRun (name : string) (args : list string).

Record World := mkWorld {
  files : gmap string string;
  trace : list event;
  clock : nat;
  fault : nat -> fsop -> string -> option failure
}.

(** Go functions that touch the world are state transformers. *)
Definition M (A : Type) : Type := World -> A * World.

Definition ret {A} (a : A) : M A := fun w => (a, w).
Definition bind {A B} (m : M A) (k : A -> M B) : M B :=
  fun w => let '(a, w') := m w in k a w'.

Declare Scope go_scope.
Delimit Scope go_scope with go.
Notation "x <- m ;; k" := (bind m (fun x => k))
  (at level 100, m at next level, right associativity) : go_scope.
Open Scope go_scope.

Module FS.

Definition log (e : event) (w : World) : World :=
  mkWorld (files w) (trace w ++ [e]) (clock w) (fault w).

Definition setFiles (fs : gmap string string) (w : World) : World :=
  mkWorld fs (trace w) (clock w) (fault w).

Definition faultOf (o : fsop) (p : string) (w : World) : option failure :=
  fault w (length (trace w)) o p.

(** [ReadFile(path) ([]byte, error)]; the bytes are empty on error. *)
Definition ReadFile (path : string) : M (string * option oserr) := fun w =>
  let w' := log (EvReadFile path) w in
  match faultOf OpReadFile path w with
  | Some f => (("", Some (oserr_of f)), w')
  | None =>
      match files w !! path with
      | Some data => ((data, None), w')
      | None => (("", Some ErrNotExist), w')
      end
  end.

Definition WriteFile (path data : string) : M (option oserr) := fun w =>
  let w' := log (EvWriteFile path data) w in
  match faultOf OpWriteFile path w with
  | Some f => (Some (oserr_of f), w')
  | None => (None, setFiles (<[path := data]> (files w)) w')
  end.

Definition MkdirAll (path : string) : M (option oserr) := fun w =>
  let w' := log (EvMkdirAll path) w in
  match faultOf OpMkdirAll path w with
  | Some f => (Some (oserr_of f), w')
  | None => (None, w')
  end.

Definition Rename (oldPath newPath : string) : M (option oserr) := fun w =>
  let w' := log (EvRename oldPath newPath) w in
  match faultOf OpRename oldPath w with
  | Some f => (Some (oserr_of f), w')
  | None =>
      match files w !! oldPath with
      | Some data =>
          (None, setFiles (<[newPath := data]> (delete oldPath (files w))) w')
      | None => (Some ErrNotExist, w')
      end
  end.

Definition Remove (path : string) : M (option oserr) := fun w =>
  let w' := log (EvRemove path) w in
  match faultOf OpRemove path w with
  | Some f => (Some (oserr_of f), w')
  | None =>
      match files w !! path with
      | Some _ => (None, setFiles (delete path (files w)) w')
      | None => (Some ErrNotExist, w')
      end
  end.

End FS.

(** [time.Now()]: the index of the reading; the clock moves on. *)
Definition Now : M nat := fun w =>
  (clock w, mkWorld (files w) (trace w) (S (clock w)) (fault w)).

(** What the program takes from its environment and from Go's standard
    library without the sources defining it: the home directory
    ([os.UserHomeDir], [None] when it fails), [filepath.Join] and
    [filepath.Dir], and how the n-th reading of the clock prints, as
    [Format("20060102-150405")] and as the decimal [UnixNano()]. *)
Record Env := mkEnv {
  UserHomeDir : option string;
  filepathJoin : string -> string -> string;
  filepathDir : string -> string;
  formatStamp : nat -> string;
  formatUnixNano : nat -> string
}.

(** ** internal/filesystem: [ExpandUser] *)

Definition ExpandUser (env : Env) (path : string) : result string :=
  match path with
  | EmptyString => Ok path
  | String c rest =>
      if negb (Ascii.eqb c "~"%char) then Ok path
      else match UserHomeDir env with
           | None => Err ErrNoHome
           | Some home =>
               match rest with
               | EmptyString => Ok home
               | String c1 _ =>
                   if negb (Ascii.eqb c1 "/"%char) then Err ErrOtherUserHome
                   else Ok (filepathJoin env home (TrimPrefix path "~/"))
               end
           end
  end.

Definition isNotExist (e : option oserr) : bool :=
  match e with Some ErrNotExist => true | _ => false end.

(** ** internal/hostsfile *)

Module hostsfile.

Definition blockStart : string := "# >>> devhosts BEGIN".
Definition blockEnd : string := "# <<< devhosts END".
Definition newline : string := String nl "".

(** [ApplyResult] contains metadata about a hosts file update attempt. *)
Record ApplyResult := mkApplyResult {
  Changed : bool;
  BackupPath : string;
  Path : string
}.

Fixpoint nonEmptyNames (hosts : list Host) : list string :=
  match hosts with
  | [] => []
  | h :: rest =>
      if String.eqb (Name h) "" then nonEmptyNames rest
      else Name h :: nonEmptyNames rest
  end.

Definition extractHostnames (hosts : list Host) : list string :=
  sortStrings (nonEmptyNames hosts).

Definition buildBlock (names : list string) : string :=
  match names with
  | [] => ""
  | _ :: _ =>
      blockStart +:+ newline +:+ "127.0.0.1    " +:+ Join names " " +:+ newline
        +:+ blockEnd +:+ newline
  end.

(** The loop of [stripManagedBlock] over the lines, with its three
    variables; [Aborted] is the early return on a nested start marker. *)
Inductive scan :=
| Aborted
| Scanned (inside removed : bool) (out : list string).

Fixpoint scanLines (lines : list string) (inside removed : bool)
    (out : list string) : scan :=
  match lines with
  | [] => Scanned inside removed out
  | line :: rest =>
      if String.eqb line blockStart then
        if inside then Aborted
        else scanLines rest true true out
      else if String.eqb line blockEnd then
        if negb inside then scanLines rest inside removed (out ++ [line])
        else scanLines rest false removed out
      else if inside then scanLines rest inside removed out
      else scanLines rest inside removed (out ++ [line])
  end.

(** [for len(out) > 0 && out[len(out)-1] == "" { out = out[:len(out)-1] }] *)
Fixpoint dropTrailingBlank (out : list string) : list string :=
  match out with
  | [] => []
  | x :: rest =>
      match dropTrailingBlank rest with
      | [] => if String.eqb x "" then [] else [x]
      | y :: ys => x :: y :: ys
      end
  end.

Definition stripManagedBlock (content : string) : string * bool :=
  match scanLines (Split nl content) false false [] with
  | Aborted => (content, false)
  | Scanned inside removed out =>
      if inside then (content, false)
      else
        match dropTrailingBlank out with
        | [] => ("", removed)
        | out' =>
            let result := Join out' newline in
            (if negb (String.eqb result "") then result +:+ newline else result,
             removed)
        end
  end.

(** The content [Apply] computes for the file, from the bytes read and
    the host list (the variable [final]). *)
Definition finalContent (original : string) (hosts : list Host) : string :=
  let withoutBlock := fst (stripManagedBlock original) in
  let hostnames := extractHostnames hosts in
  let block := buildBlock hostnames in
  let final := withoutBlock in
  let final :=
    if negb (String.eqb block "") then
      (if negb (String.eqb final "") && negb (HasSuffix final newline)
       then final +:+ newline else final) +:+ block
    else final in
  if negb (String.eqb final "") && negb (HasSuffix final newline)
  then final +:+ newline else final.

Section Manager.
Context (env : Env).

(** The tail of [Apply], from the [MkdirAll] on: write the temporary
    file and rename it over the target. *)
Definition replaceFile (resolved original final backupPath : string)
    : M (result ApplyResult) :=
  let dir := filepathDir env resolved in
  mkdirErr <- FS.MkdirAll dir ;;
  match mkdirErr with
  | Some e => ret (Err (WrapPermission "mkdir" dir e))
  | None =>
      t <- Now ;;
      let tempPath := resolved +:+ ".devhosts.tmp-" +:+ formatUnixNano env t in
      writeErr <- FS.WriteFile tempPath final ;;
      match writeErr with
      | Some e =>
          _ <- FS.Remove tempPath ;;
          ret (Err (WrapPermission "write" tempPath e))
      | None =>
          renameErr <- FS.Rename tempPath resolved ;;
          match renameErr with
          | Some e =>
              _ <- FS.Remove tempPath ;;
              _ <- (if negb (String.eqb backupPath "")
                    then FS.WriteFile resolved original
                    else ret None) ;;
              ret (Err (WrapPermission "replace" resolved e))
          | None =>
              ret (Ok (mkApplyResult true backupPath resolved))
          end
      end
  end.

(** The backup step of [Apply]: skipped, with an empty backup path,
    when the file did not exist. *)
Definition takeBackup (resolved original : string) (readErr : option oserr)
    : M (result string) :=
  if negb (isNotExist readErr) then
    t <- Now ;;
    let backupPath := resolved +:+ ".devhosts.bak-" +:+ formatStamp env t in
    writeErr <- FS.WriteFile backupPath original ;;
    match writeErr with
    | Some e => ret (Err (WrapPermission "backup" backupPath e))
    | None => ret (Ok backupPath)
    end
  else ret (Ok "").

(** [Apply] after the read: compare, back up, replace. *)
Definition applyContent (resolved original : string) (readErr : option oserr)
    (hosts : list Host) : M (result ApplyResult) :=
  let final := finalContent original hosts in
  if String.eqb original final then ret (Ok (mkApplyResult false "" ""))
  else
    b <- takeBackup resolved original readErr ;;
    match b with
    | Err e => ret (Err e)
    | Ok backupPath => replaceFile resolved original final backupPath
    end.

(** [Apply] ensures the managed block reflects the provided host list. *)
Definition Apply (path : string) (hosts : list Host) : M (result ApplyResult) :=
  match ExpandUser env path with
  | Err e => ret (Err e)
  | Ok resolved =>
      r <- FS.ReadFile resolved ;;
      let '(original, readErr) := r in
      match readErr with
      | Some e =>
          if negb (isNotExist readErr)
          then ret (Err (WrapPermission "read" resolved e))
          else applyContent resolved original readErr hosts
      | None => applyContent resolved original readErr hosts
      end
  end.

(** [Restore] reverts the hosts file using the supplied result metadata. *)
Definition Restore (res : ApplyResult) : M (option error) :=
  if String.eqb (Path res) "" then ret None
  else if String.eqb (BackupPath res) "" then
    (* No backup was created; remove managed block by reapplying empty set. *)
    r <- Apply (Path res) [] ;;
    ret (match r with Err e => Some e | Ok _ => None end)
  else
    r <- FS.ReadFile (BackupPath res) ;;
    let '(data, err) := r in
    match err with
    | Some e => ret (Some (WrapPermission "read" (BackupPath res) e))
    | None =>
        writeErr <- FS.WriteFile (Path res) data ;;
        match writeErr with
        | Some e => ret (Some (WrapPermission "restore" (Path res) e))
        | None => ret None
        end
    end.

End Manager.

End hostsfile.

(** ** internal/cmdutil *)

(** [Result] captures stdout/stderr from a command invocation. *)
Record RunResult := mkRunResult { Stdout : string; Stderr : string }.

(** A [Runner] executes an external command: what it prints and whether it
    fails may depend on the files it finds. *)
Definition Runner : Type :=
  gmap string string -> string -> list string -> RunResult * option error.

Definition Run (runner : Runner) (name : string) (args : list string)
    : M (RunResult * option error) := fun w =>
  (runner (files w) name args, FS.log (EvRun name args) w).

(** ** internal/caddy *)

Module caddy.

(** [UpdateResult] captures include file update metadata. *)
Record UpdateResult := mkUpdateResult {
  Changed : bool;
  Path : string;
  Previous : string;
  Existed : bool
}.

Definition newline : string := String nl "".

Definition renderBlock (h : Host) : string :=
  let lines := [Name h +:+ " {"] in
  let lines := if TLS h then (lines ++ ["  tls internal"; ""])%list else lines in
  let lines := (lines ++ ["  reverse_proxy " +:+ Upstream h; "}"])%list in
  Join lines newline.

(** [GenerateInclude] renders the managed include file content. *)
Definition GenerateInclude (hosts : list Host) : string :=
  match hosts with
  | [] => ""
  | _ :: _ => Join (map renderBlock hosts) (newline +:+ newline) +:+ newline
  end.

(** The loop of [unique]: keep a value when it differs from the one
    before ([prev] starts as the empty string). *)
Fixpoint dedupFrom (prev : string) (vs : list string) : list string :=
  match vs with
  | [] => []
  | v :: rest =>
      if negb (String.eqb v prev) then v :: dedupFrom v rest
      else dedupFrom prev rest
  end.

Definition unique (values : list string) : list string :=
  match values with
  | [] => values
  | _ :: _ => dedupFrom "" (sortStrings values)
  end.

Definition isHeaderFor (trimmed name : string) : bool :=
  String.eqb trimmed (name +:+ "{")
  || HasPrefix trimmed (name +:+ " ")
  || HasPrefix trimmed (name +:+ "{").

(** The names of the hosts as the keys of [lookup]; the map is only
    ranged over, and [unique] sorts what the ranging collects. *)
Definition lookupOf (hosts : list Host) : gset string :=
  list_to_set (hostsfile.nonEmptyNames hosts).

Definition detectConflicts (content : string) (hosts : list Host) : list string :=
  match hosts with
  | [] => []
  | _ :: _ =>
      let lines := Split nl content in
      let lookup := lookupOf hosts in
      let conflicts :=
        flat_map (fun raw =>
          let trimmed := TrimSpace raw in
          List.filter (fun name => isHeaderFor trimmed name) (elements lookup))
          lines in
      unique conflicts
  end.

Section Manager.
Context (env : Env) (runner : Runner).

Definition altHomeToken (path : string) : string :=
  match UserHomeDir env with
  | None => ""
  | Some home =>
      if HasPrefix path (home +:+ "/")
      then "~" +:+ TrimPrefix path home
      else ""
  end.

Definition quote (s : string) : string :=
  String "034"%char s +:+ String "034"%char "".

Definition ensureImportPresent (content includePath : string) : option error :=
  let tokens := [includePath] in
  let alt := altHomeToken includePath in
  let tokens :=
    if negb (String.eqb alt "") then (tokens ++ [alt])%list else tokens in
  if existsb (fun token =>
       Contains content ("import " +:+ quote token)
       || Contains content ("import " +:+ token)) tokens
  then None
  else Some (ErrMissingImport includePath).

Definition usesTildeImport (content includePath : string) : bool :=
  let alt := altHomeToken includePath in
  if String.eqb alt "" then false
  else
    let quoted := quote alt in
    existsb (fun line =>
      let trimmed := TrimSpace line in
      if negb (HasPrefix trimmed "import") then false
      else
        match Fields trimmed with
        | _ :: target :: _ => String.eqb target alt || String.eqb target quoted
        | _ => false
        end) (Split nl content).

(** [EnsureBaseReady] validates the base Caddyfile contains the include
    and no conflicting site blocks. *)
Definition EnsureBaseReady (basePath includePath : string) (hosts : list Host)
    : M (option error) :=
  match ExpandUser env basePath with
  | Err e => ret (Some e)
  | Ok resolvedBase =>
      r <- FS.ReadFile resolvedBase ;;
      let '(data, err) := r in
      match err with
      | Some e => ret (Some (WrapPermission "read" resolvedBase e))
      | None =>
          let baseContent := data in
          match ensureImportPresent baseContent includePath with
          | Some e => ret (Some (ErrBaseInvalid resolvedBase e))
          | None =>
              if usesTildeImport baseContent includePath then
                ret (Some (ErrTildeImport resolvedBase
                             (altHomeToken includePath) includePath))
              else
                let conflicts := detectConflicts data hosts in
                if (0 <? length conflicts)%nat then
                  ret (Some (ErrConflicts resolvedBase
                               (Join (sortStrings conflicts) ", ")))
                else ret None
          end
      end
  end.

(** [UpdateInclude] after the read: compare, then write the temporary
    file and rename it over the target. *)
Definition updateContent (resolved content previous : string) (existed : bool)
    : M (result UpdateResult) :=
  if existed && String.eqb previous content
  then ret (Ok (mkUpdateResult false resolved previous true))
  else
    let dir := filepathDir env resolved in
    mkdirErr <- FS.MkdirAll dir ;;
    match mkdirErr with
    | Some e => ret (Err (WrapPermission "mkdir" dir e))
    | None =>
        t <- Now ;;
        let tempPath :=
          resolved +:+ ".devhosts.tmp-" +:+ formatUnixNano env t in
        writeErr <- FS.WriteFile tempPath content ;;
        match writeErr with
        | Some e =>
            _ <- FS.Remove tempPath ;;
            ret (Err (WrapPermission "write" tempPath e))
        | None =>
            renameErr <- FS.Rename tempPath resolved ;;
            match renameErr with
            | Some e =>
                _ <- FS.Remove tempPath ;;
                ret (Err (WrapPermission "replace" resolved e))
            | None =>
                ret (Ok (mkUpdateResult true resolved previous existed))
            end
        end
    end.

(** [UpdateInclude] writes the include file atomically and returns the
    previous contents for rollback. *)
Definition UpdateInclude (path content : string) : M (result UpdateResult) :=
  match ExpandUser env path with
  | Err e => ret (Err e)
  | Ok resolved =>
      r <- FS.ReadFile resolved ;;
      let '(previous, readErr) := r in
      match readErr with
      | Some e =>
          if negb (isNotExist readErr)
          then ret (Err (WrapPermission "read" resolved e))
          else updateContent resolved content previous false
      | None => updateContent resolved content previous true
      end
  end.

(** [RestoreInclude] attempts to put the include file back to its
    previous bytes. *)
Definition RestoreInclude (res : UpdateResult) : M (option error) :=
  if String.eqb (Path res) "" then ret None
  else if negb (Existed res) then
    (* File did not exist previously; remove it if present. *)
    err <- FS.Remove (Path res) ;;
    match err with
    | Some e =>
        if negb (isNotExist err)
        then ret (Some (WrapPermission "remove" (Path res) e))
        else ret None
    | None => ret None
    end
  else
    err <- FS.WriteFile (Path res) (Previous res) ;;
    match err with
    | Some e => ret (Some (WrapPermission "restore" (Path res) e))
    | None => ret None
    end.

(** [Reload] invokes [caddy reload] with the provided base Caddyfile. *)
Definition Reload (baseCaddyfile : string) : M (RunResult * option error) :=
  match ExpandUser env baseCaddyfile with
  | Err e => ret (mkRunResult "" "", Some e)
  | Ok resolved =>
      Run runner "caddy" ["reload"; "--config"; resolved; "--adapter"; "caddyfile"]
  end.

End Manager.

End caddy.

(** ** internal/cli: the apply orchestrator *)

Module cli.

Record applyOutcome := mkOutcome {
  include : caddy.UpdateResult;
  hosts : hostsfile.ApplyResult
}.

(** [App] bundles the services backing the CLI. *)
Record App := mkApp {
  appEnv : Env;
  appRunner : Runner;
  HostsPath : string
}.

Definition applyState (a : App) (snapshot : Snapshot) : M (result applyOutcome) :=
  err <- caddy.EnsureBaseReady (appEnv a) (BaseCaddyfile snapshot)
           (IncludeCaddyfile snapshot) (Hosts snapshot) ;;
  match err with
  | Some e => ret (Err e)
  | None =>
      r <- caddy.UpdateInclude (appEnv a) (IncludeCaddyfile snapshot)
             (caddy.GenerateInclude (Hosts snapshot)) ;;
      match r with
      | Err e => ret (Err e)
      | Ok includeRes =>
          r <- hostsfile.Apply (appEnv a) (HostsPath a) (Hosts snapshot) ;;
          match r with
          | Err e =>
              _ <- caddy.RestoreInclude includeRes ;;
              ret (Err e)
          | Ok hostsRes =>
              r <- caddy.Reload (appEnv a) (appRunner a) (BaseCaddyfile snapshot) ;;
              let '(reloadOut, err) := r in
              match err with
              | Some e =>
                  _ <- caddy.RestoreInclude includeRes ;;
                  _ <- hostsfile.Restore (appEnv a) hostsRes ;;
                  let details := TrimSpace (Stderr reloadOut) in
                  let details :=
                    if String.eqb details "" then TrimSpace (Stdout reloadOut)
                    else details in
                  ret (Err (ErrReload e details))
              | None => ret (Ok (mkOutcome includeRes hostsRes))
              end
          end
      end
  end.

(** [rollbackOutcome] undoes a successful apply; the source joins the
    messages of the errors it collects, here they are returned as a list. *)
Definition rollbackOutcome (a : App) (outcome : applyOutcome) : M (list error) :=
  errs1 <- (if caddy.Changed (include outcome) then
              err <- caddy.RestoreInclude (include outcome) ;;
              ret (option_list err)
            else ret []) ;;
  errs2 <- (if hostsfile.Changed (hosts outcome) then
              err <- hostsfile.Restore (appEnv a) (hosts outcome) ;;
              ret (option_list err)
            else ret []) ;;
  ret (errs1 ++ errs2)%list.

(** The errors of [parseHostSpec], one constructor for each message. *)
Inductive specError :=
| ErrEmptySpec
| ErrNameMissingBeforeEquals
| ErrUpstreamMissingAfterEquals
| ErrInvalidSpec (spec : string)
| ErrNameMissingIn (spec : string).

(** What a loop of the handlers ends with: its value, the error it
    returns, or a run-time panic on an index out of range. *)
Inductive outcome (A : Type) :=
| Done (a : A)
| Failed (e : specError)
| Panic.
Arguments Done {A} a.
Arguments Failed {A} e.
Arguments Panic {A}.

Fixpoint findHostIndexFrom (i : Z) (hosts : list Host) (name : string) : Z :=
  match hosts with
  | [] => (-1)%Z
  | h :: rest =>
      if String.eqb (Name h) name then i
      else findHostIndexFrom (i + 1)%Z rest name
  end.

Definition findHostIndex (hosts : list Host) (name : string) : Z :=
  findHostIndexFrom 0 hosts name.

(** The map [existing] of [handleAdd], from the names to the indices. *)
Fixpoint indexHosts (i : nat) (hosts : list Host) (existing : gmap string nat)
    : gmap string nat :=
  match hosts with
  | [] => existing
  | h :: rest => indexHosts (S i) rest (<[Name h := i]> existing)
  end.

Section Edits.
Context (mapLower : string -> string).

Definition parseHostSpec (spec : string) : outcome (string * string) :=
  let spec := TrimSpace spec in
  if String.eqb spec "" then Failed ErrEmptySpec
  else if Contains spec "=" then
    match SplitN2 "="%char spec with
    | part0 :: part1 :: _ =>
        let name := NormalizeHostName mapLower part0 in
        let upstream := TrimSpace part1 in
        if String.eqb name "" then Failed ErrNameMissingBeforeEquals
        else if String.eqb upstream "" then Failed ErrUpstreamMissingAfterEquals
        else
          let upstream :=
            if negb (Contains upstream "://") then "http://" +:+ upstream
            else upstream in
          Done (name, upstream)
    | _ => Panic
    end
  else
    let idx := LastIndexByte ":"%char spec in
    if ((idx <=? 0) || (idx =? Z.of_nat (String.length spec) - 1))%Z
    then Failed (ErrInvalidSpec spec)
    else
      let name := NormalizeHostName mapLower (substring 0 (Z.to_nat idx) spec) in
      let port := drop (Z.to_nat (idx + 1)) spec in
      if String.eqb name "" then Failed (ErrNameMissingIn spec)
      else Done (name, "http://localhost:" +:+ port).

(** The loop of [handleAdd] over the host specs; [forcedTLS] is what
    [--tls] and [--no-tls] set. *)
Fixpoint addLoop (forcedTLS : option bool) (specs : list string)
    (hosts : list Host) (existing : gmap string nat) : outcome (list Host) :=
  match specs with
  | [] => Done hosts
  | spec :: rest =>
      match parseHostSpec spec with
      | Failed e => Failed e
      | Panic => Panic
      | Done (name, upstream) =>
          let tls :=
            match forcedTLS with
            | Some v => Done v
            | None =>
                match existing !! name with
                | Some idx =>
                    match hosts !! idx with
                    | Some h => Done (TLS h)
                    | None => Panic
                    end
                | None => Done true
                end
            end in
          match tls with
          | Failed e => Failed e
          | Panic => Panic
          | Done tls =>
              let host := mkHost name upstream tls in
              match existing !! name with
              | Some idx =>
                  if decide (idx < length hosts)%nat
                  then addLoop forcedTLS rest (<[idx := host]> hosts) existing
                  else Panic
              | None =>
                  addLoop forcedTLS rest (hosts ++ [host])%list
                    (<[name := length hosts]> existing)
              end
          end
      end
  end.

(** [handleAdd] from the clone of the snapshot to the hosts it hands to
    [ValidateSnapshot]. *)
Definition addHosts (forcedTLS : option bool) (specs : list string)
    (hosts : list Host) : outcome (list Host) :=
  addLoop forcedTLS specs hosts (indexHosts 0 hosts ∅).

(** The loop of [handleRemove] over its arguments, with its variables
    [desired.Hosts], [removed] and [missing]. *)
Fixpoint removeLoop (args : list string) (hosts : list Host) (removed : Z)
    (missing : list string) : list Host * Z * list string :=
  match args with
  | [] => (hosts, removed, missing)
  | raw :: rest =>
      let name := NormalizeHostName mapLower raw in
      let idx := findHostIndex hosts name in
      if (idx =? -1)%Z then removeLoop rest hosts removed (missing ++ [name])%list
      else
        removeLoop rest
          (take (Z.to_nat idx) hosts ++ List.skipn (Z.to_nat (idx + 1)) hosts)%list
          (removed + 1)%Z missing
  end.

Definition removeHosts (args : list string) (hosts : list Host)
    : list Host * Z * list string :=
  removeLoop args hosts 0 [].

End Edits.

Section Handlers.
Context (mapLower : string -> string) (urlParse : string -> option URL).

(** [handleApply]: validate, then apply.  [ValidateSnapshot] has
    normalised and sorted the hosts in the array that the snapshot
    handed to [applyState] shares; the line printed on success is left
    out. *)
Definition handleApply (a : App) (snapshot : Snapshot)
    : M (option (snapshotError + error)) :=
  match ValidateSnapshot mapLower urlParse snapshot with
  | (Some e, _) => ret (Some (inl e))
  | (None, hosts) =>
      r <- applyState a (mkSnapshot (Version snapshot) hosts
                           (BaseCaddyfile snapshot) (IncludeCaddyfile snapshot)) ;;
      match r with
      | Err e => ret (Some (inr e))
      | Ok _ => ret None
      end
  end.

End Handlers.

End cli.

(** ** A concrete machine to run the program on *)

Module Example.

Definition env : Env :=
  mkEnv (Some "/home/dev")
        (fun dir name => dir +:+ "/" +:+ name)
        (fun _ => "/")
        (fun _ => "20240102-030405")
        (fun n => match n with O => "1704164645000000000" | _ => "1704164645000000001" end).

Definition noFault : nat -> fsop -> string -> option failure := fun _ _ _ => None.

Definition reloadOk : Runner := fun _ _ _ => (mkRunResult "" "", None).

Definition reloadFails : Runner := fun _ name args =>
  (mkRunResult "" "adapting config: unexpected token", Some (ErrRun name args)).

Definition base : string := "/home/dev/.Caddyfile".
Definition incl : string := "/home/dev/.devhosts.caddy".
Definition etcHosts : string := "/etc/hosts".

Definition user : Host := mkHost "user" "http://localhost:8000" true.
Definition staff : Host := mkHost "staff" "http://127.0.0.1:9000" false.

Definition admin : Host := mkHost "admin" "http://localhost:8000" false.

Definition snapshot (hs : list Host) : Snapshot := mkSnapshot 1 hs base incl.

Definition world (fs : list (string * string)) : World :=
  mkWorld (list_to_map fs) [] 0 noFault.

Definition app (r : Runner) : cli.App := cli.mkApp env r etcHosts.

(** A file system that refuses every write. *)
Definition denyWrites : nat -> fsop -> string -> option failure :=
  fun _ o _ => match o with OpWriteFile => Some Denied | _ => None end.

Definition lockedWorld (fs : list (string * string)) : World :=
  mkWorld (list_to_map fs) [] 0 denyWrites.

Definition baseContent : string := "import /home/dev/.devhosts.caddy
".

(** A base Caddyfile with a site block of its own for [admin]. *)
Definition baseWithAdmin : string := "import /home/dev/.devhosts.caddy
admin {
  respond 200
}
".

Definition userBlock : string := "# >>> devhosts BEGIN
127.0.0.1    user
# <<< devhosts END
".

(** A hosts file whose managed block has lost its end marker. *)
Definition unterminated : string := "127.0.0.1 localhost
# >>> devhosts BEGIN
127.0.0.1    old
".

(** A hosts file with a start marker inside the managed block. *)
Definition nested : string := "# >>> devhosts BEGIN
# >>> devhosts BEGIN
127.0.0.1    old
# <<< devhosts END
".

(** A hosts file with an end marker that no start marker precedes. *)
Definition strayEnd : string := "127.0.0.1 localhost
# <<< devhosts END
".

End Example.

(** ** Notions the statements below are phrased with *)

(** No operation of the file system fails for a reason of its own. *)
Definition healthy (w : World) : Prop :=
  forall n o p, fault w n o p = None.

(** No host name contains a line break (the host pattern of
    [internal/state] forbids it). *)
Definition plainNames (hosts : list Host) : Prop :=
  Forall (fun h => hasByte nl (Name h) = false) hosts.

(** The markers of a hosts file are well nested: [stripManagedBlock] meets
    no start marker inside a block and the file does not end inside one. *)
Definition blockIntact (content : string) : bool :=
  match hostsfile.scanLines (Split nl content) false false [] with
  | hostsfile.Scanned false _ _ => true
  | _ => false
  end.

(** Lines put back together, each one terminated. *)
Definition unlines (l : list string) : string :=
  match l with
  | [] => ""
  | _ :: _ => Join l hostsfile.newline +:+ hostsfile.newline
  end.

(** The mapping line of the managed block. *)
Definition mappingLine (names : list string) : string :=
  "127.0.0.1    " +:+ Join names " ".

(** The tail that follows the kept lines in a file [Apply] wrote:
    nothing, or the managed block.  Scanned from outside a block, either
    leaves one blank line behind. *)
Definition blankTail (t : string) : Prop :=
  forall removed acc, exists r,
    hostsfile.scanLines (Split nl t) false removed acc
    = hostsfile.Scanned false r (acc ++ [""]).

(** The names [Apply] and [UpdateInclude] give their temporary file and
    [Apply] its backup, at the reading [t] of the clock. *)
Definition tempPathOf (env : Env) (resolved : string) (t : nat) : string :=
  resolved +:+ ".devhosts.tmp-" +:+ formatUnixNano env t.

Definition backupPathOf (env : Env) (resolved : string) (t : nat) : string :=
  resolved +:+ ".devhosts.bak-" +:+ formatStamp env t.

(** The base Caddyfile has a line that, white space around it set aside,
    starts a site block for [name]: the name, then a space or a brace. *)
Definition definesSite (content name : string) : Prop :=
  exists line rest,
    In line (Split nl content) /\
    (TrimSpace line = name +:+ " " +:+ rest \/ TrimSpace line = name +:+ "{" +:+ rest).

(** The one operation [RestoreInclude] issues for a result with a path. *)
Definition includeRollback (res : caddy.UpdateResult) : event :=
  if caddy.Existed res then EvWriteFile (caddy.Path res) (caddy.Previous res)
  else EvRemove (caddy.Path res).

(** The diagnostics [applyState] attaches to a failed reload. *)
Definition reloadDetails (out : RunResult) : string :=
  if String.eqb (TrimSpace (Stderr out)) "" then TrimSpace (Stdout out)
  else TrimSpace (Stderr out).

(** Every failure of the file system is a refusal of access. *)
Definition onlyDenies (w : World) : Prop :=
  forall n o p, fault w n o p <> Some Broken.

(** A property of the world that a function of the sources keeps. *)
Definition preserves {A} (P : World -> Prop) (m : M A) : Prop :=
  forall w, P w -> P (snd (m w)).

(** The file at [rp] is there. *)
Definition present (rp : string) (w : World) : Prop := is_Some (files w !! rp).

(** The trace of [w] is the trace of [w0] and more. *)
Definition extends (w0 w : World) : Prop := exists t, trace w = trace w0 ++ t.

(** The operations that can change what is stored. *)
Definition mutates (e : event) : bool :=
  match e with
  | EvReadFile _ | EvRun _ _ => false
  | _ => true
  end.

Definition isRead (e : event) : bool :=
  match e with EvReadFile _ => true | _ => false end.

(** An external command was run. *)
Definition isRun (e : event) : bool :=
  match e with EvRun _ _ => true | _ => false end.

(** Since [w0] only the file system was used: no command was run. *)
Definition noRunSince (w0 w : World) : Prop :=
  exists t, trace w = trace w0 ++ t /\ forallb (fun e => negb (isRun e)) t = true.

(** The lines [GenerateInclude] renders for one host. *)
Definition siteLines (h : Host) : list string :=
  ([Name h +:+ " {"] ++ (if TLS h then ["  tls internal"; ""] else [])
   ++ ["  reverse_proxy " +:+ Upstream h; "}"])%list.

(** ** Notions for the edits of the configuration *)

(** Some argument of [handleRemove], normalised, names the host. *)
Definition named (names : list string) (h : Host) : bool :=
  existsb (String.eqb (Name h)) names.

(** Put a host under its name: in the place of the first host with that
    name, keeping its TLS setting unless one is forced, or at the end,
    with TLS on unless forced off. *)
Fixpoint upsertHost (forced : option bool) (name upstream : string)
    (hosts : list Host) : list Host :=
  match hosts with
  | [] => [mkHost name upstream (default true forced)]
  | h :: rest =>
      if String.eqb (Name h) name
      then mkHost name upstream (default (TLS h) forced) :: rest
      else h :: upsertHost forced name upstream rest
  end.

(** The map [existing] of [handleAdd] knows every host by its index. *)
Definition synced (hosts : list Host) (existing : gmap string nat) : Prop :=
  forall name i,
    existing !! name = Some i <-> exists h, hosts !! i = Some h /\ Name h = name.

(** A host as the loop of [ValidateSnapshot] rewrites it. *)
Definition normalised (mapLower : string -> string) (h : Host) : Host :=
  mkHost (NormalizeHostName mapLower (Name h)) (Upstream h) (TLS h).

(** Every byte of [s] is one the host pattern admits. *)
Fixpoint hostChars (s : string) : bool :=
  match s with
  | EmptyString => true
  | String c s' => isHostChar c && hostChars s'
  end.

(** * Facts about the string functions *)

Example Split_ex1 : Split nl "a" = ["a"].
Proof. reflexivity. Qed.
Example Split_ex2 : Split nl ("a" +:+ String nl "" +:+ String nl "b" +:+ String nl "") = ["a"; ""; "b"; ""].
Proof. reflexivity. Qed.
Example Trim_ex1 : TrimSpace "  admin {  " = "admin {".
Proof. vm_compute. reflexivity. Qed.
Example Fields_ex1 : Fields "  import   /x  y" = ["import"; "/x"; "y"].
Proof. vm_compute. reflexivity. Qed.
Example sort_ex1 : sortStrings ["user"; "admin"; "staff"] = ["admin"; "staff"; "user"].
Proof. vm_compute. reflexivity. Qed.


Section StringFacts.

Lemma sapp_nil_l (s : string) : "" +:+ s = s.
Proof. reflexivity. Qed.

Lemma sapp_cons (c : ascii) (s t : string) : String c s +:+ t = String c (s +:+ t).
Proof. reflexivity. Qed.

Lemma sapp_nil_r (s : string) : s +:+ "" = s.
Proof. induction s as [|c s IH]; [reflexivity|]. rewrite sapp_cons, IH. reflexivity. Qed.

Lemma sapp_assoc (a b c : string) : (a +:+ b) +:+ c = a +:+ (b +:+ c).
Proof.
  induction a as [|x a IH]; [reflexivity|].
  rewrite !sapp_cons, IH. reflexivity.
Qed.

Lemma sapp_length (a b : string) :
  String.length (a +:+ b) = (String.length a + String.length b)%nat.
Proof.
  induction a as [|x a IH]; [reflexivity|].
  rewrite sapp_cons. simpl. rewrite IH. reflexivity.
Qed.

Lemma sapp_eq_nil (a b : string) : a +:+ b = "" -> a = "" /\ b = "".
Proof. destruct a; [rewrite sapp_nil_l; auto | rewrite sapp_cons; discriminate]. Qed.

Lemma sapp_neq_self (p s : string) : s <> "" -> p +:+ s <> p.
Proof.
  intros Hs Heq. apply (f_equal String.length) in Heq.
  rewrite sapp_length in Heq. destruct s; [congruence|]. simpl in Heq. lia.
Qed.

Lemma prefix_app (p s : string) : String.prefix p (p +:+ s) = true.
Proof.
  induction p as [|c p IH]; [destruct s; reflexivity|].
  rewrite sapp_cons. simpl. destruct (ascii_dec c c); [exact IH | congruence].
Qed.

Lemma HasSuffix_unfold (s suffix : string) :
  HasSuffix s suffix =
  if String.eqb s suffix then true
  else match s with
       | EmptyString => false
       | String _ s' => HasSuffix s' suffix
       end.
Proof. destruct s; reflexivity. Qed.

Lemma HasSuffix_refl (s : string) : HasSuffix s s = true.
Proof. rewrite HasSuffix_unfold, String.eqb_refl. reflexivity. Qed.

Lemma HasSuffix_app (a b : string) : HasSuffix (a +:+ b) b = true.
Proof.
  induction a as [|c a IH]; [rewrite sapp_nil_l; apply HasSuffix_refl|].
  rewrite sapp_cons, HasSuffix_unfold, IH.
  destruct (String.eqb _ _); reflexivity.
Qed.

(** *** [Split] and [Join] *)

Lemma hasByte_app (c : ascii) (a b : string) :
  hasByte c (a +:+ b) = hasByte c a || hasByte c b.
Proof.
  induction a as [|x a IH]; [reflexivity|].
  rewrite sapp_cons. simpl. rewrite IH, orb_assoc. reflexivity.
Qed.

Lemma Split_nonempty (sep : ascii) (s : string) : Split sep s <> [].
Proof.
  destruct s as [|c s]; simpl; [discriminate|].
  destruct (Ascii.eqb c sep); [discriminate|].
  destruct (Split sep s); discriminate.
Qed.

Lemma Split_cons_other (sep c : ascii) (s : string) :
  Ascii.eqb c sep = false ->
  exists x xs, Split sep s = x :: xs /\ Split sep (String c s) = String c x :: xs.
Proof.
  intros Hc. simpl. rewrite Hc.
  destruct (Split sep s) as [|x xs] eqn:E; [destruct (Split_nonempty _ _ E)|].
  eauto.
Qed.

Lemma Split_app_sep (sep : ascii) (a b : string) :
  Split sep (a +:+ String sep b) = (Split sep a ++ Split sep b)%list.
Proof.
  induction a as [|c a IH].
  - rewrite sapp_nil_l. simpl. rewrite Ascii.eqb_refl. reflexivity.
  - rewrite sapp_cons. destruct (Ascii.eqb c sep) eqn:Hc.
    + simpl. rewrite Hc, IH. reflexivity.
    + destruct (Split_cons_other sep c a Hc) as (x & xs & E1 & E2).
      rewrite E2. simpl. rewrite Hc, IH, E1. reflexivity.
Qed.

Lemma Split_no_sep (sep : ascii) (s : string) :
  hasByte sep s = false -> Split sep s = [s].
Proof.
  induction s as [|c s IH]; [reflexivity|].
  simpl. intros H. apply orb_false_iff in H as [Hc Hs].
  rewrite Hc, (IH Hs). reflexivity.
Qed.

Lemma Split_lines_no_sep (sep : ascii) (s : string) :
  Forall (fun x => hasByte sep x = false) (Split sep s).
Proof.
  induction s as [|c s IH]; [repeat constructor|].
  simpl. destruct (Ascii.eqb c sep) eqn:Hc.
  - constructor; [reflexivity | exact IH].
  - destruct (Split sep s) as [|x xs]; [repeat constructor; simpl; rewrite Hc; reflexivity|].
    inversion IH; subst. constructor; [simpl; rewrite Hc; assumption | assumption].
Qed.

Lemma Join_cons2 (x y : string) (l : list string) (sep : string) :
  Join (x :: y :: l) sep = x +:+ sep +:+ Join (y :: l) sep.
Proof. reflexivity. Qed.

Lemma Split_Join (sep : ascii) (l : list string) :
  l <> [] -> Forall (fun x => hasByte sep x = false) l ->
  Split sep (Join l (String sep "")) = l.
Proof.
  induction l as [|x l IH]; [congruence|]. intros _ Hl.
  inversion Hl as [|? ? Hx Hl']; subst.
  destruct l as [|y l]; [simpl; apply Split_no_sep; assumption|].
  rewrite Join_cons2, sapp_cons, sapp_nil_l, Split_app_sep.
  rewrite (Split_no_sep _ _ Hx), IH by (assumption || discriminate).
  reflexivity.
Qed.

Lemma Join_Split (sep : ascii) (s : string) :
  Join (Split sep s) (String sep "") = s.
Proof.
  induction s as [|c s IH]; [reflexivity|].
  simpl. destruct (Ascii.eqb c sep) eqn:Hc.
  - apply Ascii.eqb_eq in Hc. subst c.
    destruct (Split sep s) as [|x xs] eqn:E; [destruct (Split_nonempty _ _ E)|].
    rewrite Join_cons2, IH. reflexivity.
  - destruct (Split sep s) as [|x xs] eqn:E; [destruct (Split_nonempty _ _ E)|].
    destruct xs as [|y ys].
    + simpl in *. congruence.
    + rewrite Join_cons2 in *. rewrite sapp_cons, IH. reflexivity.
Qed.

Lemma Join_no_sep (c : ascii) (l : list string) (sep : string) :
  hasByte c sep = false ->
  Forall (fun x => hasByte c x = false) l ->
  hasByte c (Join l sep) = false.
Proof.
  intros Hsep. induction l as [|x l IH]; [reflexivity|].
  intros Hl. inversion Hl as [|? ? Hx Hl']; subst.
  destruct l as [|y l]; [exact Hx|].
  rewrite Join_cons2, !hasByte_app, Hx, Hsep, (IH Hl'). reflexivity.
Qed.

End StringFacts.

(** * Facts about the managed block of the hosts file *)

Section BlockFacts.
Import hostsfile.

Lemma scan_acc (lines : list string) : forall inside removed acc,
  scanLines lines inside removed acc =
  match scanLines lines inside removed [] with
  | Aborted => Aborted
  | Scanned i r o => Scanned i r (acc ++ o)
  end.
Proof.
  induction lines as [|line rest IH]; intros inside removed acc; simpl.
  - rewrite app_nil_r. reflexivity.
  - destruct (String.eqb line blockStart).
    + destruct inside; [reflexivity | apply IH].
    + destruct (String.eqb line blockEnd), inside; simpl; try apply IH.
      all: rewrite (IH _ _ (acc ++ [line])), (IH _ _ [line]).
      all: destruct (scanLines rest _ _ []); [reflexivity|].
      all: rewrite <- app_assoc; reflexivity.
Qed.

Lemma scan_app (l1 l2 : list string) : forall inside removed acc,
  scanLines (l1 ++ l2) inside removed acc =
  match scanLines l1 inside removed acc with
  | Aborted => Aborted
  | Scanned i r o => scanLines l2 i r o
  end.
Proof.
  induction l1 as [|line rest IH]; intros inside removed acc; simpl; [reflexivity|].
  destruct (String.eqb line blockStart).
  - destruct inside; [reflexivity | apply IH].
  - destruct (String.eqb line blockEnd), inside; simpl; apply IH.
Qed.

(** Outside a block, lines other than the start marker are all kept. *)
Lemma scan_keeps (l : list string) : forall removed acc,
  Forall (fun x => x <> blockStart) l ->
  scanLines l false removed acc = Scanned false removed (acc ++ l).
Proof.
  induction l as [|line rest IH]; intros removed acc Hl; simpl.
  - rewrite app_nil_r. reflexivity.
  - inversion Hl as [|? ? Hx Hrest]; subst.
    apply String.eqb_neq in Hx. rewrite Hx.
    destruct (String.eqb line blockEnd); simpl; rewrite IH by assumption.
    all: rewrite <- app_assoc; reflexivity.
Qed.

(** What the scan keeps are lines of the input, none a start marker. *)
Lemma scan_out (l : list string) : forall inside removed acc i r o,
  scanLines l inside removed acc = Scanned i r o ->
  forall x, In x o -> In x acc \/ (In x l /\ x <> blockStart).
Proof.
  induction l as [|line rest IH]; intros inside removed acc i r o; simpl.
  - intros [= <- <- <-] x Hx. left. exact Hx.
  - destruct (String.eqb line blockStart) eqn:Hs.
    + destruct inside; [discriminate|].
      intros H x Hx. destruct (IH _ _ _ _ _ _ H x Hx) as [?|[? ?]]; auto.
    + apply String.eqb_neq in Hs.
      destruct (String.eqb line blockEnd), inside; simpl; intros H x Hx.
      all: destruct (IH _ _ _ _ _ _ H x Hx) as [Hin|[? ?]]; auto.
      all: apply in_app_or in Hin as [?|[<-|[]]]; auto.
Qed.

Lemma dropTrailingBlank_idem (l : list string) :
  dropTrailingBlank (dropTrailingBlank l) = dropTrailingBlank l.
Proof.
  induction l as [|x rest IH]; [reflexivity|]. simpl.
  destruct (dropTrailingBlank rest) as [|y ys] eqn:E.
  - destruct (String.eqb x "") eqn:Hx; [reflexivity|]. simpl. rewrite Hx. reflexivity.
  - change (dropTrailingBlank (x :: y :: ys))
      with (match dropTrailingBlank (y :: ys) with
            | [] => if String.eqb x "" then [] else [x]
            | y' :: ys' => x :: y' :: ys'
            end).
    rewrite IH. reflexivity.
Qed.

Lemma dropTrailingBlank_app_blank (l : list string) :
  dropTrailingBlank (l ++ [""]) = dropTrailingBlank l.
Proof.
  induction l as [|x rest IH]; [reflexivity|]. simpl. rewrite IH. reflexivity.
Qed.

Lemma dropTrailingBlank_app_line (o o2 : list string) (x : string) :
  x <> "" ->
  dropTrailingBlank (o ++ x :: o2) = o ++ x :: dropTrailingBlank o2.
Proof.
  intros Hx. apply String.eqb_neq in Hx.
  induction o as [|a o IH]; simpl.
  - destruct (dropTrailingBlank o2); [rewrite Hx|]; reflexivity.
  - rewrite IH. destruct o; reflexivity.
Qed.

Lemma dropTrailingBlank_In (l : list string) (x : string) :
  In x (dropTrailingBlank l) -> In x l.
Proof.
  revert x. induction l as [|a rest IH]; intros x; simpl; [tauto|].
  destruct (dropTrailingBlank rest) as [|y ys].
  - destruct (String.eqb a ""); simpl; tauto.
  - intros [?|H]; [auto | right; apply IH; exact H].
Qed.

Lemma Join_dropTrailingBlank_nonempty (l : list string) :
  dropTrailingBlank l <> [] -> Join (dropTrailingBlank l) newline <> "".
Proof.
  intros Hne HJ.
  pose proof (dropTrailingBlank_idem l) as Hid.
  destruct (dropTrailingBlank l) as [|x [|y ys]]; [congruence| |].
  - simpl in HJ. subst x. simpl in Hid. discriminate.
  - rewrite Join_cons2 in HJ. apply sapp_eq_nil in HJ as [_ HJ].
    apply sapp_eq_nil in HJ as [HJ _]. discriminate.
Qed.

Lemma Split_unlines_app (l : list string) (t : string) :
  l <> [] -> Forall (fun x => hasByte nl x = false) l ->
  Split nl (unlines l +:+ t) = l ++ Split nl t.
Proof.
  intros Hne Hl. destruct l as [|x l]; [congruence|].
  unfold unlines, newline. rewrite sapp_assoc, sapp_cons, sapp_nil_l, Split_app_sep.
  rewrite Split_Join by assumption. reflexivity.
Qed.

Lemma unlines_tail (l : list string) :
  unlines l = "" \/ HasSuffix (unlines l) newline = true.
Proof.
  destruct l as [|x l]; [left; reflexivity|]. right. apply HasSuffix_app.
Qed.

Lemma strip_intact (content : string) :
  blockIntact content = true ->
  exists removed out,
    scanLines (Split nl content) false false [] = Scanned false removed out /\
    stripManagedBlock content = (unlines (dropTrailingBlank out), removed).
Proof.
  unfold blockIntact, stripManagedBlock.
  destruct (scanLines _ _ _ _) as [|inside removed out]; [discriminate|].
  destruct inside; [discriminate|]. intros _. exists removed, out.
  split; [reflexivity|].
  pose proof (Join_dropTrailingBlank_nonempty out) as HJ.
  destruct (dropTrailingBlank out) as [|x xs]; [reflexivity|].
  apply String.eqb_neq in HJ; [|discriminate]. rewrite HJ. reflexivity.
Qed.

(** What [stripManagedBlock] keeps: lines without a line break, none of
    them a start marker, the last one not blank. *)
Lemma kept_lines (content : string) (inside removed : bool) (out : list string) :
  scanLines (Split nl content) false false [] = Scanned inside removed out ->
  Forall (fun x => hasByte nl x = false) (dropTrailingBlank out) /\
  Forall (fun x => x <> blockStart) (dropTrailingBlank out).
Proof.
  intros Hscan.
  assert (forall x, In x (dropTrailingBlank out) ->
                    In x (Split nl content) /\ x <> blockStart) as Hin.
  { intros x Hx. apply dropTrailingBlank_In in Hx.
    destruct (scan_out _ _ _ _ _ _ _ Hscan x Hx) as [[]|H]. exact H. }
  pose proof (Split_lines_no_sep nl content) as Hnl.
  rewrite List.Forall_forall in Hnl.
  split; apply List.Forall_forall; intros x Hx; destruct (Hin x Hx); auto.
Qed.

Lemma mappingLine_not_start (names : list string) :
  String.eqb (mappingLine names) blockStart = false.
Proof. reflexivity. Qed.

Lemma buildBlock_cons (x : string) (l : list string) :
  buildBlock (x :: l) =
  blockStart +:+ String nl (mappingLine (x :: l) +:+ String nl (blockEnd +:+ String nl "")).
Proof.
  unfold buildBlock, mappingLine, newline.
  rewrite !sapp_assoc, !sapp_cons, !sapp_nil_l. reflexivity.
Qed.

Lemma extractHostnames_plain (hosts : list Host) :
  plainNames hosts ->
  Forall (fun x => hasByte nl x = false) (extractHostnames hosts).
Proof.
  intros Hp. unfold extractHostnames, sortStrings.
  eapply Permutation_Forall; [symmetry; apply merge_sort_Permutation|].
  induction Hp as [|h hosts Hh _ IH]; simpl; [constructor|].
  destruct (String.eqb (Name h) ""); [exact IH | constructor; assumption].
Qed.

Lemma isHostChar_not_nl (c : ascii) : isHostChar c = true -> Ascii.eqb c nl = false.
Proof.
  destruct c as [[] [] [] [] [] [] [] []]; intros H; try reflexivity; discriminate H.
Qed.

Lemma hostPatternTail_plain (s : string) :
  hostPatternTail s = true -> hasByte nl s = false.
Proof.
  induction s as [|c s IH]; [reflexivity|]. simpl. intros H.
  destruct s as [|c' s'].
  - rewrite isHostChar_not_nl; [reflexivity|].
    unfold isHostChar. rewrite H. reflexivity.
  - apply andb_prop in H as [Hc Hs].
    rewrite (isHostChar_not_nl c Hc). exact (IH Hs).
Qed.

(** Host names that pass the pattern of [ValidateSnapshot] have no line
    break. *)
Lemma validated_names_plain (hosts : list Host) :
  Forall (fun h => hostPatternMatch (Name h) = true) hosts -> plainNames hosts.
Proof.
  intros Hall. unfold plainNames. eapply List.Forall_impl; [|exact Hall].
  intros h. cbv beta. destruct (Name h) as [|c s]; [reflexivity|].
  simpl. intros H. apply andb_prop in H as [Hc Hs].
  rewrite isHostChar_not_nl by (unfold isHostChar; rewrite Hc; reflexivity).
  apply hostPatternTail_plain. exact Hs.
Qed.

Lemma Split_buildBlock (names : list string) :
  names <> [] -> Forall (fun x => hasByte nl x = false) names ->
  Split nl (buildBlock names) = [blockStart; mappingLine names; blockEnd; ""].
Proof.
  intros Hne Hnames. destruct names as [|x l]; [congruence|].
  rewrite buildBlock_cons, !Split_app_sep.
  assert (hasByte nl (mappingLine (x :: l)) = false) as Hm.
  { unfold mappingLine. rewrite hasByte_app. rewrite Join_no_sep by (reflexivity || assumption).
    reflexivity. }
  rewrite (Split_no_sep nl blockStart), (Split_no_sep nl (mappingLine (x :: l))),
    (Split_no_sep nl blockEnd) by (reflexivity || assumption).
  reflexivity.
Qed.

Lemma blankTail_empty : blankTail "".
Proof. intros removed acc. exists removed. reflexivity. Qed.

Lemma blankTail_block (names : list string) :
  Forall (fun x => hasByte nl x = false) names -> blankTail (buildBlock names).
Proof.
  intros Hnames. destruct names as [|x l]; [apply blankTail_empty|].
  intros removed acc. exists true.
  rewrite Split_buildBlock by (assumption || discriminate).
  cbn [scanLines]. rewrite mappingLine_not_start.
  reflexivity.
Qed.

Lemma strip_unlines_tail (kept : list string) (t : string) :
  Forall (fun x => hasByte nl x = false) kept ->
  Forall (fun x => x <> blockStart) kept ->
  dropTrailingBlank kept = kept ->
  blankTail t ->
  fst (stripManagedBlock (unlines kept +:+ t)) = unlines kept /\
  blockIntact (unlines kept +:+ t) = true.
Proof.
  intros Hnl Hst Hdrop Ht.
  unfold stripManagedBlock, blockIntact.
  destruct kept as [|x l].
  - simpl unlines. rewrite sapp_nil_l.
    destruct (Ht false []) as [r ->]. simpl. auto.
  - rewrite Split_unlines_app by (assumption || discriminate).
    rewrite scan_app, scan_keeps by assumption. rewrite List.app_nil_l.
    destruct (Ht false (x :: l)) as [r ->].
    rewrite dropTrailingBlank_app_blank, Hdrop.
    split; [|reflexivity].
    pose proof (Join_dropTrailingBlank_nonempty (x :: l)) as HJ.
    rewrite Hdrop in HJ. apply String.eqb_neq in HJ; [|discriminate].
    rewrite HJ. reflexivity.
Qed.

Lemma finalContent_intact (content : string) (hosts : list Host) :
  blockIntact content = true ->
  finalContent content hosts =
  fst (stripManagedBlock content) +:+ buildBlock (extractHostnames hosts).
Proof.
  intros Hc. destruct (strip_intact content Hc) as (removed & out & _ & Hs).
  unfold finalContent. rewrite Hs. cbn [fst].
  set (kept := unlines (dropTrailingBlank out)).
  assert ((if negb (String.eqb kept "") && negb (HasSuffix kept newline)
           then kept +:+ newline else kept) = kept) as Hkept.
  { destruct (unlines_tail (dropTrailingBlank out)) as [H | H]; fold kept in H; rewrite H;
      [reflexivity | rewrite andb_false_r; reflexivity]. }
  assert (buildBlock (extractHostnames hosts) = ""
          \/ String.eqb (buildBlock (extractHostnames hosts)) "" = false
             /\ HasSuffix (kept +:+ buildBlock (extractHostnames hosts)) newline = true)
    as Hblock.
  { destruct (extractHostnames hosts) as [|n names]; [left; reflexivity|].
    right. split; [reflexivity|].
    unfold buildBlock. rewrite <- !sapp_assoc. apply HasSuffix_app. }
  destruct Hblock as [-> | [Hb1 Hb2]].
  - rewrite (sapp_nil_r kept). cbn [String.eqb negb]. exact Hkept.
  - rewrite Hb1. cbn [negb]. rewrite Hkept, Hb2, andb_false_r. reflexivity.
Qed.

(** Applying again to what [Apply] wrote: the old block is found and
    replaced, the lines kept before are kept again. *)
Lemma finalContent_again (content : string) (hosts hosts' : list Host) :
  blockIntact content = true ->
  plainNames hosts ->
  blockIntact (finalContent content hosts) = true /\
  finalContent (finalContent content hosts) hosts' =
  fst (stripManagedBlock content) +:+ buildBlock (extractHostnames hosts').
Proof.
  intros Hc Hp.
  rewrite (finalContent_intact content hosts Hc).
  destruct (strip_intact content Hc) as (removed & out & Hscan & Hs).
  rewrite Hs. cbn [fst].
  destruct (kept_lines _ _ _ _ Hscan) as [Hnl Hst].
  destruct (strip_unlines_tail (dropTrailingBlank out)
              (buildBlock (extractHostnames hosts)) Hnl Hst
              (dropTrailingBlank_idem out)
              (blankTail_block _ (extractHostnames_plain hosts Hp))) as [Hfst Hint].
  split; [exact Hint|].
  rewrite (finalContent_intact _ hosts' Hint), Hfst. reflexivity.
Qed.

End BlockFacts.

(** * Facts about the file system *)

Section WorldFacts.

Lemma bind_eq {A B} (m : M A) (k : A -> M B) (w w' : World) (a : A) :
  m w = (a, w') -> bind m k w = k a w'.
Proof. unfold bind. intros ->. reflexivity. Qed.

Lemma healthy_log (e : event) (w : World) : healthy w -> healthy (FS.log e w).
Proof. intros H n o p. apply H. Qed.

Lemma healthy_setFiles (fs : gmap string string) (w : World) :
  healthy w -> healthy (FS.setFiles fs w).
Proof. intros H n o p. apply H. Qed.

Lemma healthy_tick (w : World) :
  healthy w -> healthy (mkWorld (files w) (trace w) (S (clock w)) (fault w)).
Proof. intros H n o p. apply H. Qed.

Lemma healthy_fault (w w' : World) : fault w' = fault w -> healthy w -> healthy w'.
Proof. intros E H n o p. rewrite E. apply H. Qed.

Lemma ReadFile_healthy (p : string) (w : World) :
  healthy w ->
  FS.ReadFile p w =
  (match files w !! p with
   | Some data => (data, None)
   | None => ("", Some ErrNotExist)
   end, FS.log (EvReadFile p) w).
Proof.
  intros H. unfold FS.ReadFile, FS.faultOf. rewrite H.
  destruct (files w !! p); reflexivity.
Qed.

Lemma WriteFile_healthy (p data : string) (w : World) :
  healthy w ->
  FS.WriteFile p data w =
  (None, FS.setFiles (<[p := data]> (files w)) (FS.log (EvWriteFile p data) w)).
Proof. intros H. unfold FS.WriteFile, FS.faultOf. rewrite H. reflexivity. Qed.

Lemma MkdirAll_healthy (p : string) (w : World) :
  healthy w -> FS.MkdirAll p w = (None, FS.log (EvMkdirAll p) w).
Proof. intros H. unfold FS.MkdirAll, FS.faultOf. rewrite H. reflexivity. Qed.

Lemma Rename_healthy (p q data : string) (w : World) :
  healthy w -> files w !! p = Some data ->
  FS.Rename p q w =
  (None, FS.setFiles (<[q := data]> (delete p (files w))) (FS.log (EvRename p q) w)).
Proof. intros H E. unfold FS.Rename, FS.faultOf. rewrite H, E. reflexivity. Qed.

Lemma Remove_healthy (p : string) (w : World) :
  healthy w ->
  FS.Remove p w =
  (match files w !! p with Some _ => None | None => Some ErrNotExist end,
   FS.setFiles (delete p (files w)) (FS.log (EvRemove p) w)).
Proof.
  intros H. unfold FS.Remove, FS.faultOf. rewrite H.
  destruct (files w !! p) eqn:E; [reflexivity|].
  rewrite delete_id by exact E. destruct w; reflexivity.
Qed.

(** The derived names differ from the path itself and from each other. *)
Lemma tempPathOf_neq (env : Env) (p : string) (t : nat) : tempPathOf env p t <> p.
Proof. apply sapp_neq_self. discriminate. Qed.

Lemma backupPathOf_neq (env : Env) (p : string) (t : nat) : backupPathOf env p t <> p.
Proof. apply sapp_neq_self. discriminate. Qed.

Lemma temp_neq_backup (env : Env) (p : string) (t t' : nat) :
  tempPathOf env p t <> backupPathOf env p t'.
Proof.
  unfold tempPathOf, backupPathOf. intros H.
  apply (inj (String.app p)) in H. discriminate.
Qed.

Lemma tempPathOf_prefix (env : Env) (p : string) (t : nat) :
  String.prefix p (tempPathOf env p t) = true.
Proof. apply prefix_app. Qed.

Lemma backupPathOf_prefix (env : Env) (p : string) (t : nat) :
  String.prefix p (backupPathOf env p t) = true.
Proof. apply prefix_app. Qed.

Lemma sprefix_refl (p : string) : String.prefix p p = true.
Proof. rewrite <- (sapp_nil_r p) at 2. apply prefix_app. Qed.

Lemma not_prefix_cases (env : Env) (p q : string) :
  String.prefix p q = false ->
  q <> p /\ (forall t, q <> tempPathOf env p t) /\ (forall t, q <> backupPathOf env p t).
Proof.
  intros H. split; [|split].
  - intros ->. rewrite sprefix_refl in H. discriminate.
  - intros t ->. rewrite tempPathOf_prefix in H. discriminate.
  - intros t ->. rewrite backupPathOf_prefix in H. discriminate.
Qed.

End WorldFacts.

Create HintDb healthy.
#[local] Hint Resolve healthy_log healthy_setFiles healthy_tick : healthy.

(** * What the two resource managers do on a healthy file system *)

Section ManagerFacts.
Context (env : Env).

Ltac run_op :=
  erewrite bind_eq
    by (first [ apply ReadFile_healthy | apply WriteFile_healthy
              | apply MkdirAll_healthy | apply Remove_healthy
              | reflexivity ];
        auto 10 with healthy);
  cbv beta iota.

Lemma replaceFile_healthy (rp original final backupPath : string) (w : World) :
  healthy w ->
  exists w',
    hostsfile.replaceFile env rp original final backupPath w
    = (Ok (hostsfile.mkApplyResult true backupPath rp), w')
    /\ fault w' = fault w
    /\ files w' !! rp = Some final
    /\ (forall q, q <> rp -> q <> tempPathOf env rp (clock w) ->
                  files w' !! q = files w !! q).
Proof.
  intros H. unfold hostsfile.replaceFile.
  run_op. run_op. run_op.
  erewrite bind_eq.
  2:{ eapply Rename_healthy; [auto 10 with healthy|]. cbn. apply lookup_insert_eq. }
  cbv beta iota. unfold ret.
  eexists. split; [reflexivity|]. cbn.
  split; [reflexivity|]. split; [apply lookup_insert_eq|].
  intros q Hq Ht. rewrite lookup_insert_ne by congruence.
  rewrite lookup_delete_ne by (intros E; apply Ht; symmetry; exact E).
  rewrite lookup_insert_ne by (intros E; apply Ht; symmetry; exact E).
  reflexivity.
Qed.

(** [Apply] on a healthy file system: nothing but a read when the file
    already has the content wanted; otherwise the file gets it, the old
    bytes go to the backup, and no path outside the names derived from
    the resolved path changes. *)
Lemma Apply_healthy (path rp : string) (hosts : list Host) (w : World) :
  healthy w -> ExpandUser env path = Ok rp ->
  let original := default "" (files w !! rp) in
  let final := hostsfile.finalContent original hosts in
  if String.eqb original final
  then hostsfile.Apply env path hosts w
       = (Ok (hostsfile.mkApplyResult false "" ""), FS.log (EvReadFile rp) w)
  else exists w',
      hostsfile.Apply env path hosts w
      = (Ok (hostsfile.mkApplyResult true
               (match files w !! rp with
                | Some _ => backupPathOf env rp (clock w)
                | None => ""
                end) rp), w')
      /\ fault w' = fault w
      /\ files w' !! rp = Some final
      /\ (forall q, String.prefix rp q = false -> files w' !! q = files w !! q)
      /\ (forall o, files w !! rp = Some o ->
                    files w' !! backupPathOf env rp (clock w) = Some o).
Proof.
  intros H HE original final. unfold hostsfile.Apply. rewrite HE.
  run_op. subst original final.
  destruct (files w !! rp) as [o|] eqn:Hrp; cbn [default isNotExist negb];
    unfold hostsfile.applyContent;
    destruct (String.eqb _ (hostsfile.finalContent _ hosts)) eqn:Hsame;
    try reflexivity.
  - unfold hostsfile.takeBackup. cbn [isNotExist negb].
    erewrite bind_eq.
    2:{ run_op. run_op. reflexivity. }
    cbv beta iota.
    edestruct (replaceFile_healthy rp o (hostsfile.finalContent o hosts)
                 (backupPathOf env rp (clock w))) as (w' & Hrun & Hf & Hfinal & Hframe);
      [|rewrite Hrun; exists w'; split; [reflexivity|]; split; [exact Hf|];
        split; [exact Hfinal|]; split].
    + auto 10 with healthy.
    + intros q Hq. destruct (not_prefix_cases env rp q Hq) as (Hq1 & Hq2 & Hq3).
      rewrite Hframe by auto. cbn. rewrite lookup_insert_ne by (intros E; apply (Hq3 (clock w)); symmetry; exact E).
      reflexivity.
    + intros o' [= <-]. rewrite Hframe.
      * cbn. apply lookup_insert_eq.
      * apply backupPathOf_neq.
      * intros E. symmetry in E. apply temp_neq_backup in E. exact E.
  - unfold hostsfile.takeBackup. cbn [isNotExist negb].
    erewrite bind_eq by reflexivity. cbv beta iota.
    edestruct (replaceFile_healthy rp "" (hostsfile.finalContent "" hosts) "")
      as (w' & Hrun & Hf & Hfinal & Hframe);
      [|rewrite Hrun; exists w'; split; [reflexivity|]; split; [exact Hf|];
        split; [exact Hfinal|]; split].
    + auto 10 with healthy.
    + intros q Hq. destruct (not_prefix_cases env rp q Hq) as (Hq1 & Hq2 & Hq3).
      rewrite Hframe by auto. reflexivity.
    + intros o' [=].
Qed.

Lemma UpdateInclude_healthy (path rp content : string) (w : World) :
  healthy w -> ExpandUser env path = Ok rp ->
  if match files w !! rp with
     | Some previous => String.eqb previous content
     | None => false
     end
  then caddy.UpdateInclude env path content w
       = (Ok (caddy.mkUpdateResult false rp content true), FS.log (EvReadFile rp) w)
  else exists w',
      caddy.UpdateInclude env path content w
      = (Ok (caddy.mkUpdateResult true rp (default "" (files w !! rp))
               (match files w !! rp with Some _ => true | None => false end)), w')
      /\ fault w' = fault w
      /\ files w' !! rp = Some content
      /\ (forall q, q <> rp -> q <> tempPathOf env rp (clock w) ->
                    files w' !! q = files w !! q).
Proof.
  intros H HE. unfold caddy.UpdateInclude. rewrite HE. run_op.
  assert (forall previous existed,
    (existed && String.eqb previous content) = false ->
    exists w',
      caddy.updateContent env rp content previous existed (FS.log (EvReadFile rp) w)
      = (Ok (caddy.mkUpdateResult true rp previous existed), w')
      /\ fault w' = fault w
      /\ files w' !! rp = Some content
      /\ (forall q, q <> rp -> q <> tempPathOf env rp (clock w) ->
                    files w' !! q = files w !! q)) as Hwrite.
  { intros previous existed Hne. unfold caddy.updateContent. rewrite Hne.
    run_op. run_op. run_op.
    erewrite bind_eq.
    2:{ eapply Rename_healthy; [auto 10 with healthy|]. cbn. apply lookup_insert_eq. }
    cbv beta iota. unfold ret.
    eexists. split; [reflexivity|]. cbn.
    split; [reflexivity|]. split; [apply lookup_insert_eq|].
    intros q Hq Ht. rewrite lookup_insert_ne by congruence.
    rewrite lookup_delete_ne by (intros E; apply Ht; symmetry; exact E).
    rewrite lookup_insert_ne by (intros E; apply Ht; symmetry; exact E).
    reflexivity. }
  destruct (files w !! rp) as [previous|] eqn:Hrp; cbn [default isNotExist negb].
  - destruct (String.eqb previous content) eqn:Hsame.
    + apply String.eqb_eq in Hsame. subst previous.
      unfold caddy.updateContent. rewrite String.eqb_refl. reflexivity.
    + apply Hwrite. exact Hsame.
  - apply Hwrite. reflexivity.
Qed.

Lemma RestoreInclude_healthy (res : caddy.UpdateResult) (w : World) :
  healthy w -> caddy.Path res <> "" ->
  exists w',
    caddy.RestoreInclude res w = (None, w')
    /\ fault w' = fault w
    /\ files w' !! caddy.Path res
       = (if caddy.Existed res then Some (caddy.Previous res) else None)
    /\ (forall q, q <> caddy.Path res -> files w' !! q = files w !! q).
Proof.
  intros H Hp. apply String.eqb_neq in Hp.
  unfold caddy.RestoreInclude. rewrite Hp.
  destruct (caddy.Existed res); cbn [negb]; run_op.
  - eexists. split; [reflexivity|]. cbn. split; [reflexivity|].
    split; [apply lookup_insert_eq|].
    intros q Hq. apply lookup_insert_ne. congruence.
  - exists (FS.setFiles (delete (caddy.Path res) (files w))
              (FS.log (EvRemove (caddy.Path res)) w)).
    split; [destruct (files w !! caddy.Path res); reflexivity|].
    cbn. split; [reflexivity|]. split; [apply lookup_delete_eq|].
    intros q Hq. apply lookup_delete_ne. congruence.
Qed.

Lemma Restore_backup_healthy (res : hostsfile.ApplyResult) (o : string) (w : World) :
  healthy w ->
  hostsfile.Path res <> "" -> hostsfile.BackupPath res <> "" ->
  files w !! hostsfile.BackupPath res = Some o ->
  exists w',
    hostsfile.Restore env res w = (None, w')
    /\ fault w' = fault w
    /\ files w' !! hostsfile.Path res = Some o
    /\ (forall q, q <> hostsfile.Path res -> files w' !! q = files w !! q).
Proof.
  intros H Hp Hb Ho. apply String.eqb_neq in Hp, Hb.
  unfold hostsfile.Restore. rewrite Hp, Hb.
  run_op. rewrite Ho. run_op.
  eexists. split; [reflexivity|]. cbn. split; [reflexivity|].
  split; [apply lookup_insert_eq|].
  intros q Hq. apply lookup_insert_ne. congruence.
Qed.

(** The readiness check only reads. *)
Lemma EnsureBaseReady_reads (basePath includePath : string) (hosts : list Host)
    (w : World) :
  exists r t,
    caddy.EnsureBaseReady env basePath includePath hosts w
    = (r, mkWorld (files w) (trace w ++ t) (clock w) (fault w))
    /\ forallb isRead t = true.
Proof.
  unfold caddy.EnsureBaseReady.
  destruct (ExpandUser env basePath) as [rb|e].
  2:{ exists (Some e), []. rewrite List.app_nil_r. destruct w. split; reflexivity. }
  unfold bind, FS.ReadFile, FS.log, ret.
  destruct (FS.faultOf OpReadFile rb w);
    [exists (Some (WrapPermission "read" rb (oserr_of f))), [EvReadFile rb];
     split; reflexivity|].
  destruct (files w !! rb) as [data|];
    [|exists (Some (WrapPermission "read" rb ErrNotExist)), [EvReadFile rb];
      split; reflexivity].
  destruct (caddy.ensureImportPresent env data includePath);
    [eexists _, [EvReadFile rb]; split; reflexivity|].
  destruct (caddy.usesTildeImport env data includePath);
    [eexists _, [EvReadFile rb]; split; reflexivity|].
  destruct (0 <? length (caddy.detectConflicts data hosts))%nat;
    eexists _, [EvReadFile rb]; split; reflexivity.
Qed.

End ManagerFacts.

(** * The include renderer *)

(** C7: for the hosts [user] (upstream http://localhost:8000, TLS on) and
    [staff] (upstream http://127.0.0.1:9000, TLS off), [GenerateInclude]
    returns the block of [user], one blank line, the block of [staff] and
    one final line break; the block of [user] has the [tls internal]
    directive and forwards to http://localhost:8000; the output ends with
    exactly one line break.  For no hosts it returns the empty string. *)
Theorem C7_generate_include_scenario :
  let out := caddy.GenerateInclude [Example.user; Example.staff] in
  out = caddy.renderBlock Example.user +:+ caddy.newline +:+ caddy.newline
          +:+ caddy.renderBlock Example.staff +:+ caddy.newline
  /\ Split nl (caddy.renderBlock Example.user)
     = ["user {"; "  tls internal"; ""; "  reverse_proxy http://localhost:8000"; "}"]
  /\ Split nl (caddy.renderBlock Example.staff)
     = ["staff {"; "  reverse_proxy http://127.0.0.1:9000"; "}"]
  /\ Split nl out
     = ["user {"; "  tls internal"; ""; "  reverse_proxy http://localhost:8000"; "}";
        "";
        "staff {"; "  reverse_proxy http://127.0.0.1:9000"; "}"; ""]
  /\ HasSuffix out caddy.newline = true
  /\ HasSuffix out (caddy.newline +:+ caddy.newline) = false
  /\ caddy.GenerateInclude [] = "".
Proof. vm_compute. repeat split; reflexivity. Qed.

(** * The managed block *)

Lemma nonEmptyNames_filter (hosts : list Host) :
  hostsfile.nonEmptyNames hosts
  = List.filter (fun n => negb (String.eqb n "")) (map Name hosts).
Proof.
  induction hosts as [|h hosts IH]; [reflexivity|]. simpl.
  destruct (String.eqb (Name h) ""); simpl; rewrite IH; reflexivity.
Qed.

Lemma nonEmptyNames_unnamed (hosts : list Host) :
  (forall h, In h hosts -> Name h = "") -> hostsfile.nonEmptyNames hosts = [].
Proof.
  induction hosts as [|h hosts IH]; intros Hall; [reflexivity|]. simpl.
  rewrite (Hall h) by (left; reflexivity). simpl.
  apply IH. intros h' Hh'. apply Hall. right. exact Hh'.
Qed.

Lemma finalContent_ends_with_block (original : string) (hosts : list Host) :
  exists pre,
    hostsfile.finalContent original hosts
    = pre +:+ hostsfile.buildBlock (hostsfile.extractHostnames hosts).
Proof.
  unfold hostsfile.finalContent.
  set (wb := fst (hostsfile.stripManagedBlock original)).
  destruct (hostsfile.extractHostnames hosts) as [|n names].
  - cbn [hostsfile.buildBlock String.eqb negb].
    eexists. rewrite sapp_nil_r. reflexivity.
  - set (block := hostsfile.buildBlock (n :: names)).
    assert (String.eqb block "" = false) as -> by reflexivity. cbn [negb].
    set (pre := if negb (String.eqb wb "") && negb (HasSuffix wb hostsfile.newline)
                then wb +:+ hostsfile.newline else wb).
    exists pre.
    assert (HasSuffix (pre +:+ block) hostsfile.newline = true) as ->.
    { unfold block, hostsfile.buildBlock. rewrite <- !sapp_assoc. apply HasSuffix_app. }
    rewrite andb_false_r. reflexivity.
Qed.




(** * The atomic write of the include file *)

(** C5 (amended): when the include file exists and already holds the
    content, [UpdateInclude] reports no change and does nothing but the
    read.  A file that does not exist is no error, yet it never counts as
    already holding the content: it is written, the empty content
    included, and the change is reported. *)
Theorem C5_update_include_idempotent (env : Env) (path rp content : string)
    (w : World) :
  ExpandUser env path = Ok rp ->
  FS.faultOf OpReadFile rp w = None ->
  (files w !! rp = Some content ->
   exists w',
     caddy.UpdateInclude env path content w
     = (Ok (caddy.mkUpdateResult false rp content true), w')
     /\ files w' = files w
     /\ trace w' = trace w ++ [EvReadFile rp])
  /\ (files w !! rp = None -> healthy w ->
      exists w',
        caddy.UpdateInclude env path content w
        = (Ok (caddy.mkUpdateResult true rp "" false), w')
        /\ files w' !! rp = Some content).
Proof.
  intros HE Hread. split.
  - intros Hrp. exists (FS.log (EvReadFile rp) w).
    split; [|split; reflexivity].
    unfold caddy.UpdateInclude, bind, FS.ReadFile. rewrite HE, Hread, Hrp.
    unfold caddy.updateContent. rewrite String.eqb_refl. reflexivity.
  - intros Hrp H.
    pose proof (UpdateInclude_healthy env path rp content w H HE) as Hu.
    rewrite Hrp in Hu. destruct Hu as (w' & Hrun & _ & Hfile & _).
    exists w'. split; [exact Hrun | exact Hfile].
Qed.

Lemma C5_update_include_idempotent_witness :
  exists w',
    caddy.UpdateInclude Example.env Example.incl "user {}"
      (Example.world [(Example.incl, "user {}")])
    = (Ok (caddy.mkUpdateResult false Example.incl "user {}" true), w')
    /\ files w' = files (Example.world [(Example.incl, "user {}")])
    /\ trace w' = [EvReadFile Example.incl].
Proof.
  apply (C5_update_include_idempotent Example.env Example.incl Example.incl "user {}"
           (Example.world [(Example.incl, "user {}")])); reflexivity.
Defined.

(** The include file is missing and the content to write is empty: the
    current bytes, read as empty, equal the content, and still the file
    is created and the change reported. *)
Lemma C5_missing_file_is_written :
  let '(r, w') :=
    caddy.UpdateInclude Example.env Example.incl "" (Example.world []) in
  r = Ok (caddy.mkUpdateResult true Example.incl "" false)
  /\ files w' !! Example.incl = Some ""
  /\ trace w'
     = [EvReadFile Example.incl;
        EvMkdirAll "/";
        EvWriteFile (tempPathOf Example.env Example.incl 0) "";
        EvRename (tempPathOf Example.env Example.incl 0) Example.incl].
Proof. vm_compute. repeat split; reflexivity. Qed.

(** * Damaged hosts files *)

(** C3: on a hosts file with an unterminated managed block, and on one
    with a nested start marker, [stripManagedBlock] gives the content back
    untouched, but [Apply] goes on and appends a fresh block: the file is
    rewritten. *)
Theorem C3_damaged_file_is_rewritten :
  hostsfile.stripManagedBlock Example.unterminated = (Example.unterminated, false)
  /\ hostsfile.stripManagedBlock Example.nested = (Example.nested, false)
  /\ (let '(r, w') :=
        hostsfile.Apply Example.env Example.etcHosts [Example.user]
          (Example.world [(Example.etcHosts, Example.unterminated)]) in
      r = Ok (hostsfile.mkApplyResult true
                (backupPathOf Example.env Example.etcHosts 0) Example.etcHosts)
      /\ files w' !! Example.etcHosts
         = Some (Example.unterminated +:+ Example.userBlock))
  /\ (let '(r, w') :=
        hostsfile.Apply Example.env Example.etcHosts [Example.user]
          (Example.world [(Example.etcHosts, Example.nested)]) in
      r = Ok (hostsfile.mkApplyResult true
                (backupPathOf Example.env Example.etcHosts 0) Example.etcHosts)
      /\ files w' !! Example.etcHosts
         = Some (Example.nested +:+ Example.userBlock)).
Proof. vm_compute. repeat split; reflexivity. Qed.




(** * The readiness check *)

Lemma dedupFrom_In (l : list string) : forall prev x,
  In x l -> x <> prev -> In x (caddy.dedupFrom prev l).
Proof.
  induction l as [|v rest IH]; intros prev x Hin Hne; [destruct Hin|].
  simpl. destruct (String.eqb v prev) eqn:Hv; simpl.
  - apply String.eqb_eq in Hv. subst v.
    destruct Hin as [->|Hin]; [congruence | apply IH; assumption].
  - destruct Hin as [->|Hin]; [left; reflexivity|].
    destruct (string_dec x v) as [->|Hxv]; [left; reflexivity|].
    right. apply IH; assumption.
Qed.

Lemma unique_In (l : list string) (x : string) :
  In x l -> x <> "" -> In x (caddy.unique l).
Proof.
  intros Hin Hne. destruct l as [|y l]; [destruct Hin|].
  unfold caddy.unique. apply dedupFrom_In; [|exact Hne].
  apply list_elem_of_In. unfold sortStrings.
  rewrite (merge_sort_Permutation String.le (y :: l)).
  apply list_elem_of_In. exact Hin.
Qed.

Lemma isHeaderFor_definesSite (line name rest : string) :
  TrimSpace line = name +:+ " " +:+ rest \/ TrimSpace line = name +:+ "{" +:+ rest ->
  caddy.isHeaderFor (TrimSpace line) name = true.
Proof.
  unfold caddy.isHeaderFor, HasPrefix.
  intros [-> | ->]; rewrite <- sapp_assoc, prefix_app, ?orb_true_r; reflexivity.
Qed.

Lemma detectConflicts_definesSite (content : string) (hosts : list Host) (h : Host) :
  In h hosts -> Name h <> "" -> definesSite content (Name h) ->
  In (Name h) (caddy.detectConflicts content hosts).
Proof.
  intros Hin Hname (line & rest & Hline & Hhead).
  unfold caddy.detectConflicts. destruct hosts as [|h0 hosts0]; [destruct Hin|].
  apply unique_In; [|exact Hname].
  apply List.in_flat_map. exists line. split; [exact Hline|].
  apply List.filter_In. split; [|eapply isHeaderFor_definesSite; exact Hhead].
  apply list_elem_of_In, elem_of_elements. unfold caddy.lookupOf.
  apply elem_of_list_to_set, list_elem_of_In.
  rewrite nonEmptyNames_filter. apply List.filter_In. split.
  - apply List.in_map. exact Hin.
  - apply String.eqb_neq in Hname. rewrite Hname. reflexivity.
Qed.



(** * Invariants of the operations *)

Section Invariants.

Lemma preserves_ret {A} (P : World -> Prop) (a : A) : preserves P (ret a).
Proof. intros w H. exact H. Qed.

Lemma preserves_bind {A B} (P : World -> Prop) (m : M A) (k : A -> M B) :
  preserves P m -> (forall a, preserves P (k a)) -> preserves P (bind m k).
Proof.
  intros Hm Hk w H. unfold bind. specialize (Hm w H).
  destruct (m w) as [a w']. apply Hk. exact Hm.
Qed.

Lemma present_Now (rp : string) : preserves (present rp) Now.
Proof. intros w H. exact H. Qed.

Lemma present_ReadFile (rp p : string) : preserves (present rp) (FS.ReadFile p).
Proof.
  intros w H. unfold FS.ReadFile.
  destruct (FS.faultOf _ _ _); [exact H|]. destruct (files w !! p); exact H.
Qed.

Lemma present_MkdirAll (rp p : string) : preserves (present rp) (FS.MkdirAll p).
Proof. intros w H. unfold FS.MkdirAll. destruct (FS.faultOf _ _ _); exact H. Qed.

Lemma present_WriteFile (rp p data : string) :
  preserves (present rp) (FS.WriteFile p data).
Proof.
  intros w H. unfold FS.WriteFile. destruct (FS.faultOf _ _ _); [exact H|].
  unfold present. cbn. destruct (decide (p = rp)) as [->|Hne].
  - rewrite lookup_insert_eq. eauto.
  - rewrite lookup_insert_ne by exact Hne. exact H.
Qed.

Lemma present_Remove (rp p : string) :
  p <> rp -> preserves (present rp) (FS.Remove p).
Proof.
  intros Hne w H. unfold FS.Remove. destruct (FS.faultOf _ _ _); [exact H|].
  destruct (files w !! p); [|exact H].
  unfold present. cbn. rewrite lookup_delete_ne by exact Hne. exact H.
Qed.

Lemma present_Rename (rp p q : string) :
  p <> rp -> preserves (present rp) (FS.Rename p q).
Proof.
  intros Hne w H. unfold FS.Rename. destruct (FS.faultOf _ _ _); [exact H|].
  destruct (files w !! p); [|exact H].
  unfold present. cbn. destruct (decide (q = rp)) as [->|Hq].
  - rewrite lookup_insert_eq. eauto.
  - rewrite lookup_insert_ne, lookup_delete_ne by assumption. exact H.
Qed.

Lemma extends_refl (w : World) : extends w w.
Proof. exists []. rewrite List.app_nil_r. reflexivity. Qed.

Lemma extends_log (w0 w : World) (e : event) : extends w0 w -> extends w0 (FS.log e w).
Proof. intros [t Ht]. exists (t ++ [e]). cbn. rewrite Ht, List.app_assoc. reflexivity. Qed.

Lemma extends_Now (w0 : World) : preserves (extends w0) Now.
Proof. intros w H. exact H. Qed.

Lemma extends_ReadFile (w0 : World) (p : string) :
  preserves (extends w0) (FS.ReadFile p).
Proof.
  intros w H. unfold FS.ReadFile.
  destruct (FS.faultOf _ _ _); [|destruct (files w !! p)]; apply extends_log, H.
Qed.

Lemma extends_MkdirAll (w0 : World) (p : string) :
  preserves (extends w0) (FS.MkdirAll p).
Proof.
  intros w H. unfold FS.MkdirAll. destruct (FS.faultOf _ _ _); apply extends_log, H.
Qed.

Lemma extends_WriteFile (w0 : World) (p data : string) :
  preserves (extends w0) (FS.WriteFile p data).
Proof.
  intros w H. unfold FS.WriteFile.
  destruct (FS.faultOf _ _ _); apply (extends_log w0 w), H.
Qed.

Lemma extends_Remove (w0 : World) (p : string) :
  preserves (extends w0) (FS.Remove p).
Proof.
  intros w H. unfold FS.Remove.
  destruct (FS.faultOf _ _ _); [|destruct (files w !! p)];
    apply (extends_log w0 w), H.
Qed.

Lemma extends_Rename (w0 : World) (p q : string) :
  preserves (extends w0) (FS.Rename p q).
Proof.
  intros w H. unfold FS.Rename.
  destruct (FS.faultOf _ _ _); [|destruct (files w !! p)];
    apply (extends_log w0 w), H.
Qed.

End Invariants.

Create HintDb invariant.
#[local] Hint Resolve present_Now present_ReadFile present_MkdirAll present_WriteFile
  present_Remove present_Rename extends_Now extends_ReadFile extends_MkdirAll
  extends_WriteFile extends_Remove extends_Rename tempPathOf_neq : invariant.

(** Walk through a function of the sources, operation by operation. *)
Ltac preserve :=
  repeat first
    [ apply preserves_ret
    | apply preserves_bind; [ | intros ? ]
    | match goal with
      | |- preserves _ (match ?x with _ => _ end) => destruct x
      end
    | solve [ auto with invariant ] ].

(** * Rolling back the hosts file without a backup *)

(** Whatever fails, [Apply] never leaves the hosts file missing when it
    was there: it removes and renames only its temporary file. *)
Lemma Apply_keeps_file (env : Env) (path rp : string) (hosts : list Host) :
  ExpandUser env path = Ok rp ->
  preserves (present rp) (hostsfile.Apply env path hosts).
Proof.
  intros HE.
  assert (forall t, rp +:+ ".devhosts.tmp-" +:+ formatUnixNano env t <> rp) as Htemp
    by (intros t; apply (tempPathOf_neq env rp t)).
  unfold hostsfile.Apply. rewrite HE.
  unfold hostsfile.applyContent, hostsfile.takeBackup, hostsfile.replaceFile.
  preserve.
Qed.

Lemma Apply_extends (env : Env) (path : string) (hosts : list Host) (w0 : World) :
  preserves (extends w0) (hostsfile.Apply env path hosts).
Proof.
  unfold hostsfile.Apply, hostsfile.applyContent, hostsfile.takeBackup,
    hostsfile.replaceFile.
  preserve.
Qed.

Lemma Restore_extends (env : Env) (res : hostsfile.ApplyResult) (w0 : World) :
  preserves (extends w0) (hostsfile.Restore env res).
Proof.
  unfold hostsfile.Restore.
  preserve. apply Apply_extends.
Qed.

Ltac case_result H :=
  repeat match type of H with
         | context [match ?x with _ => _ end] => destruct x eqn:?; try discriminate H
         end.

Lemma replaceFile_result (env : Env) (rp original final backupPath : string)
    (w w' : World) (res : hostsfile.ApplyResult) :
  hostsfile.replaceFile env rp original final backupPath w = (Ok res, w') ->
  res = hostsfile.mkApplyResult true backupPath rp.
Proof.
  unfold hostsfile.replaceFile, bind, ret. intros H.
  case_result H. injection H as <- _. reflexivity.
Qed.

(** A successful [Apply] that changed the file has an empty backup path
    exactly when the file did not exist. *)
Lemma Apply_backup_iff (env : Env) (path : string) (hosts : list Host)
    (w w' : World) (res : hostsfile.ApplyResult) :
  hostsfile.Apply env path hosts w = (Ok res, w') ->
  hostsfile.Path res <> "" ->
  ExpandUser env path = Ok (hostsfile.Path res)
  /\ (hostsfile.BackupPath res = "" <-> files w !! hostsfile.Path res = None).
Proof.
  unfold hostsfile.Apply. destruct (ExpandUser env path) as [rp|]; [|discriminate].
  unfold bind at 1. unfold FS.ReadFile.
  destruct (FS.faultOf OpReadFile rp w) as [f|].
  { destruct f; discriminate. }
  destruct (files w !! rp) as [data|] eqn:Hrp; cbn [isNotExist negb];
    unfold hostsfile.applyContent;
    (destruct (String.eqb _ (hostsfile.finalContent _ hosts));
     [intros [= <- _] Hp; destruct Hp; reflexivity|]).
  - unfold hostsfile.takeBackup. cbn [isNotExist negb].
    unfold bind, ret, Now. destruct (FS.WriteFile _ _ _) as [[e|] w1]; [discriminate|].
    intros H Hp. apply replaceFile_result in H. subst res. cbn in *.
    split; [reflexivity|]. rewrite Hrp. split; [|discriminate].
    intros E. apply sapp_eq_nil in E as [_ E]. discriminate.
  - unfold hostsfile.takeBackup. cbn [isNotExist negb]. unfold bind at 1, ret.
    intros H Hp. apply replaceFile_result in H. subst res. cbn in *.
    split; [reflexivity|]. rewrite Hrp. split; reflexivity.
Qed.



(** The hosts file is created by an apply and rolled back: it is left
    empty, not removed. *)
Example Restore_leaves_empty_file :
  let w0 := Example.world [] in
  let '(r, w1) := hostsfile.Apply Example.env Example.etcHosts [Example.user] w0 in
  r = Ok (hostsfile.mkApplyResult true "" Example.etcHosts)
  /\ files w1 !! Example.etcHosts = Some Example.userBlock
  /\ files (snd (hostsfile.Restore Example.env
                   (hostsfile.mkApplyResult true "" Example.etcHosts) w1))
       !! Example.etcHosts = Some "".
Proof. vm_compute. repeat split; reflexivity. Qed.

(** * The order of the rollback *)

Lemma RestoreInclude_trace (res : caddy.UpdateResult) (w : World) :
  caddy.Path res <> "" ->
  trace (snd (caddy.RestoreInclude res w)) = trace w ++ [includeRollback res].
Proof.
  intros Hp. apply String.eqb_neq in Hp.
  unfold caddy.RestoreInclude, includeRollback. rewrite Hp.
  destruct (caddy.Existed res); cbn [negb]; unfold bind, ret.
  - unfold FS.WriteFile. destruct (FS.faultOf _ _ _); reflexivity.
  - unfold FS.Remove. destruct (FS.faultOf _ _ _) as [[]|]; [reflexivity..|].
    destruct (files w !! caddy.Path res); reflexivity.
Qed.

(** C2 (amended): when the reload fails after the include file and the
    hosts file were written, [applyState] first rolls back the include
    file, then the hosts file, and returns the reload failure with the
    diagnostics taken from the error stream, or from the standard output
    when the error stream is blank.  The first operation after the failed
    reload is the one that puts the include file back; the operations of
    the hosts file rollback follow it. *)
Theorem C2_rollback_order (a : cli.App) (s : Snapshot) (w w0 w1 w2 w3 : World)
    (includeRes : caddy.UpdateResult) (hostsRes : hostsfile.ApplyResult)
    (out : RunResult) (e : error) :
  caddy.EnsureBaseReady (cli.appEnv a) (BaseCaddyfile s) (IncludeCaddyfile s)
    (Hosts s) w = (None, w0) ->
  caddy.UpdateInclude (cli.appEnv a) (IncludeCaddyfile s)
    (caddy.GenerateInclude (Hosts s)) w0 = (Ok includeRes, w1) ->
  hostsfile.Apply (cli.appEnv a) (cli.HostsPath a) (Hosts s) w1 = (Ok hostsRes, w2) ->
  caddy.Reload (cli.appEnv a) (cli.appRunner a) (BaseCaddyfile s) w2
  = ((out, Some e), w3) ->
  let w4 := snd (caddy.RestoreInclude includeRes w3) in
  let w5 := snd (hostsfile.Restore (cli.appEnv a) hostsRes w4) in
  cli.applyState a s w = (Err (ErrReload e (reloadDetails out)), w5)
  /\ (caddy.Path includeRes <> "" -> trace w4 = trace w3 ++ [includeRollback includeRes])
  /\ (exists hostsRollback, trace w5 = trace w4 ++ hostsRollback).
Proof.
  intros Hready Hinclude Hhosts Hreload w4 w5.
  split; [|split].
  - unfold cli.applyState.
    erewrite bind_eq by exact Hready. cbv beta iota.
    erewrite bind_eq by exact Hinclude. cbv beta iota.
    erewrite bind_eq by exact Hhosts. cbv beta iota.
    erewrite bind_eq by exact Hreload. cbv beta iota.
    unfold bind, ret. subst w5 w4.
    destruct (caddy.RestoreInclude includeRes w3) as [r4 w4]. cbn [snd].
    destruct (hostsfile.Restore (cli.appEnv a) hostsRes w4) as [r5 w5].
    unfold reloadDetails. reflexivity.
  - intros Hp. apply RestoreInclude_trace. exact Hp.
  - apply (Restore_extends (cli.appEnv a) hostsRes w4 w4). apply extends_refl.
Qed.

Lemma C2_rollback_order_witness :
  exists w5,
    cli.applyState (Example.app Example.reloadFails) (Example.snapshot [Example.user])
      (Example.world [(Example.base, Example.baseContent);
                      (Example.etcHosts, "127.0.0.1 localhost")])
    = (Err (ErrReload
              (ErrRun "caddy" ["reload"; "--config"; Example.base; "--adapter"; "caddyfile"])
              "adapting config: unexpected token"), w5).
Proof.
  eexists.
  refine (proj1 (C2_rollback_order (Example.app Example.reloadFails)
                   (Example.snapshot [Example.user])
                   (Example.world [(Example.base, Example.baseContent);
                                   (Example.etcHosts, "127.0.0.1 localhost")])
                   _ _ _ _ _ _ (mkRunResult "" "adapting config: unexpected token")
                   _ _ _ _ _)).
  - vm_compute. reflexivity.
  - vm_compute. reflexivity.
  - vm_compute. reflexivity.
  - vm_compute. reflexivity.
Defined.

(** A failed reload after both files were written: the include file is
    put back (here removed, it did not exist) before the hosts file is. *)
Lemma C2_include_rolled_back_first :
  let '(r, w') :=
    cli.applyState (Example.app Example.reloadFails) (Example.snapshot [Example.user])
      (Example.world [(Example.base, Example.baseContent);
                      (Example.etcHosts, "127.0.0.1 localhost")]) in
  exists before,
    trace w'
    = before
      ++ [EvRun "caddy" ["reload"; "--config"; Example.base; "--adapter"; "caddyfile"];
          EvRemove Example.incl;
          EvReadFile (backupPathOf Example.env Example.etcHosts 1);
          EvWriteFile Example.etcHosts "127.0.0.1 localhost"].
Proof. vm_compute. eexists (_ :: _ :: _ :: _ :: _ :: _ :: _ :: _ :: _ :: _ :: nil). reflexivity. Qed.

(** * Atomicity under a failed reload *)

Lemma EnsureBaseReady_not_reload (env : Env) (basePath includePath : string)
    (hosts : list Host) (w w0 : World) (e0 : error) :
  caddy.EnsureBaseReady env basePath includePath hosts w = (Some e0, w0) ->
  forall e d, e0 <> ErrReload e d.
Proof.
  unfold caddy.EnsureBaseReady, ExpandUser, bind, ret, FS.ReadFile,
    caddy.ensureImportPresent, WrapPermission.
  intros H e d. case_result H; try (injection H as <- _; discriminate).
  injection H as <- _. case_result Heqr; injection Heqr as <-; discriminate.
Qed.

Lemma Reload_files (env : Env) (runner : Runner) (base : string) (w w' : World)
    (r : RunResult * option error) :
  caddy.Reload env runner base w = (r, w') ->
  files w' = files w /\ fault w' = fault w.
Proof.
  unfold caddy.Reload, Run, ret.
  destruct (ExpandUser env base); intros [= _ <-]; split; reflexivity.
Qed.

(** What [UpdateInclude] leaves for the rollback, on a healthy file
    system: the result records whether the file existed and its bytes. *)
Lemma UpdateInclude_rollback (env : Env) (path rp content : string) (w : World) :
  healthy w -> ExpandUser env path = Ok rp ->
  exists res w',
    caddy.UpdateInclude env path content w = (Ok res, w')
    /\ fault w' = fault w
    /\ caddy.Path res = rp
    /\ files w !! rp
       = (if caddy.Existed res then Some (caddy.Previous res) else None)
    /\ files w' !! rp = Some content
    /\ (forall q, String.prefix rp q = false -> files w' !! q = files w !! q).
Proof.
  intros H HE. pose proof (UpdateInclude_healthy env path rp content w H HE) as Hu.
  destruct (files w !! rp) as [previous|] eqn:Hrp.
  - destruct (String.eqb previous content) eqn:Hsame.
    + apply String.eqb_eq in Hsame. subst previous.
      eexists _, _. split; [exact Hu|]. cbn. repeat split; auto.
    + destruct Hu as (w' & Hrun & Hf & Hfile & Hframe).
      eexists _, w'. split; [exact Hrun|]. cbn. repeat split; auto.
      intros q Hq. destruct (not_prefix_cases env rp q Hq) as (? & ? & ?).
      apply Hframe; auto.
  - destruct Hu as (w' & Hrun & Hf & Hfile & Hframe).
    eexists _, w'. split; [exact Hrun|]. cbn. repeat split; auto.
    intros q Hq. destruct (not_prefix_cases env rp q Hq) as (? & ? & ?).
    apply Hframe; auto.
Qed.

(** What [Apply] leaves for the rollback, on a healthy file system: no
    path when nothing changed; the backup of the old bytes when the file
    existed; no backup when it did not. *)
Lemma Apply_rollback (env : Env) (path rp : string) (hosts : list Host) (w : World) :
  healthy w -> ExpandUser env path = Ok rp ->
  exists res w',
    hostsfile.Apply env path hosts w = (Ok res, w')
    /\ fault w' = fault w
    /\ (forall q, String.prefix rp q = false -> files w' !! q = files w !! q)
    /\ ((hostsfile.Path res = "" /\ files w' !! rp = files w !! rp)
        \/ (hostsfile.Path res = rp
            /\ hostsfile.BackupPath res <> ""
            /\ String.prefix rp (hostsfile.BackupPath res) = true
            /\ hostsfile.BackupPath res <> rp
            /\ exists o, files w !! rp = Some o
                         /\ files w' !! hostsfile.BackupPath res = Some o)
        \/ (hostsfile.Path res = rp
            /\ hostsfile.BackupPath res = ""
            /\ files w !! rp = None
            /\ hostsfile.finalContent "" hosts <> ""
            /\ files w' !! rp = Some (hostsfile.finalContent "" hosts))).
Proof.
  intros H HE. pose proof (Apply_healthy env path rp hosts w H HE) as Ha.
  cbv zeta in Ha.
  destruct (String.eqb _ _) eqn:Hsame.
  - eexists _, _. split; [exact Ha|]. cbn. repeat split; auto.
  - destruct Ha as (w' & Hrun & Hf & Hfile & Hframe & Hbak).
    eexists _, w'. split; [exact Hrun|]. split; [exact Hf|]. split; [exact Hframe|].
    right. destruct (files w !! rp) as [o|] eqn:Hrp; cbn.
    + left. repeat split.
      * intros E. apply sapp_eq_nil in E as [_ E]. discriminate.
      * apply backupPathOf_prefix.
      * apply backupPathOf_neq.
      * exists o. split; [reflexivity | apply Hbak; reflexivity].
    + right. cbn [from_option id] in Hsame, Hfile. repeat split; auto.
      apply String.eqb_neq in Hsame. congruence.
Qed.

Lemma finalContent_empty (hosts : list Host) :
  hostsfile.finalContent "" hosts
  = hostsfile.buildBlock (hostsfile.extractHostnames hosts).
Proof. rewrite finalContent_intact by reflexivity. reflexivity. Qed.

(** C1 (amended): on a healthy file system, with the include path and the
    hosts path resolved to names of which neither starts with the other,
    an apply whose reload fails leaves the include file as it was before
    the apply (absent when it did not exist) and a hosts file that existed
    with the bytes it had.  A hosts file that did not exist is not
    removed again: when the apply created it, the rollback leaves it in
    place, empty. *)
Theorem C1_failed_reload_restores_files (a : cli.App) (s : Snapshot)
    (w w' : World) (e : error) (d ri rh : string) :
  healthy w ->
  ExpandUser (cli.appEnv a) (IncludeCaddyfile s) = Ok ri ->
  ExpandUser (cli.appEnv a) (cli.HostsPath a) = Ok rh ->
  ExpandUser (cli.appEnv a) rh = Ok rh ->
  String.prefix ri rh = false ->
  String.prefix rh ri = false ->
  cli.applyState a s w = (Err (ErrReload e d), w') ->
  files w' !! ri = files w !! ri
  /\ (forall c, files w !! rh = Some c -> files w' !! rh = Some c)
  /\ (files w !! rh = None -> plainNames (Hosts s) ->
      files w' !! rh
      = match hostsfile.extractHostnames (Hosts s) with
        | [] => None
        | _ :: _ => Some ""
        end).
Proof.
  intros H HEi HEh HEhh Hih Hhi Hrun.
  set (env := cli.appEnv a) in *.
  unfold cli.applyState in Hrun.
  (* validation *)
  destruct (EnsureBaseReady_reads env (BaseCaddyfile s) (IncludeCaddyfile s)
              (Hosts s) w) as (r0 & t0 & Hready & _).
  erewrite bind_eq in Hrun by exact Hready. cbv beta iota in Hrun.
  set (w0 := mkWorld (files w) (trace w ++ t0) (clock w) (fault w)) in *.
  assert (healthy w0) as H0 by (intros n o p; apply H).
  destruct r0 as [e0|].
  { injection Hrun as He0 _.
    destruct (EnsureBaseReady_not_reload _ _ _ _ _ _ _ Hready e d He0). }
  (* the include file *)
  destruct (UpdateInclude_rollback env (IncludeCaddyfile s) ri
              (caddy.GenerateInclude (Hosts s)) w0 H0 HEi)
    as (ires & w1 & Hinclude & Hf1 & Hpi & Hprev & _ & Hframe1).
  erewrite bind_eq in Hrun by exact Hinclude. cbv beta iota in Hrun.
  assert (healthy w1) as H1 by (apply (healthy_fault w0); assumption).
  (* the hosts file *)
  destruct (Apply_rollback env (cli.HostsPath a) rh (Hosts s) w1 H1 HEh)
    as (hres & w2 & Hhosts & Hf2 & Hframe2 & Hcases).
  erewrite bind_eq in Hrun by exact Hhosts. cbv beta iota in Hrun.
  assert (healthy w2) as H2 by (apply (healthy_fault w1); assumption).
  (* the reload *)
  destruct (caddy.Reload env (cli.appRunner a) (BaseCaddyfile s) w2)
    as [[out err] w3] eqn:Hreload.
  erewrite bind_eq in Hrun by exact Hreload. cbv beta iota in Hrun.
  destruct (Reload_files _ _ _ _ _ _ Hreload) as [Hfiles3 Hf3].
  assert (healthy w3) as H3 by (apply (healthy_fault w2); assumption).
  destruct err as [e'|]; [|discriminate].
  (* the two rollbacks *)
  assert (ri <> "") as Hri by (intros ->; destruct rh; discriminate).
  assert (rh <> "") as Hrh by (intros ->; destruct ri; discriminate).
  assert (ri <> rh) as Hne by (intros ->; rewrite sprefix_refl in Hih; discriminate).
  destruct (RestoreInclude_healthy ires w3 H3) as (w4 & Hri4 & Hf4 & Hfile4 & Hframe4);
    [rewrite Hpi; exact Hri|].
  rewrite Hpi in Hfile4, Hframe4.
  erewrite bind_eq in Hrun by exact Hri4. cbv beta iota in Hrun.
  assert (healthy w4) as H4 by (apply (healthy_fault w3); assumption).
  assert (files w1 !! rh = files w !! rh) as Hrh1 by (apply Hframe1; exact Hih).
  assert (files w4 !! ri = files w !! ri) as Hri_back.
  { rewrite Hfile4. symmetry. exact Hprev. }
  destruct Hcases as [[Hp Hsame] | [(Hp & Hb & Hbpre & Hbne & o & Ho & Hbak)
                                   | (Hp & Hb & Hnone & Hfin & Hfile2)]].
  - (* the hosts file was not changed *)
    assert (hostsfile.Restore env hres w4 = (None, w4)) as Hrest.
    { unfold hostsfile.Restore. rewrite Hp. reflexivity. }
    erewrite bind_eq in Hrun by exact Hrest. injection Hrun as _ _ <-.
    assert (files w4 !! rh = files w !! rh) as Hrh4.
    { rewrite Hframe4 by congruence. rewrite Hfiles3, Hsame. exact Hrh1. }
    split; [exact Hri_back|]. split.
    + intros c Hc. rewrite Hrh4. exact Hc.
    + intros Hnone Hplain. rewrite Hrh4, Hnone.
      pose proof (Apply_healthy env (cli.HostsPath a) rh (Hosts s) w1 H1 HEh) as Ha.
      rewrite Hrh1, Hnone in Ha. cbn [from_option id] in Ha.
      destruct (String.eqb "" (hostsfile.finalContent "" (Hosts s))) eqn:Heq.
      * apply String.eqb_eq in Heq. rewrite finalContent_empty in Heq.
        destruct (hostsfile.extractHostnames (Hosts s)); [reflexivity | discriminate].
      * destruct Ha as (w2' & Hrun2 & _). rewrite Hhosts in Hrun2.
        injection Hrun2 as -> _. cbn in Hp. congruence.
  - (* the hosts file existed: back from the backup *)
    assert (hostsfile.BackupPath hres <> ri) as Hbri.
    { intros E. rewrite E in Hbpre.
      rewrite Hhi in Hbpre. discriminate. }
    destruct (Restore_backup_healthy env hres o w4 H4) as (w5 & Hrest & _ & Hfile5 & Hframe5).
    + rewrite Hp. exact Hrh.
    + exact Hb.
    + rewrite Hframe4 by exact Hbri. rewrite Hfiles3. exact Hbak.
    + erewrite bind_eq in Hrun by exact Hrest. injection Hrun as _ _ <-.
      rewrite Hp in Hfile5, Hframe5.
      split; [rewrite Hframe5 by exact Hne; exact Hri_back|]. split.
      * intros c Hc. rewrite Hfile5. rewrite <- Hrh1, Ho in Hc. exact Hc.
      * intros Hnone. rewrite <- Hrh1, Ho in Hnone. discriminate.
  - (* the hosts file did not exist: Apply with no hosts *)
    assert (files w4 !! rh = Some (hostsfile.finalContent "" (Hosts s))) as Hrh4.
    { rewrite Hframe4 by congruence. rewrite Hfiles3. exact Hfile2. }
    assert (exists w5, hostsfile.Restore env hres w4 = (None, w5)
                       /\ files w5 !! ri = files w4 !! ri
                       /\ (plainNames (Hosts s) -> files w5 !! rh = Some "")) as Hrest.
    { unfold hostsfile.Restore. rewrite Hp, Hb.
      apply String.eqb_neq in Hrh. rewrite Hrh. cbn [String.eqb].
      pose proof (Apply_healthy env rh rh [] w4 H4 HEhh) as Ha.
      rewrite Hrh4 in Ha. cbn [from_option id] in Ha.
      destruct (String.eqb (hostsfile.finalContent "" (Hosts s))
                  (hostsfile.finalContent (hostsfile.finalContent "" (Hosts s)) []))
        eqn:Hsame.
      - erewrite bind_eq by exact Ha. eexists. split; [reflexivity|].
        cbn. split; [reflexivity|].
        intros Hplain.
        destruct (finalContent_again "" (Hosts s) [] eq_refl Hplain) as [_ Hagain].
        apply String.eqb_eq in Hsame. rewrite Hagain in Hsame.
        change (fst (hostsfile.stripManagedBlock "")
                +:+ hostsfile.buildBlock (hostsfile.extractHostnames []))
          with "" in Hsame.
        congruence.
      - destruct Ha as (w5 & Hrun5 & _ & Hfile5 & Hframe5 & _).
        erewrite bind_eq by exact Hrun5. exists w5. split; [reflexivity|].
        split; [apply Hframe5; exact Hhi|].
        intros Hplain.
        destruct (finalContent_again "" (Hosts s) [] eq_refl Hplain) as [_ Hagain].
        rewrite Hfile5, Hagain. reflexivity. }
    destruct Hrest as (w5 & Hrest & Hri5 & Hrh5).
    erewrite bind_eq in Hrun by exact Hrest. injection Hrun as _ _ <-.
    split; [rewrite Hri5; exact Hri_back|]. split.
    + intros c Hc. rewrite <- Hrh1, Hnone in Hc. discriminate.
    + intros _ Hplain. rewrite (Hrh5 Hplain).
      rewrite finalContent_empty in Hfin.
      destruct (hostsfile.extractHostnames (Hosts s));
        [destruct Hfin; reflexivity | reflexivity].
Qed.

Lemma C1_failed_reload_restores_files_witness :
  let w := Example.world [(Example.base, Example.baseContent);
                          (Example.etcHosts, "127.0.0.1 localhost")] in
  let w' := snd (cli.applyState (Example.app Example.reloadFails)
                   (Example.snapshot [Example.user]) w) in
  files w' !! Example.incl = files w !! Example.incl
  /\ (forall c, files w !! Example.etcHosts = Some c ->
                files w' !! Example.etcHosts = Some c)
  /\ (files w !! Example.etcHosts = None -> plainNames [Example.user] ->
      files w' !! Example.etcHosts
      = match hostsfile.extractHostnames [Example.user] with
        | [] => None
        | _ :: _ => Some ""
        end).
Proof.
  intros w w'.
  apply (C1_failed_reload_restores_files (Example.app Example.reloadFails)
           (Example.snapshot [Example.user]) w w'
           (ErrRun "caddy" ["reload"; "--config"; Example.base; "--adapter"; "caddyfile"])
           "adapting config: unexpected token" Example.incl Example.etcHosts).
  - intros n o p. reflexivity.
  - reflexivity.
  - reflexivity.
  - reflexivity.
  - reflexivity.
  - reflexivity.
  - vm_compute. reflexivity.
Defined.

(** There is no hosts file; the apply creates it with the block, the
    reload fails, and the rollback leaves an empty hosts file behind. *)
Lemma C1_created_hosts_file_is_not_removed :
  let w := Example.world [(Example.base, Example.baseContent)] in
  let '(r, w') :=
    cli.applyState (Example.app Example.reloadFails)
      (Example.snapshot [Example.user]) w in
  r = Err (ErrReload
             (ErrRun "caddy" ["reload"; "--config"; Example.base; "--adapter"; "caddyfile"])
             "adapting config: unexpected token")
  /\ files w !! Example.etcHosts = None
  /\ files w' !! Example.etcHosts = Some ""
  /\ files w' !! Example.etcHosts <> files w !! Example.etcHosts.
Proof. vm_compute. repeat split; try reflexivity. discriminate. Qed.

(** * Applying twice *)

Lemma Reload_ok (env : Env) (runner : Runner) (base : string) (w w' : World)
    (out : RunResult) :
  caddy.Reload env runner base w = ((out, None), w') ->
  exists args, w' = FS.log (EvRun "caddy" args) w.
Proof.
  unfold caddy.Reload, Run, ret.
  destruct (ExpandUser env base); [|discriminate].
  intros [= _ <-]. eexists. reflexivity.
Qed.

Lemma isRead_quiet (t : list event) :
  forallb isRead t = true -> forallb (fun e => negb (mutates e)) t = true.
Proof.
  induction t as [|e t IH]; [reflexivity|]. simpl.
  intros H. apply andb_prop in H as [He Ht].
  rewrite (IH Ht). destruct e; try discriminate He. reflexivity.
Qed.

(** What the first apply leaves in the two files, when it succeeds on a
    healthy file system and the markers of the hosts file are intact:
    the include file holds the rendered content and the hosts file
    holds, if anything, a content that [Apply] maps to itself. *)
Lemma first_apply_settles (a : cli.App) (s : Snapshot) (w w1 : World)
    (o1 : cli.applyOutcome) (ri rh : string) :
  healthy w ->
  ExpandUser (cli.appEnv a) (IncludeCaddyfile s) = Ok ri ->
  ExpandUser (cli.appEnv a) (cli.HostsPath a) = Ok rh ->
  String.prefix ri rh = false ->
  String.prefix rh ri = false ->
  plainNames (Hosts s) ->
  (forall c, files w !! rh = Some c -> blockIntact c = true) ->
  cli.applyState a s w = (Ok o1, w1) ->
  healthy w1
  /\ files w1 !! ri = Some (caddy.GenerateInclude (Hosts s))
  /\ String.eqb (default "" (files w1 !! rh))
       (hostsfile.finalContent (default "" (files w1 !! rh)) (Hosts s)) = true.
Proof.
  intros H HEi HEh Hih Hhi Hplain Hintact Hrun.
  unfold cli.applyState in Hrun.
  destruct (EnsureBaseReady_reads (cli.appEnv a) (BaseCaddyfile s)
              (IncludeCaddyfile s) (Hosts s) w) as (r0 & t0 & Hready & _).
  erewrite bind_eq in Hrun by exact Hready. cbv beta iota in Hrun.
  set (w0 := mkWorld (files w) (trace w ++ t0) (clock w) (fault w)) in *.
  assert (healthy w0) as H0 by (intros n o p; apply H).
  destruct r0 as [e0|]; [discriminate|].
  destruct (UpdateInclude_rollback (cli.appEnv a) (IncludeCaddyfile s) ri
              (caddy.GenerateInclude (Hosts s)) w0 H0 HEi)
    as (ires & wa & Hinclude & Hfa & _ & _ & Hfile_a & Hframe_a).
  erewrite bind_eq in Hrun by exact Hinclude. cbv beta iota in Hrun.
  assert (healthy wa) as Ha by (apply (healthy_fault w0); assumption).
  assert (files wa !! rh = files w !! rh) as Hrh_a by (apply Hframe_a; exact Hih).
  assert (blockIntact (default "" (files w !! rh)) = true) as Horig.
  { destruct (files w !! rh) as [c|] eqn:Hc; [apply Hintact; reflexivity | reflexivity]. }
  pose proof (Apply_healthy (cli.appEnv a) (cli.HostsPath a) rh (Hosts s) wa Ha HEh) as Hap.
  cbv zeta in Hap. rewrite Hrh_a in Hap.
  set (orig := default "" (files w !! rh)) in *.
  assert (exists hres wb,
            hostsfile.Apply (cli.appEnv a) (cli.HostsPath a) (Hosts s) wa = (Ok hres, wb)
            /\ fault wb = fault wa
            /\ files wb !! ri = files wa !! ri
            /\ String.eqb (default "" (files wb !! rh))
                 (hostsfile.finalContent (default "" (files wb !! rh)) (Hosts s)) = true)
    as (hres & wb & Hhosts & Hfb & Hri_b & Hrh_b).
  { destruct (String.eqb orig (hostsfile.finalContent orig (Hosts s))) eqn:Hsame.
    - eexists _, _. split; [exact Hap|]. cbn. repeat split.
      rewrite Hrh_a. exact Hsame.
    - destruct Hap as (wb & Hrun_b & Hfb & Hfile_b & Hframe_b & _).
      eexists _, wb. split; [exact Hrun_b|]. split; [exact Hfb|].
      split; [apply Hframe_b; exact Hhi|].
      rewrite Hfile_b. cbn [from_option id].
      destruct (finalContent_again orig (Hosts s) (Hosts s) Horig Hplain) as [Hint Hagain].
      rewrite Hagain, <- finalContent_intact by exact Horig.
      apply String.eqb_refl. }
  erewrite bind_eq in Hrun by exact Hhosts. cbv beta iota in Hrun.
  destruct (caddy.Reload (cli.appEnv a) (cli.appRunner a) (BaseCaddyfile s) wb)
    as [[out err] wc] eqn:Hreload.
  erewrite bind_eq in Hrun by exact Hreload. cbv beta iota in Hrun.
  destruct (Reload_files _ _ _ _ _ _ Hreload) as [Hfiles_c Hfc].
  destruct err as [e'|].
  { unfold bind, ret in Hrun.
    destruct (caddy.RestoreInclude ires wc) as [? ?].
    destruct (hostsfile.Restore (cli.appEnv a) hres w2) as [? ?]. discriminate. }
  injection Hrun as _ <-.
  split; [|split].
  - apply (healthy_fault wb); [exact Hfc|].
    apply (healthy_fault wa); [exact Hfb | exact Ha].
  - rewrite Hfiles_c, Hri_b. exact Hfile_a.
  - rewrite Hfiles_c. exact Hrh_b.
Qed.



(** C9: a hosts file whose managed block has lost its end marker.  The
    first apply appends a block; the second apply of the same state
    reports the hosts file changed again and rewrites it with one more
    block. *)
Theorem C9_second_apply_rewrites_damaged_file :
  let w := Example.world [(Example.base, Example.baseContent);
                          (Example.etcHosts, Example.unterminated)] in
  let '(r1, w1) :=
    cli.applyState (Example.app Example.reloadOk) (Example.snapshot [Example.user]) w in
  let '(r2, w2) :=
    cli.applyState (Example.app Example.reloadOk) (Example.snapshot [Example.user]) w1 in
  (exists o1, r1 = Ok o1)
  /\ files w1 !! Example.etcHosts
     = Some (Example.unterminated +:+ Example.userBlock)
  /\ (exists o2, r2 = Ok o2
                 /\ caddy.Changed (cli.include o2) = false
                 /\ hostsfile.Changed (cli.hosts o2) = true)
  /\ files w2 !! Example.etcHosts
     = Some (Example.unterminated +:+ Example.userBlock +:+ Example.userBlock)
  /\ existsb mutates (List.skipn (length (trace w1)) (trace w2)) = true.
Proof.
  vm_compute.
  split; [eexists; reflexivity|]. split; [reflexivity|].
  split; [eexists; repeat split; reflexivity|]. split; reflexivity.
Qed.

(** * Further properties of the two resource managers *)

(** Run a function of the sources symbolically in hypothesis [H], one
    possible failure after the other. *)
Ltac crunch H :=
  repeat (cbn -[String.eqb] in H;
          rewrite ?String.eqb_refl, ?lookup_insert_eq in H;
          match type of H with
          | context [fault ?w ?n ?o ?p] => destruct (fault w n o p) as [[]|] eqn:?
          | context [files ?w !! ?p] => destruct (files w !! p) eqn:?
          | context [String.eqb ?a ?b] => destruct (String.eqb a b) eqn:?
          | context [match ?m !! ?p with _ => _ end] => destruct (m !! p) eqn:?
          end;
          try discriminate H).

Lemma Apply_unfold (env : Env) (path rp : string) (hosts : list Host) (w : World) :
  ExpandUser env path = Ok rp ->
  hostsfile.Apply env path hosts w
  = (r <- FS.ReadFile rp ;;
     let '(original, readErr) := r in
     match readErr with
     | Some e =>
         if negb (isNotExist readErr)
         then ret (Err (WrapPermission "read" rp e))
         else hostsfile.applyContent env rp original readErr hosts
     | None => hostsfile.applyContent env rp original readErr hosts
     end) w.
Proof. intros HE. unfold hostsfile.Apply. rewrite HE. reflexivity. Qed.



Lemma UpdateInclude_unfold (env : Env) (path rp content : string) (w : World) :
  ExpandUser env path = Ok rp ->
  caddy.UpdateInclude env path content w
  = (r <- FS.ReadFile rp ;;
     let '(previous, readErr) := r in
     match readErr with
     | Some e =>
         if negb (isNotExist readErr)
         then ret (Err (WrapPermission "read" rp e))
         else caddy.updateContent env rp content previous false
     | None => caddy.updateContent env rp content previous true
     end) w.
Proof. intros HE. unfold caddy.UpdateInclude. rewrite HE. reflexivity. Qed.

(** When [UpdateInclude] returns an error, whatever failed, the include
    file is as it was: with the same bytes, or still missing. *)
Theorem UpdateInclude_error_leaves_include_file (env : Env)
    (path rp content : string) (w w' : World) (e : error) :
  ExpandUser env path = Ok rp ->
  caddy.UpdateInclude env path content w = (Err e, w') ->
  files w' !! rp = files w !! rp.
Proof.
  intros HE Hrun. rewrite (UpdateInclude_unfold env path rp content w HE) in Hrun.
  assert (forall t, rp +:+ ".devhosts.tmp-" +:+ formatUnixNano env t <> rp) as Htemp
    by (intros t; apply (tempPathOf_neq env rp t)).
  unfold caddy.updateContent,
    bind, ret, FS.ReadFile, FS.WriteFile, FS.MkdirAll, FS.Rename, FS.Remove, Now,
    FS.log, FS.setFiles, FS.faultOf in Hrun.
  crunch Hrun.
  all: injection Hrun as _ <-; cbn;
    rewrite ?lookup_insert_eq, ?lookup_insert_ne, ?lookup_delete_ne,
      ?lookup_insert_ne by auto; congruence.
Qed.

Lemma UpdateInclude_error_leaves_include_file_witness :
  files (snd (caddy.UpdateInclude Example.env Example.incl "user {}"
                (Example.lockedWorld [(Example.incl, "old")])))
    !! Example.incl
  = files (Example.lockedWorld [(Example.incl, "old")]) !! Example.incl.
Proof.
  apply (UpdateInclude_error_leaves_include_file Example.env Example.incl Example.incl
           "user {}" (Example.lockedWorld [(Example.incl, "old")]) _
           (ErrNeedsSudo "write" (tempPathOf Example.env Example.incl 0)
              ErrPermission)).
  - reflexivity.
  - vm_compute. reflexivity.
Defined.

(** Where the file system fails only by refusing access, every error of
    [Apply] and of [UpdateInclude] on a resolved path tells the caller
    that elevated rights are needed. *)
Theorem denied_operations_need_sudo (env : Env) (path rp : string) (w w' : World)
    (e : error) :
  onlyDenies w ->
  ExpandUser env path = Ok rp ->
  (forall hosts, hostsfile.Apply env path hosts w = (Err e, w') ->
                 IsErrNeedsSudo e = true)
  /\ (forall content, caddy.UpdateInclude env path content w = (Err e, w') ->
                      IsErrNeedsSudo e = true).
Proof.
  intros Honly HE. split.
  - intros hosts Hrun. rewrite (Apply_unfold env path rp hosts w HE) in Hrun.
    unfold hostsfile.applyContent, hostsfile.takeBackup, hostsfile.replaceFile,
      bind, ret, FS.ReadFile, FS.WriteFile, FS.MkdirAll, FS.Rename, FS.Remove, Now,
      FS.log, FS.setFiles, FS.faultOf in Hrun.
    crunch Hrun.
    all: try (injection Hrun as <- _; reflexivity).
    all: exfalso; eapply Honly; eassumption.
  - intros content Hrun. rewrite (UpdateInclude_unfold env path rp content w HE) in Hrun.
    unfold caddy.updateContent,
      bind, ret, FS.ReadFile, FS.WriteFile, FS.MkdirAll, FS.Rename, FS.Remove, Now,
      FS.log, FS.setFiles, FS.faultOf in Hrun.
    crunch Hrun.
    all: try (injection Hrun as <- _; reflexivity).
    all: exfalso; eapply Honly; eassumption.
Qed.

Lemma denied_operations_need_sudo_witness :
  IsErrNeedsSudo
    (ErrNeedsSudo "backup" (backupPathOf Example.env Example.etcHosts 0) ErrPermission)
  = true.
Proof.
  refine (proj1 (denied_operations_need_sudo Example.env Example.etcHosts
                   Example.etcHosts
                   (Example.lockedWorld [(Example.etcHosts, "127.0.0.1 localhost")])
                   _ _ _ _) [Example.user] _).
  - intros n o p. destruct o; discriminate.
  - reflexivity.
  - vm_compute. reflexivity.
Defined.

(** A changed hosts file can be put back: on a healthy file system,
    [Apply] followed by [Restore] with its result leaves the bytes the
    file had, and touches no path that does not start with the path of
    the hosts file. *)
Theorem Apply_then_Restore (env : Env) (path rp c : string) (hosts : list Host)
    (w : World) :
  healthy w ->
  ExpandUser env path = Ok rp ->
  rp <> "" ->
  files w !! rp = Some c ->
  exists res w1 w2,
    hostsfile.Apply env path hosts w = (Ok res, w1)
    /\ files w1 !! rp = Some (hostsfile.finalContent c hosts)
    /\ hostsfile.Restore env res w1 = (None, w2)
    /\ files w2 !! rp = Some c
    /\ (forall q, String.prefix rp q = false -> files w2 !! q = files w !! q).
Proof.
  intros H HE Hne Hc.
  pose proof (Apply_healthy env path rp hosts w H HE) as Ha.
  rewrite Hc in Ha. cbn [from_option id] in Ha.
  destruct (String.eqb c (hostsfile.finalContent c hosts)) eqn:Hsame.
  - apply String.eqb_eq in Hsame.
    eexists _, _, _. split; [exact Ha|].
    split; [rewrite <- Hsame; exact Hc|].
    split; [reflexivity|]. split; [exact Hc|]. reflexivity.
  - destruct Ha as (w1 & Hrun & Hf & Hfile & Hframe & Hbak).
    assert (healthy w1) as H1 by (apply (healthy_fault w); assumption).
    destruct (Restore_backup_healthy env
                (hostsfile.mkApplyResult true (backupPathOf env rp (clock w)) rp)
                c w1 H1) as (w2 & Hrest & _ & Hfile2 & Hframe2).
    + exact Hne.
    + intros E. apply sapp_eq_nil in E as [_ E]. discriminate.
    + apply Hbak. reflexivity.
    + eexists _, w1, w2. split; [exact Hrun|]. split; [exact Hfile|].
      split; [exact Hrest|]. split; [exact Hfile2|].
      intros q Hq. destruct (not_prefix_cases env rp q Hq) as (Hq1 & _).
      cbn in Hframe2. rewrite Hframe2 by exact Hq1. apply Hframe. exact Hq.
Qed.

Lemma Apply_then_Restore_witness :
  exists res w1 w2,
    hostsfile.Apply Example.env Example.etcHosts [Example.user]
      (Example.world [(Example.etcHosts, "127.0.0.1 localhost")]) = (Ok res, w1)
    /\ files w1 !! Example.etcHosts
       = Some (hostsfile.finalContent "127.0.0.1 localhost" [Example.user])
    /\ hostsfile.Restore Example.env res w1 = (None, w2)
    /\ files w2 !! Example.etcHosts = Some "127.0.0.1 localhost"
    /\ (forall q, String.prefix Example.etcHosts q = false ->
                  files w2 !! q
                  = files (Example.world [(Example.etcHosts, "127.0.0.1 localhost")]) !! q).
Proof.
  apply (Apply_then_Restore Example.env Example.etcHosts Example.etcHosts
           "127.0.0.1 localhost" [Example.user]
           (Example.world [(Example.etcHosts, "127.0.0.1 localhost")])).
  - intros n o p. reflexivity.
  - reflexivity.
  - discriminate.
  - reflexivity.
Defined.

(** The include file can be put back: on a healthy file system,
    [UpdateInclude] leaves the content in the file, and [RestoreInclude]
    with its result leaves the file as it was before, missing if it was
    missing. *)
Theorem UpdateInclude_then_RestoreInclude (env : Env) (path rp content : string)
    (w : World) :
  healthy w ->
  ExpandUser env path = Ok rp ->
  rp <> "" ->
  exists res w1 w2,
    caddy.UpdateInclude env path content w = (Ok res, w1)
    /\ files w1 !! rp = Some content
    /\ caddy.RestoreInclude res w1 = (None, w2)
    /\ files w2 !! rp = files w !! rp
    /\ (forall q, String.prefix rp q = false -> files w2 !! q = files w !! q).
Proof.
  intros H HE Hne.
  destruct (UpdateInclude_rollback env path rp content w H HE)
    as (res & w1 & Hrun & Hf & Hp & Hprev & Hfile & Hframe).
  assert (healthy w1) as H1 by (apply (healthy_fault w); assumption).
  destruct (RestoreInclude_healthy res w1 H1) as (w2 & Hrest & _ & Hfile2 & Hframe2);
    [rewrite Hp; exact Hne|].
  rewrite Hp in Hfile2, Hframe2.
  exists res, w1, w2. split; [exact Hrun|]. split; [exact Hfile|].
  split; [exact Hrest|]. split; [rewrite Hfile2; symmetry; exact Hprev|].
  intros q Hq. destruct (not_prefix_cases env rp q Hq) as (Hq1 & _).
  rewrite Hframe2 by exact Hq1. apply Hframe. exact Hq.
Qed.

Lemma UpdateInclude_then_RestoreInclude_witness :
  exists res w1 w2,
    caddy.UpdateInclude Example.env Example.incl "user {}" (Example.world [])
    = (Ok res, w1)
    /\ files w1 !! Example.incl = Some "user {}"
    /\ caddy.RestoreInclude res w1 = (None, w2)
    /\ files w2 !! Example.incl = files (Example.world []) !! Example.incl
    /\ (forall q, String.prefix Example.incl q = false ->
                  files w2 !! q = files (Example.world []) !! q).
Proof.
  apply (UpdateInclude_then_RestoreInclude Example.env Example.incl Example.incl
           "user {}" (Example.world [])).
  - intros n o p. reflexivity.
  - reflexivity.
  - discriminate.
Defined.

(** * Further properties of the orchestrator *)

(** Whatever makes the readiness check fail (an unreadable base file, a
    missing import, an import written with a tilde, a conflict), the
    apply returns that error having done nothing but read. *)
Theorem applyState_stops_at_validation (a : cli.App) (s : Snapshot) (w w0 : World)
    (e : error) :
  caddy.EnsureBaseReady (cli.appEnv a) (BaseCaddyfile s) (IncludeCaddyfile s)
    (Hosts s) w = (Some e, w0) ->
  cli.applyState a s w = (Err e, w0)
  /\ files w0 = files w
  /\ exists t, trace w0 = trace w ++ t /\ forallb isRead t = true.
Proof.
  intros Hready. split.
  - unfold cli.applyState. erewrite bind_eq by exact Hready. reflexivity.
  - destruct (EnsureBaseReady_reads (cli.appEnv a) (BaseCaddyfile s)
                (IncludeCaddyfile s) (Hosts s) w) as (r & t & Hrun & Hreads).
    rewrite Hready in Hrun. injection Hrun as _ ->.
    split; [reflexivity|]. exists t. split; [reflexivity | exact Hreads].
Qed.

Lemma applyState_stops_at_validation_witness :
  cli.applyState (Example.app Example.reloadOk) (Example.snapshot [Example.user])
    (Example.world [(Example.base, "# empty")])
  = (Err (ErrBaseInvalid Example.base (ErrMissingImport Example.incl)),
     FS.log (EvReadFile Example.base) (Example.world [(Example.base, "# empty")])).
Proof.
  refine (proj1 (applyState_stops_at_validation (Example.app Example.reloadOk)
                   (Example.snapshot [Example.user])
                   (Example.world [(Example.base, "# empty")]) _ _ _)).
  vm_compute. reflexivity.
Defined.

(** What a successful [applyState] has done, on a healthy file system
    and with paths of which neither starts with the other. *)
Lemma applyState_ok_healthy (a : cli.App) (s : Snapshot) (w w1 : World)
    (o : cli.applyOutcome) (ri rh : string) :
  healthy w ->
  ExpandUser (cli.appEnv a) (IncludeCaddyfile s) = Ok ri ->
  ExpandUser (cli.appEnv a) (cli.HostsPath a) = Ok rh ->
  String.prefix ri rh = false ->
  String.prefix rh ri = false ->
  cli.applyState a s w = (Ok o, w1) ->
  let orig := default "" (files w !! rh) in
  let final := hostsfile.finalContent orig (Hosts s) in
  healthy w1
  /\ caddy.Path (cli.include o) = ri
  /\ files w !! ri = (if caddy.Existed (cli.include o)
                      then Some (caddy.Previous (cli.include o)) else None)
  /\ files w1 !! ri = Some (caddy.GenerateInclude (Hosts s))
  /\ (caddy.Changed (cli.include o) = false <->
      files w !! ri = Some (caddy.GenerateInclude (Hosts s)))
  /\ (forall q, String.prefix ri q = false -> String.prefix rh q = false ->
                files w1 !! q = files w !! q)
  /\ ((hostsfile.Changed (cli.hosts o) = false
       /\ files w1 !! rh = files w !! rh /\ orig = final)
      \/ (hostsfile.Changed (cli.hosts o) = true
          /\ hostsfile.Path (cli.hosts o) = rh
          /\ files w1 !! rh = Some final
          /\ orig <> final
          /\ ((exists c, files w !! rh = Some c
                         /\ hostsfile.BackupPath (cli.hosts o) <> ""
                         /\ String.prefix rh (hostsfile.BackupPath (cli.hosts o)) = true
                         /\ files w1 !! hostsfile.BackupPath (cli.hosts o) = Some c)
              \/ (files w !! rh = None
                  /\ hostsfile.BackupPath (cli.hosts o) = "")))).
Proof.
  intros H HEi HEh Hih Hhi Hrun orig final.
  unfold cli.applyState in Hrun.
  destruct (EnsureBaseReady_reads (cli.appEnv a) (BaseCaddyfile s)
              (IncludeCaddyfile s) (Hosts s) w) as (r0 & t0 & Hready & _).
  erewrite bind_eq in Hrun by exact Hready. cbv beta iota in Hrun.
  set (w0 := mkWorld (files w) (trace w ++ t0) (clock w) (fault w)) in *.
  assert (healthy w0) as H0 by (intros n op p; apply H).
  destruct r0 as [e0|]; [discriminate|].
  assert (exists ires wa,
            caddy.UpdateInclude (cli.appEnv a) (IncludeCaddyfile s)
              (caddy.GenerateInclude (Hosts s)) w0 = (Ok ires, wa)
            /\ fault wa = fault w0
            /\ caddy.Path ires = ri
            /\ files w !! ri = (if caddy.Existed ires
                                then Some (caddy.Previous ires) else None)
            /\ files wa !! ri = Some (caddy.GenerateInclude (Hosts s))
            /\ (caddy.Changed ires = false <->
                files w !! ri = Some (caddy.GenerateInclude (Hosts s)))
            /\ (forall q, String.prefix ri q = false -> files wa !! q = files w !! q))
    as (ires & wa & Hinclude & Hfa & Hpath_a & Hprev_a & Hfile_a & Hch_a & Hframe_a).
  { pose proof (UpdateInclude_healthy (cli.appEnv a) (IncludeCaddyfile s) ri
                  (caddy.GenerateInclude (Hosts s)) w0 H0 HEi) as Hu.
    change (files w0) with (files w) in Hu.
    destruct (files w !! ri) as [previous|] eqn:Hri.
    - destruct (String.eqb previous (caddy.GenerateInclude (Hosts s))) eqn:Hsame.
      + apply String.eqb_eq in Hsame. subst previous.
        eexists _, _. split; [exact Hu|]. cbn. repeat split; auto.
      + destruct Hu as (wa & Hu & Hf & Hfile & Hframe).
        eexists _, wa. split; [exact Hu|]. cbn. repeat split; auto; try discriminate.
        * intros [= E]. rewrite E, String.eqb_refl in Hsame. discriminate.
        * intros q Hq. destruct (not_prefix_cases (cli.appEnv a) ri q Hq) as (? & ? & ?).
          apply Hframe; auto.
    - destruct Hu as (wa & Hu & Hf & Hfile & Hframe).
      eexists _, wa. split; [exact Hu|]. cbn. repeat split; auto; try discriminate.
      intros q Hq. destruct (not_prefix_cases (cli.appEnv a) ri q Hq) as (? & ? & ?).
      apply Hframe; auto. }
  erewrite bind_eq in Hrun by exact Hinclude. cbv beta iota in Hrun.
  assert (healthy wa) as Ha by (apply (healthy_fault w0); assumption).
  assert (files wa !! rh = files w !! rh) as Hrh_a by (apply Hframe_a; exact Hih).
  pose proof (Apply_healthy (cli.appEnv a) (cli.HostsPath a) rh (Hosts s) wa Ha HEh) as Hap.
  cbv zeta in Hap. rewrite Hrh_a in Hap. fold orig in Hap. fold final in Hap.
  assert (exists hres wb,
            hostsfile.Apply (cli.appEnv a) (cli.HostsPath a) (Hosts s) wa = (Ok hres, wb)
            /\ fault wb = fault wa
            /\ (forall q, String.prefix rh q = false -> files wb !! q = files wa !! q)
            /\ ((hostsfile.Changed hres = false
                 /\ files wb !! rh = files w !! rh /\ orig = final)
                \/ (hostsfile.Changed hres = true
                    /\ hostsfile.Path hres = rh
                    /\ files wb !! rh = Some final
                    /\ orig <> final
                    /\ ((exists c, files w !! rh = Some c
                                   /\ hostsfile.BackupPath hres <> ""
                                   /\ String.prefix rh (hostsfile.BackupPath hres) = true
                                   /\ files wb !! hostsfile.BackupPath hres = Some c)
                        \/ (files w !! rh = None /\ hostsfile.BackupPath hres = "")))))
    as (hres & wb & Hhosts & Hfb & Hframe_b & Hcases).
  { destruct (String.eqb orig final) eqn:Hsame.
    - apply String.eqb_eq in Hsame.
      eexists _, _. split; [exact Hap|]. cbn. repeat split; auto.
    - apply String.eqb_neq in Hsame.
      destruct Hap as (wb & Hrun_b & Hfb & Hfile_b & Hframe_b & Hbak).
      eexists _, wb. split; [exact Hrun_b|]. split; [exact Hfb|].
      split; [exact Hframe_b|]. right. cbn.
      split; [reflexivity|]. split; [reflexivity|]. split; [exact Hfile_b|].
      split; [exact Hsame|].
      destruct (files w !! rh) as [c|] eqn:Hc.
      + left. exists c. split; [reflexivity|]. split.
        * intros E. apply sapp_eq_nil in E as [_ E]. discriminate.
        * split; [apply backupPathOf_prefix | apply Hbak; reflexivity].
      + right. split; reflexivity. }
  erewrite bind_eq in Hrun by exact Hhosts. cbv beta iota in Hrun.
  destruct (caddy.Reload (cli.appEnv a) (cli.appRunner a) (BaseCaddyfile s) wb)
    as [[out err] wc] eqn:Hreload.
  erewrite bind_eq in Hrun by exact Hreload. cbv beta iota in Hrun.
  destruct (Reload_files _ _ _ _ _ _ Hreload) as [Hfiles_c Hfc].
  destruct err as [e'|].
  { unfold bind, ret in Hrun.
    destruct (caddy.RestoreInclude ires wc) as [? ?].
    destruct (hostsfile.Restore (cli.appEnv a) hres w2) as [? ?]. discriminate. }
  injection Hrun as <- <-. cbn [cli.include cli.hosts].
  rewrite Hfiles_c.
  split.
  { apply (healthy_fault wb); [exact Hfc|].
    apply (healthy_fault wa); [exact Hfb | exact Ha]. }
  split; [exact Hpath_a|]. split; [exact Hprev_a|].
  split; [rewrite Hframe_b by exact Hhi; exact Hfile_a|].
  split; [exact Hch_a|].
  split; [intros q Hqi Hqh; rewrite Hframe_b by exact Hqh; apply Hframe_a; exact Hqi|].
  exact Hcases.
Qed.





(** * Further properties of the managed block *)

(** Inside a block, lines that are no marker are dropped. *)
Lemma scan_skips (l rest : list string) : forall removed acc,
  Forall (fun x => x <> hostsfile.blockStart /\ x <> hostsfile.blockEnd) l ->
  hostsfile.scanLines (l ++ rest) true removed acc
  = hostsfile.scanLines rest true removed acc.
Proof.
  induction l as [|line l IH]; intros removed acc Hl; [reflexivity|].
  inversion Hl as [|? ? [Hs He] Hrest]; subst.
  apply String.eqb_neq in Hs, He. simpl. rewrite Hs, He. apply IH. exact Hrest.
Qed.

(** A second apply replaces the block of the first, it does not stack a
    second one: where the markers of the file are well nested and the
    host names have no line break, applying [hosts] and then [hosts']
    leaves what applying [hosts'] alone leaves. *)
Theorem reapply_replaces_block (content : string) (hosts hosts' : list Host) :
  blockIntact content = true ->
  plainNames hosts ->
  hostsfile.finalContent (hostsfile.finalContent content hosts) hosts'
  = hostsfile.finalContent content hosts'.
Proof.
  intros Hc Hp.
  destruct (finalContent_again content hosts hosts' Hc Hp) as [_ ->].
  symmetry. apply finalContent_intact. exact Hc.
Qed.

Lemma reapply_replaces_block_witness :
  hostsfile.finalContent
    (hostsfile.finalContent "127.0.0.1 localhost" [Example.user]) [Example.staff]
  = hostsfile.finalContent "127.0.0.1 localhost" [Example.staff].
Proof.
  apply (reapply_replaces_block "127.0.0.1 localhost" [Example.user] [Example.staff]).
  - reflexivity.
  - repeat constructor.
Defined.

(** Adding the block and taking it away again gives the file back: for
    a file of terminated lines, none of them a start marker and the last
    one not blank, [Apply] appends the block to the bytes as they are,
    and applying the empty host list to the result restores them. *)
Theorem block_added_then_removed (kept : list string) (hosts : list Host) :
  Forall (fun x => hasByte nl x = false) kept ->
  Forall (fun x => x <> hostsfile.blockStart) kept ->
  hostsfile.dropTrailingBlank kept = kept ->
  plainNames hosts ->
  hostsfile.finalContent (unlines kept) hosts
  = unlines kept +:+ hostsfile.buildBlock (hostsfile.extractHostnames hosts)
  /\ hostsfile.finalContent (hostsfile.finalContent (unlines kept) hosts) []
     = unlines kept.
Proof.
  intros Hnl Hst Hdrop Hp.
  destruct (strip_unlines_tail kept "" Hnl Hst Hdrop blankTail_empty) as [Hstrip Hint].
  rewrite (sapp_nil_r (unlines kept)) in Hstrip, Hint.
  split.
  - rewrite finalContent_intact by exact Hint. rewrite Hstrip. reflexivity.
  - destruct (finalContent_again (unlines kept) hosts [] Hint Hp) as [_ ->].
    rewrite Hstrip. apply sapp_nil_r.
Qed.

Lemma block_added_then_removed_witness :
  hostsfile.finalContent (unlines ["127.0.0.1 localhost"; "::1 localhost"]) [Example.user]
  = unlines ["127.0.0.1 localhost"; "::1 localhost"]
    +:+ hostsfile.buildBlock (hostsfile.extractHostnames [Example.user])
  /\ hostsfile.finalContent
       (hostsfile.finalContent (unlines ["127.0.0.1 localhost"; "::1 localhost"])
          [Example.user]) []
     = unlines ["127.0.0.1 localhost"; "::1 localhost"].
Proof.
  apply (block_added_then_removed ["127.0.0.1 localhost"; "::1 localhost"] [Example.user]).
  - repeat constructor.
  - repeat constructor; discriminate.
  - reflexivity.
  - repeat constructor.
Defined.

(** The block is cut out where it stands: when the lines of the file
    are [pre], the start marker, [mid], the end marker and [post], with
    no further start marker and no end marker in [mid],
    [stripManagedBlock] reports a removal and returns the lines of [pre]
    and [post] in their order, trailing blank lines dropped; [Apply]
    puts the new block after them. *)
Theorem block_cut_in_place (content : string) (pre mid post : list string)
    (hosts : list Host) :
  Split nl content
  = (pre ++ hostsfile.blockStart :: mid ++ hostsfile.blockEnd :: post)%list ->
  Forall (fun x => x <> hostsfile.blockStart) pre ->
  Forall (fun x => x <> hostsfile.blockStart /\ x <> hostsfile.blockEnd) mid ->
  Forall (fun x => x <> hostsfile.blockStart) post ->
  hostsfile.stripManagedBlock content
  = (unlines (hostsfile.dropTrailingBlank (pre ++ post)), true)
  /\ hostsfile.finalContent content hosts
     = unlines (hostsfile.dropTrailingBlank (pre ++ post))
       +:+ hostsfile.buildBlock (hostsfile.extractHostnames hosts).
Proof.
  intros Hsplit Hpre Hmid Hpost.
  assert (hostsfile.scanLines (Split nl content) false false []
          = hostsfile.Scanned false true (pre ++ post)) as Hscan.
  { rewrite Hsplit, scan_app, scan_keeps by exact Hpre.
    rewrite List.app_nil_l.
    change (hostsfile.scanLines (hostsfile.blockStart :: mid ++ hostsfile.blockEnd :: post)
              false false pre)
      with (hostsfile.scanLines (mid ++ hostsfile.blockEnd :: post) true true pre).
    rewrite scan_skips by exact Hmid.
    change (hostsfile.scanLines (hostsfile.blockEnd :: post) true true pre)
      with (hostsfile.scanLines post false true pre).
    apply scan_keeps. exact Hpost. }
  assert (blockIntact content = true) as Hint.
  { unfold blockIntact. rewrite Hscan. reflexivity. }
  destruct (strip_intact content Hint) as (removed & out & Hscan' & Hstrip).
  rewrite Hscan in Hscan'. injection Hscan' as <- <-.
  split; [exact Hstrip|].
  rewrite finalContent_intact by exact Hint. rewrite Hstrip. reflexivity.
Qed.

Lemma block_cut_in_place_witness :
  let content := "127.0.0.1 localhost
# >>> devhosts BEGIN
127.0.0.1    old
# <<< devhosts END
::1 localhost
" in
  hostsfile.stripManagedBlock content
  = (unlines ["127.0.0.1 localhost"; "::1 localhost"], true)
  /\ hostsfile.finalContent content [Example.user]
     = unlines ["127.0.0.1 localhost"; "::1 localhost"]
       +:+ hostsfile.buildBlock ["user"].
Proof.
  apply (block_cut_in_place _ ["127.0.0.1 localhost"] ["127.0.0.1    old"]
           ["::1 localhost"; ""] [Example.user]).
  - reflexivity.
  - repeat constructor; discriminate.
  - repeat constructor; discriminate.
  - repeat constructor; discriminate.
Defined.

(** * Further properties of the readiness check *)

Lemma le_empty (x : string) : String.le "" x.
Proof. destruct x; reflexivity. Qed.

Lemma prefix_inv (p s : string) :
  String.prefix p s = true -> exists r, s = p +:+ r.
Proof.
  revert s. induction p as [|c p IH]; intros s H.
  - exists s. reflexivity.
  - destruct s as [|d s]; [discriminate|]. simpl in H.
    destruct (ascii_dec c d) as [->|]; [|discriminate].
    destruct (IH s H) as [r ->]. exists r. reflexivity.
Qed.

(** On a sorted list with nothing below [prev], the loop of [unique]
    keeps one copy of every value other than [prev], in order. *)
Lemma dedupFrom_sorted (l : list string) : forall prev,
  StronglySorted String.le l -> Forall (String.le prev) l ->
  (forall x, In x (caddy.dedupFrom prev l) <-> In x l /\ x <> prev)
  /\ StronglySorted String.le (caddy.dedupFrom prev l)
  /\ NoDup (caddy.dedupFrom prev l).
Proof.
  induction l as [|v rest IH]; intros prev Hs Hp.
  - simpl. split; [intros x; tauto|]. split; constructor.
  - apply StronglySorted_inv in Hs as [Hs Hv].
    inversion Hp as [|? ? Hpv Hprest]; subst. simpl.
    destruct (String.eqb v prev) eqn:E; simpl.
    + apply String.eqb_eq in E. subst v.
      destruct (IH prev Hs Hprest) as (Hin & Hsorted & Hnd).
      split; [|split; assumption].
      intros x. rewrite Hin. split; [intros [? ?]; auto|].
      intros [[<-|?] ?]; [congruence | auto].
    + apply String.eqb_neq in E.
      destruct (IH v Hs Hv) as (Hin & Hsorted & Hnd).
      split; [|split].
      * intros x. rewrite Hin. split.
        -- intros [<-|[Hx Hxv]]; [auto|]. split; [auto|].
           intros ->. apply Hxv.
           rewrite List.Forall_forall in Hv.
           apply (anti_symm String.le); [exact Hpv | apply Hv; exact Hx].
        -- intros [[<-|Hx] Hxp]; [auto|].
           destruct (string_dec v x) as [<-|Hvx]; [auto | right; split; auto].
      * constructor; [exact Hsorted|].
        apply List.Forall_forall. intros x Hx. apply Hin in Hx as [Hx _].
        rewrite List.Forall_forall in Hv. apply Hv. exact Hx.
      * apply NoDup_cons. split; [|exact Hnd].
        intros Hx%list_elem_of_In. apply Hin in Hx as [_ Hx]. congruence.
Qed.

(** [unique]: the values other than the empty string, once each, in
    sorted order. *)
Lemma unique_sorted (l : list string) :
  (forall x, In x (caddy.unique l) <-> In x l /\ x <> "")
  /\ StronglySorted String.le (caddy.unique l)
  /\ NoDup (caddy.unique l).
Proof.
  destruct l as [|y l].
  - simpl. split; [intros x; tauto|]. split; constructor.
  - unfold caddy.unique, sortStrings.
    destruct (dedupFrom_sorted (merge_sort String.le (y :: l)) "") as (Hin & Hs & Hnd).
    + apply StronglySorted_merge_sort; apply _.
    + apply List.Forall_forall. intros x _. apply le_empty.
    + split; [|split; assumption].
      intros x. rewrite Hin. rewrite <- !list_elem_of_In.
      rewrite (merge_sort_Permutation String.le (y :: l)). reflexivity.
Qed.

Lemma isHeaderFor_inv (trimmed name : string) :
  caddy.isHeaderFor trimmed name = true ->
  exists rest, trimmed = name +:+ " " +:+ rest \/ trimmed = name +:+ "{" +:+ rest.
Proof.
  unfold caddy.isHeaderFor, HasPrefix. intros H.
  apply orb_prop in H as [H|H]; [apply orb_prop in H as [H|H]|].
  - apply String.eqb_eq in H. exists "". right. rewrite H, (sapp_nil_r "{"). reflexivity.
  - apply prefix_inv in H as [r ->]. exists r. left. apply sapp_assoc.
  - apply prefix_inv in H as [r ->]. exists r. right. apply sapp_assoc.
Qed.

Lemma sortStrings_sorted (l : list string) :
  StronglySorted String.le l -> sortStrings l = l.
Proof.
  intros Hl. unfold sortStrings.
  apply (StronglySorted_unique String.le);
    [apply StronglySorted_merge_sort; apply _ | exact Hl
    | apply merge_sort_Permutation].
Qed.

(** The names [detectConflicts] collects before it sorts them. *)
Lemma conflicts_In (content : string) (hosts : list Host) (name : string) :
  In name (flat_map (fun raw =>
             List.filter (fun name => caddy.isHeaderFor (TrimSpace raw) name)
               (elements (caddy.lookupOf hosts))) (Split nl content))
  <-> In name (map Name hosts) /\ name <> "" /\ definesSite content name.
Proof.
  rewrite List.in_flat_map.
  assert (In name (elements (caddy.lookupOf hosts))
          <-> In name (map Name hosts) /\ name <> "") as Hlookup.
  { rewrite <- list_elem_of_In, elem_of_elements. unfold caddy.lookupOf.
    rewrite elem_of_list_to_set, list_elem_of_In, nonEmptyNames_filter, List.filter_In.
    split; intros [? Hn]; split; auto.
    - intros ->. discriminate Hn.
    - apply String.eqb_neq in Hn. rewrite Hn. reflexivity. }
  split.
  - intros (line & Hline & Hf). apply List.filter_In in Hf as [Hl Hhead].
    apply Hlookup in Hl as [Hl Hne]. split; [exact Hl|]. split; [exact Hne|].
    apply isHeaderFor_inv in Hhead as [rest Hrest].
    exists line, rest. split; assumption.
  - intros (Hl & Hne & line & rest & Hline & Hhead).
    exists line. split; [exact Hline|]. apply List.filter_In. split.
    + apply Hlookup. split; assumption.
    + eapply isHeaderFor_definesSite. exact Hhead.
Qed.

Lemma detectConflicts_In (content : string) (hosts : list Host) (name : string) :
  In name (caddy.detectConflicts content hosts)
  <-> name <> "" /\ In name (map Name hosts) /\ definesSite content name.
Proof.
  destruct hosts as [|h0 hosts0]; [simpl; tauto|].
  unfold caddy.detectConflicts.
  rewrite (proj1 (unique_sorted _) name), conflicts_In. tauto.
Qed.

Lemma detectConflicts_sorted (content : string) (hosts : list Host) :
  StronglySorted String.le (caddy.detectConflicts content hosts)
  /\ NoDup (caddy.detectConflicts content hosts).
Proof.
  destruct hosts as [|h0 hosts0]; [split; constructor|].
  unfold caddy.detectConflicts. apply unique_sorted.
Qed.

(** [detectConflicts] reports exactly the non-empty host names for which
    the base file has a site block header, each once and in sorted
    order, so that sorting the report again changes nothing. *)
Theorem detectConflicts_exact (content : string) (hosts : list Host) :
  (forall name,
      In name (caddy.detectConflicts content hosts)
      <-> name <> "" /\ In name (map Name hosts) /\ definesSite content name)
  /\ NoDup (caddy.detectConflicts content hosts)
  /\ sortStrings (caddy.detectConflicts content hosts)
     = caddy.detectConflicts content hosts.
Proof.
  destruct (detectConflicts_sorted content hosts) as [Hsorted Hnd].
  split; [intros name; apply detectConflicts_In|].
  split; [exact Hnd|].
  apply sortStrings_sorted. exact Hsorted.
Qed.

Lemma ExpandUser_error (env : Env) (path : string) (e : error) :
  ExpandUser env path = Err e -> e = ErrNoHome \/ e = ErrOtherUserHome.
Proof.
  unfold ExpandUser. destruct path as [|c rest]; [discriminate|].
  destruct (negb (Ascii.eqb c "~")); [discriminate|].
  destruct (UserHomeDir env); [|intros [= <-]; auto].
  destruct rest as [|c1 rest]; [discriminate|].
  destruct (negb (Ascii.eqb c1 "/")); [intros [= <-]; auto | discriminate].
Qed.



(** When [Apply] reports success, whatever the file system did on the
    way: either nothing changed, the file having the wanted content
    already, or the hosts file holds the wanted content, its previous
    bytes are in the backup the result names (no backup when the file
    did not exist) and no path that does not start with the path of
    the hosts file has changed. *)
Theorem Apply_success_state (env : Env) (path rp : string) (hosts : list Host)
    (w w' : World) (res : hostsfile.ApplyResult) :
  ExpandUser env path = Ok rp ->
  hostsfile.Apply env path hosts w = (Ok res, w') ->
  let orig := default "" (files w !! rp) in
  let final := hostsfile.finalContent orig hosts in
  (res = hostsfile.mkApplyResult false "" "" /\ files w' = files w /\ orig = final)
  \/ (hostsfile.Changed res = true
      /\ hostsfile.Path res = rp
      /\ orig <> final
      /\ files w' !! rp = Some final
      /\ (forall q, String.prefix rp q = false -> files w' !! q = files w !! q)
      /\ match files w !! rp with
         | Some o => hostsfile.BackupPath res <> ""
                     /\ files w' !! hostsfile.BackupPath res = Some o
         | None => hostsfile.BackupPath res = ""
         end).
Proof.
  intros HE Hrun. cbv zeta. rewrite (Apply_unfold env path rp hosts w HE) in Hrun.
  unfold hostsfile.applyContent, hostsfile.takeBackup, hostsfile.replaceFile,
    bind, ret, FS.ReadFile, FS.WriteFile, FS.MkdirAll, FS.Rename, FS.Remove, Now,
    FS.log, FS.setFiles, FS.faultOf in Hrun.
  crunch Hrun.
  all: injection Hrun as <- <-; cbn.
  1, 3: left; split; [reflexivity|]; split; [reflexivity|];
    apply String.eqb_eq; assumption.
  all: right; split; [reflexivity|]; split; [reflexivity|];
    split; [apply String.eqb_neq; assumption|];
    split; [apply lookup_insert_eq|]; split.
  all: try (intros q Hq; destruct (not_prefix_cases env rp q Hq) as (Hq1 & Hq2 & Hq3);
            unfold tempPathOf, backupPathOf in Hq2, Hq3;
            rewrite lookup_insert_ne by congruence;
            rewrite lookup_delete_ne by (intros E; eapply Hq2; symmetry; exact E);
            rewrite lookup_insert_ne by (intros E; eapply Hq2; symmetry; exact E);
            rewrite ?lookup_insert_ne by (intros E; eapply Hq3; symmetry; exact E);
            reflexivity).
  - split; [intros E; apply sapp_eq_nil in E as [_ E]; discriminate|].
    rewrite lookup_insert_ne by (symmetry; apply (backupPathOf_neq env rp)).
    rewrite lookup_delete_ne
      by (apply (temp_neq_backup env rp (S (clock w)) (clock w))).
    rewrite lookup_insert_ne
      by (apply (temp_neq_backup env rp (S (clock w)) (clock w))).
    apply lookup_insert_eq.
  - reflexivity.
Qed.

Lemma Apply_success_state_witness :
  let w := Example.world [(Example.etcHosts, "127.0.0.1 localhost")] in
  let r := hostsfile.Apply Example.env Example.etcHosts [Example.user] w in
  files (snd r) !! Example.etcHosts
  = Some (hostsfile.finalContent "127.0.0.1 localhost" [Example.user])
  /\ files (snd r) !! backupPathOf Example.env Example.etcHosts 0
     = Some "127.0.0.1 localhost".
Proof.
  intros w r.
  destruct r as [[res|e] w'] eqn:Hr; [|vm_compute in Hr; discriminate Hr].
  pose proof (Apply_success_state Example.env Example.etcHosts Example.etcHosts
                [Example.user] w w' res eq_refl Hr) as T.
  cbv zeta in T. destruct T as [(_ & _ & Hsame) | (_ & _ & _ & Hfile & _ & Hbak)].
  - vm_compute in Hsame. discriminate Hsame.
  - split; [exact Hfile|].
    assert (res = hostsfile.mkApplyResult true
                    (backupPathOf Example.env Example.etcHosts 0) Example.etcHosts)
      as -> by (vm_compute in Hr; injection Hr as <- _; reflexivity).
    exact (proj2 Hbak).
Defined.

(** When [UpdateInclude] reports success, whatever the file system did
    on the way: the file holds the content, the result records whether
    it existed and the bytes it had, the change flag is false exactly
    when it existed with that content (and then nothing was written),
    and no path that does not start with the path of the include file
    has changed. *)
Theorem UpdateInclude_success_state (env : Env) (path rp content : string)
    (w w' : World) (res : caddy.UpdateResult) :
  ExpandUser env path = Ok rp ->
  caddy.UpdateInclude env path content w = (Ok res, w') ->
  caddy.Path res = rp
  /\ files w' !! rp = Some content
  /\ files w !! rp = (if caddy.Existed res then Some (caddy.Previous res) else None)
  /\ (caddy.Changed res = false <-> files w !! rp = Some content)
  /\ (caddy.Changed res = false -> files w' = files w)
  /\ (forall q, String.prefix rp q = false -> files w' !! q = files w !! q).
Proof.
  intros HE Hrun. rewrite (UpdateInclude_unfold env path rp content w HE) in Hrun.
  unfold caddy.updateContent,
    bind, ret, FS.ReadFile, FS.WriteFile, FS.MkdirAll, FS.Rename, FS.Remove, Now,
    FS.log, FS.setFiles, FS.faultOf in Hrun.
  crunch Hrun.
  all: injection Hrun as <- <-; cbn.
  all: repeat match goal with
              | H : String.eqb _ _ = true |- _ => apply String.eqb_eq in H; subst
              | H : String.eqb _ _ = false |- _ => apply String.eqb_neq in H
              end.
  all: split; [reflexivity|]; split; [first [assumption | apply lookup_insert_eq]|];
    split; [first [assumption | reflexivity]|];
    split; [split; first [reflexivity | discriminate | congruence]|];
    split; [first [reflexivity | discriminate]|].
  all: try reflexivity.
  all: intros q Hq; destruct (not_prefix_cases env rp q Hq) as (Hq1 & Hq2 & _);
    unfold tempPathOf in Hq2;
    rewrite lookup_insert_ne by congruence;
    rewrite lookup_delete_ne by (intros E; eapply Hq2; symmetry; exact E);
    rewrite lookup_insert_ne by (intros E; eapply Hq2; symmetry; exact E);
    reflexivity.
Qed.

Lemma UpdateInclude_success_state_witness :
  let r := caddy.UpdateInclude Example.env Example.incl "user {}"
             (Example.world [(Example.incl, "old")]) in
  files (snd r) !! Example.incl = Some "user {}".
Proof.
  intros r.
  destruct r as [[res|e] w'] eqn:Hr; [|vm_compute in Hr; discriminate Hr].
  exact (proj1 (proj2 (UpdateInclude_success_state Example.env Example.incl
                         Example.incl "user {}"
                         (Example.world [(Example.incl, "old")]) w' res eq_refl Hr))).
Defined.

(** A hosts step that cannot start undoes the include step: when the
    path of the hosts file cannot be resolved (no home directory, or the
    home of another user), on a healthy file system, the apply fails and
    leaves the include file as it was, missing if it was missing, and
    every path that does not start with its path untouched. *)
Theorem applyState_hosts_failure_restores_include (a : cli.App) (s : Snapshot)
    (w w' : World) (r : result cli.applyOutcome) (ri : string) (e : error) :
  healthy w ->
  ExpandUser (cli.appEnv a) (IncludeCaddyfile s) = Ok ri ->
  ri <> "" ->
  ExpandUser (cli.appEnv a) (cli.HostsPath a) = Err e ->
  cli.applyState a s w = (r, w') ->
  (exists e', r = Err e')
  /\ files w' !! ri = files w !! ri
  /\ (forall q, String.prefix ri q = false -> files w' !! q = files w !! q).
Proof.
  intros H HEi Hne HEh Hrun.
  unfold cli.applyState in Hrun.
  destruct (EnsureBaseReady_reads (cli.appEnv a) (BaseCaddyfile s)
              (IncludeCaddyfile s) (Hosts s) w) as (r0 & t0 & Hready & _).
  erewrite bind_eq in Hrun by exact Hready. cbv beta iota in Hrun.
  set (w0 := mkWorld (files w) (trace w ++ t0) (clock w) (fault w)) in *.
  assert (healthy w0) as H0 by (intros n op p; apply H).
  destruct r0 as [e0|].
  { injection Hrun as <- <-. split; [eexists; reflexivity|]. split; reflexivity. }
  destruct (UpdateInclude_rollback (cli.appEnv a) (IncludeCaddyfile s) ri
              (caddy.GenerateInclude (Hosts s)) w0 H0 HEi)
    as (ires & wa & Hinclude & Hfa & Hpath & Hprev & _ & Hframe_a).
  erewrite bind_eq in Hrun by exact Hinclude. cbv beta iota in Hrun.
  assert (healthy wa) as Ha by (apply (healthy_fault w0); assumption).
  assert (hostsfile.Apply (cli.appEnv a) (cli.HostsPath a) (Hosts s) wa = (Err e, wa))
    as Hhosts by (unfold hostsfile.Apply; rewrite HEh; reflexivity).
  erewrite bind_eq in Hrun by exact Hhosts. cbv beta iota in Hrun.
  destruct (RestoreInclude_healthy ires wa Ha) as (wb & Hrest & _ & Hfile & Hframe_b);
    [rewrite Hpath; exact Hne|].
  erewrite bind_eq in Hrun by exact Hrest. injection Hrun as <- <-.
  rewrite Hpath in Hfile, Hframe_b.
  split; [eexists; reflexivity|].
  split; [rewrite Hfile; symmetry; exact Hprev|].
  intros q Hq. destruct (not_prefix_cases (cli.appEnv a) ri q Hq) as (Hq1 & _).
  rewrite Hframe_b by exact Hq1. apply Hframe_a. exact Hq.
Qed.

Lemma applyState_hosts_failure_restores_include_witness :
  let w := Example.world [(Example.base, Example.baseContent)] in
  let a := cli.mkApp Example.env Example.reloadOk "~root/hosts" in
  let r := cli.applyState a (Example.snapshot [Example.user]) w in
  fst r = Err ErrOtherUserHome /\ files (snd r) !! Example.incl = None.
Proof.
  intros w a r.
  destruct (applyState_hosts_failure_restores_include a
              (Example.snapshot [Example.user]) w (snd r) (fst r) Example.incl
              ErrOtherUserHome) as (_ & Hfile & _).
  - intros n op p. reflexivity.
  - reflexivity.
  - discriminate.
  - reflexivity.
  - apply surjective_pairing.
  - split; [vm_compute; reflexivity | exact Hfile].
Defined.

(** * The edits of the configuration *)

(** ** Host specs *)

Lemma Contains_byte (c : ascii) (s : string) :
  Contains s (String c "") = hasByte c s.
Proof.
  induction s as [|x s IH]; [reflexivity|].
  cbn [Contains hasByte String.prefix].
  destruct (ascii_dec c x) as [->|Hne].
  - rewrite Ascii.eqb_refl. destruct s; reflexivity.
  - assert (Ascii.eqb x c = false) as -> by (apply Ascii.eqb_neq; congruence).
    exact IH.
Qed.

Lemma SplitN2_cut (c : ascii) (s : string) :
  hasByte c s = true ->
  exists a b, SplitN2 c s = [a; b] /\ s = a +:+ String c b /\ hasByte c a = false.
Proof.
  induction s as [|x s IH]; [discriminate|]. cbn [hasByte SplitN2].
  destruct (Ascii.eqb x c) eqn:E.
  - intros _. apply Ascii.eqb_eq in E. subst x. exists "", s. auto.
  - cbn [orb]. intros H. destruct (IH H) as (a & b & -> & Hs & Ha).
    exists (String x a), b. split; [reflexivity|]. split.
    + rewrite sapp_cons, <- Hs. reflexivity.
    + cbn [hasByte]. rewrite E. exact Ha.
Qed.

Lemma drop_length (n : nat) (s : string) :
  String.length (drop n s) = (String.length s - n)%nat.
Proof.
  revert s. induction n as [|n IH]; intros s; [simpl; lia|].
  destruct s as [|x s]; [reflexivity|]. simpl. apply IH.
Qed.

(** [LastIndexByte] finds the last occurrence: the string is what
    precedes it, the byte, and a rest without the byte. *)
Lemma LastIndexByte_cut (c : ascii) (s : string) :
  let i := LastIndexByte c s in
  (i = (-1)%Z /\ hasByte c s = false)
  \/ ((0 <= i < Z.of_nat (String.length s))%Z
      /\ s = substring 0 (Z.to_nat i) s +:+ String c (drop (Z.to_nat (i + 1)) s)
      /\ hasByte c (drop (Z.to_nat (i + 1)) s) = false).
Proof.
  induction s as [|x s IH]; [left; split; reflexivity|].
  cbn [LastIndexByte hasByte String.length]. cbv zeta in IH |- *.
  destruct IH as [[Hi Hno] | (Hr & Hs & Hno)].
  - rewrite Hi. cbn [Z.leb Z.compare]. rewrite Hno, orb_false_r.
    destruct (Ascii.eqb x c) eqn:E.
    + right. apply Ascii.eqb_eq in E. subst x. split; [lia|]. split; [reflexivity|].
      exact Hno.
    + left. split; reflexivity.
  - assert ((0 <=? LastIndexByte c s)%Z = true) as -> by (apply Z.leb_le; lia).
    right. split; [lia|].
    set (i := LastIndexByte c s) in *.
    replace (Z.to_nat (i + 1)) with (S (Z.to_nat i)) by lia.
    replace (Z.to_nat (i + 1 + 1)) with (S (S (Z.to_nat i))) by lia.
    replace (Z.to_nat (i + 1)) with (S (Z.to_nat i)) in Hs, Hno by lia.
    split; [|exact Hno].
    cbn [substring drop]. rewrite sapp_cons. f_equal. exact Hs.
Qed.

Lemma Contains_app_r (p s sub : string) :
  Contains s sub = true -> Contains (p +:+ s) sub = true.
Proof.
  intros H. induction p as [|x p IH]; [exact H|].
  rewrite sapp_cons. cbn [Contains]. rewrite IH. destruct (String.prefix _ _); reflexivity.
Qed.

Lemma Contains_prefix (s sub : string) :
  String.prefix sub s = true -> Contains s sub = true.
Proof. intros H. destruct s; cbn [Contains]; rewrite H; reflexivity. Qed.

Lemma parseHostSpec_no_panic (mapLower : string -> string) (spec : string) :
  cli.parseHostSpec mapLower spec <> cli.Panic.
Proof.
  unfold cli.parseHostSpec. set (t := TrimSpace spec).
  destruct (String.eqb t ""); [discriminate|].
  rewrite Contains_byte.
  destruct (hasByte "=" t) eqn:Heq.
  - destruct (SplitN2_cut "=" t Heq) as (l & r & -> & _ & _).
    destruct (String.eqb _ ""); [discriminate|].
    destruct (String.eqb _ ""); discriminate.
  - destruct (_ || _)%bool; [discriminate|].
    destruct (String.eqb _ ""); discriminate.
Qed.

(** [parseHostSpec] never indexes out of range.  What it accepts has one
    of two forms, white space around it set aside: a name, the first
    equals sign and an upstream, which gets the scheme [http://] when it
    has none; or, without any equals sign, a host, the last colon and a
    port.  The name it returns is not empty and the upstream has a
    scheme separator. *)
Theorem parseHostSpec_forms (mapLower : string -> string) (spec : string) :
  cli.parseHostSpec mapLower spec <> cli.Panic
  /\ forall name upstream,
      cli.parseHostSpec mapLower spec = cli.Done (name, upstream) ->
      name <> "" /\ Contains upstream "://" = true
      /\ ((exists l r,
              TrimSpace spec = l +:+ "=" +:+ r
              /\ hasByte "=" l = false
              /\ name = NormalizeHostName mapLower l
              /\ TrimSpace r <> ""
              /\ upstream = (if Contains (TrimSpace r) "://" then TrimSpace r
                             else "http://" +:+ TrimSpace r))
          \/ (hasByte "=" (TrimSpace spec) = false
              /\ exists h port,
                  TrimSpace spec = h +:+ ":" +:+ port
                  /\ hasByte ":" port = false
                  /\ h <> "" /\ port <> ""
                  /\ name = NormalizeHostName mapLower h
                  /\ upstream = "http://localhost:" +:+ port)).
Proof.
  unfold cli.parseHostSpec. set (t := TrimSpace spec).
  destruct (String.eqb t "") eqn:Ht; [split; [discriminate | intros ? ? [=]]|].
  rewrite Contains_byte.
  destruct (hasByte "=" t) eqn:Heq.
  - destruct (SplitN2_cut "=" t Heq) as (l & r & -> & Hcut & Hl).
    destruct (String.eqb (NormalizeHostName mapLower l) "") eqn:Hname;
      [split; [discriminate | intros ? ? [=]]|].
    destruct (String.eqb (TrimSpace r) "") eqn:Hup;
      [split; [discriminate | intros ? ? [=]]|].
    split; [discriminate|]. intros name upstream [= <- <-].
    apply String.eqb_neq in Hname, Hup.
    split; [exact Hname|]. split.
    + destruct (Contains (TrimSpace r) "://") eqn:Hc; cbn [negb]; [exact Hc|].
      apply (Contains_app_r "http" ("://" +:+ TrimSpace r)).
      apply Contains_prefix, prefix_app.
    + left. exists l, r. split; [exact Hcut|]. split; [exact Hl|].
      split; [reflexivity|]. split; [exact Hup|].
      destruct (Contains (TrimSpace r) "://"); reflexivity.
  - destruct (LastIndexByte_cut ":" t) as [[Hi Hno] | (Hr & Hs & Hno)].
    + rewrite Hi. cbn [Z.leb Z.compare orb]. split; [discriminate | intros ? ? [=]].
    + set (i := LastIndexByte ":" t) in *.
      destruct ((i <=? 0)%Z || (i =? Z.of_nat (String.length t) - 1)%Z) eqn:Hguard;
        [split; [discriminate | intros ? ? [=]]|].
      apply orb_false_elim in Hguard as [Hpos Hlast].
      apply Z.leb_gt in Hpos. apply Z.eqb_neq in Hlast.
      destruct (String.eqb (NormalizeHostName mapLower (substring 0 (Z.to_nat i) t)) "")
        eqn:Hname; [split; [discriminate | intros ? ? [=]]|].
      split; [discriminate|]. intros name upstream [= <- <-].
      apply String.eqb_neq in Hname.
      split; [exact Hname|]. split.
      * apply (Contains_app_r "http" ("://localhost:" +:+ drop (Z.to_nat (i + 1)) t)).
        apply Contains_prefix. apply (prefix_app "://" _).
      * right. split; [reflexivity|].
        exists (substring 0 (Z.to_nat i) t), (drop (Z.to_nat (i + 1)) t).
        split; [exact Hs|]. split; [exact Hno|]. split; [|split; [|split; reflexivity]].
        -- intros E. rewrite E in Hname. apply Hname.
           unfold NormalizeHostName. reflexivity.
        -- intros E. apply (f_equal String.length) in E.
           rewrite drop_length in E. simpl in E. lia.
Qed.

Lemma parseHostSpec_forms_witness :
  "app" <> "" /\ Contains "http://localhost:3000" "://" = true.
Proof.
  destruct (proj2 (parseHostSpec_forms id " App:3000 ") "app" "http://localhost:3000")
    as (Hname & Hup & _).
  - vm_compute. reflexivity.
  - split; [exact Hname | exact Hup].
Defined.

(** ** The edits of remove *)

(** [findHostIndex]: -1 when no host has the name, else the index of
    the first one that has. *)
Lemma findHostIndexFrom_spec (hosts : list Host) (name : string) : forall i,
  (cli.findHostIndexFrom i hosts name = (-1)%Z
   /\ Forall (fun h => Name h <> name) hosts)
  \/ exists pre h post,
      hosts = (pre ++ h :: post)%list
      /\ Name h = name
      /\ Forall (fun h => Name h <> name) pre
      /\ cli.findHostIndexFrom i hosts name = (i + Z.of_nat (length pre))%Z.
Proof.
  induction hosts as [|h rest IH]; intros i; [left; split; [reflexivity | constructor]|].
  cbn [cli.findHostIndexFrom].
  destruct (String.eqb (Name h) name) eqn:E.
  - apply String.eqb_eq in E. right. exists [], h, rest.
    split; [reflexivity|]. split; [exact E|]. split; [constructor|].
    simpl. lia.
  - apply String.eqb_neq in E.
    destruct (IH (i + 1)%Z) as [[Hi Hall] | (pre & h' & post & -> & Hn & Hpre & Hi)].
    + left. split; [exact Hi | constructor; assumption].
    + right. exists (h :: pre), h', post.
      split; [reflexivity|]. split; [exact Hn|]. split; [constructor; assumption|].
      rewrite Hi. cbn [length]. lia.
Qed.

Lemma filter_all (A : Type) (f : A -> bool) (l : list A) :
  Forall (fun x => f x = true) l -> List.filter f l = l.
Proof.
  induction 1 as [|x l Hx _ IH]; [reflexivity|]. simpl. rewrite Hx, IH. reflexivity.
Qed.

Lemma filter_filter (A : Type) (f g : A -> bool) (l : list A) :
  List.filter f (List.filter g l) = List.filter (fun x => g x && f x) l.
Proof.
  induction l as [|x l IH]; [reflexivity|]. simpl.
  destruct (g x); simpl; [destruct (f x)|]; rewrite IH; reflexivity.
Qed.

Lemma filter_length_le (A : Type) (f : A -> bool) (l : list A) :
  (length (List.filter f l) <= length l)%nat.
Proof.
  induction l as [|x l IH]; [reflexivity|]. simpl. destruct (f x); simpl; lia.
Qed.

(** Removing the host at the index [findHostIndex] gives, when no two
    hosts share a name, keeps the hosts with another name. *)
Lemma remove_found (hosts : list Host) (name : string) :
  NoDup (map Name hosts) ->
  let idx := cli.findHostIndex hosts name in
  (idx = (-1)%Z
   /\ List.filter (fun h => negb (String.eqb (Name h) name)) hosts = hosts)
  \/ ((0 <= idx)%Z
      /\ (take (Z.to_nat idx) hosts ++ List.skipn (Z.to_nat (idx + 1)) hosts)%list
         = List.filter (fun h => negb (String.eqb (Name h) name)) hosts
      /\ length (List.filter (fun h => negb (String.eqb (Name h) name)) hosts)
         = (length hosts - 1)%nat
      /\ (0 < length hosts)%nat).
Proof.
  intros Hnd. cbv zeta. unfold cli.findHostIndex.
  assert (forall l, Forall (fun h => Name h <> name) l ->
                    List.filter (fun h => negb (String.eqb (Name h) name)) l = l) as Hkeep.
  { intros l Hl. apply filter_all. eapply List.Forall_impl; [|exact Hl].
    intros h Hh. cbv beta. apply String.eqb_neq in Hh. rewrite Hh. reflexivity. }
  destruct (findHostIndexFrom_spec hosts name 0)
    as [[Hi Hall] | (pre & h & post & -> & Hn & Hpre & Hi)].
  - left. split; [exact Hi | apply Hkeep; exact Hall].
  - right. rewrite Hi. split; [lia|].
    replace (Z.to_nat (0 + Z.of_nat (length pre))) with (length pre) by lia.
    replace (Z.to_nat (0 + Z.of_nat (length pre) + 1)) with (S (length pre)) by lia.
    assert (Forall (fun h' => Name h' <> name) post) as Hpost.
    { rewrite map_app in Hnd. apply NoDup_app in Hnd as (_ & _ & Hnd).
      cbn [map] in Hnd. apply NoDup_cons in Hnd as [Hnotin _].
      apply List.Forall_forall. intros h' Hh' E. apply Hnotin.
      rewrite Hn, <- E. apply list_elem_of_In, List.in_map. exact Hh'. }
    assert (List.filter (fun h0 => negb (String.eqb (Name h0) name)) (pre ++ h :: post)
            = (pre ++ post)%list) as Hf.
    { rewrite List.filter_app. cbn [List.filter]. rewrite Hn, String.eqb_refl.
      cbn [negb]. rewrite (Hkeep pre Hpre), (Hkeep post Hpost). reflexivity. }
    rewrite Hf. split; [|split].
    + rewrite take_app_length. f_equal.
      clear. induction pre as [|x pre IH]; [reflexivity | exact IH].
    + rewrite !length_app. cbn [length]. lia.
    + rewrite length_app. cbn [length]. lia.
Qed.

Lemma NoDup_filter_names (f : Host -> bool) (hosts : list Host) :
  NoDup (map Name hosts) -> NoDup (map Name (List.filter f hosts)).
Proof.
  induction hosts as [|h hosts IH]; [intros ?; constructor|].
  cbn [map List.filter]. intros [Hnotin Hnd]%NoDup_cons.
  destruct (f h); cbn [map]; [|exact (IH Hnd)].
  apply NoDup_cons. split; [|exact (IH Hnd)].
  intros Hin. apply Hnotin.
  apply list_elem_of_In, List.in_map_iff in Hin as (h' & E & Hin).
  apply List.filter_In in Hin as [Hin _].
  rewrite <- E. apply list_elem_of_In, List.in_map. exact Hin.
Qed.

Lemma removeLoop_spec (mapLower : string -> string) (args : list string) :
  forall hosts removed missing hosts' removed' missing',
  NoDup (map Name hosts) ->
  cli.removeLoop mapLower args hosts removed missing = (hosts', removed', missing') ->
  let names := map (NormalizeHostName mapLower) args in
  hosts' = List.filter (fun h => negb (named names h)) hosts
  /\ removed' = (removed + (Z.of_nat (length hosts) - Z.of_nat (length hosts')))%Z
  /\ (removed' + Z.of_nat (length missing')
      = removed + Z.of_nat (length missing) + Z.of_nat (length args))%Z
  /\ exists more, missing' = (missing ++ more)%list
                  /\ forall n, In n more -> In n names.
Proof.
  induction args as [|raw rest IH]; intros hosts removed missing hosts' removed' missing' Hnd.
  - cbn [cli.removeLoop]. intros [= <- <- <-]. cbv zeta. cbn [map].
    split; [symmetry; apply filter_all, List.Forall_forall; intros h _; reflexivity|].
    split; [lia|]. split; [cbn [length]; lia|].
    exists []. split; [rewrite List.app_nil_r; reflexivity | intros n []].
  - cbn [cli.removeLoop]. cbv zeta. cbn [map].
    set (name := NormalizeHostName mapLower raw).
    set (names := map (NormalizeHostName mapLower) rest).
    assert (forall l, List.filter (fun h => negb (named names h))
                        (List.filter (fun h => negb (String.eqb (Name h) name)) l)
                      = List.filter (fun h => negb (named (name :: names) h)) l) as Hcomp.
    { intros l. rewrite filter_filter. apply List.filter_ext. intros h.
      unfold named. cbn [existsb]. rewrite negb_orb. reflexivity. }
    destruct (remove_found hosts name Hnd) as [[Hi Hsame] | (Hpos & Hcut & Hlen & Hne)].
    + rewrite Hi. cbn [Z.eqb Pos.eqb]. intros Hrun.
      destruct (IH _ _ _ _ _ _ Hnd Hrun) as (Hh & Hr & Hm & more & Hmore & Hin).
      fold names in Hh, Hin.
      split; [rewrite Hh, <- Hcomp, Hsame; reflexivity|].
      split; [exact Hr|].
      split; [rewrite Hm, length_app; cbn [length]; lia|].
      exists (name :: more). split; [rewrite Hmore, <- List.app_assoc; reflexivity|].
      intros n [<-|Hn]; [left; reflexivity | right; apply Hin; exact Hn].
    + assert ((cli.findHostIndex hosts name =? -1)%Z = false) as ->
          by (apply Z.eqb_neq; lia).
      rewrite Hcut. intros Hrun.
      destruct (IH _ _ _ _ _ _ (NoDup_filter_names _ hosts Hnd) Hrun)
        as (Hh & Hr & Hm & more & Hmore & Hin).
      fold names in Hh, Hin. rewrite Hcomp in Hh.
      split; [exact Hh|].
      split; [rewrite Hr, Hlen; lia|].
      split; [rewrite Hm; cbn [length]; lia|].
      exists more. split; [exact Hmore|].
      intros n Hn. right. apply Hin. exact Hn.
Qed.

(** What [handleRemove] takes out of a configuration in which no two
    hosts share a name: exactly the hosts named by an argument,
    normalised; the others stay, in their order.  [removed] counts the
    hosts taken out, and every argument either took one out or is
    reported as missing. *)
Theorem removeHosts_spec (mapLower : string -> string) (args : list string)
    (hosts hosts' : list Host) (removed : Z) (missing : list string) :
  NoDup (map Name hosts) ->
  cli.removeHosts mapLower args hosts = (hosts', removed, missing) ->
  let names := map (NormalizeHostName mapLower) args in
  hosts' = List.filter (fun h => negb (named names h)) hosts
  /\ removed = (Z.of_nat (length hosts) - Z.of_nat (length hosts'))%Z
  /\ (removed + Z.of_nat (length missing) = Z.of_nat (length args))%Z
  /\ (forall n, In n missing -> In n names)
  /\ (removed = 0%Z <-> hosts' = hosts).
Proof.
  intros Hnd Hrun. cbv zeta. unfold cli.removeHosts in Hrun.
  destruct (removeLoop_spec mapLower args hosts 0 [] hosts' removed missing Hnd Hrun)
    as (Hh & Hr & Hm & more & Hmore & Hin).
  cbn [length] in Hm. cbn [app] in Hmore. subst more.
  split; [exact Hh|]. split; [lia|]. split; [lia|]. split; [exact Hin|].
  split.
  - intros H0. rewrite Hh. 
    pose proof (filter_length_le _ (fun h => negb (named (map (NormalizeHostName mapLower) args) h)) hosts) as Hle.
    rewrite <- Hh in Hle.
    assert (length hosts' = length hosts) as Hlen by lia.
    rewrite Hh in Hlen. clear -Hlen.
    induction hosts as [|h hosts IH]; [reflexivity|]. cbn [List.filter] in *.
    destruct (negb _).
    + cbn [length] in Hlen. f_equal. apply IH. lia.
    + pose proof (filter_length_le _ (fun h => negb (named (map (NormalizeHostName mapLower) args) h)) hosts).
      cbn [length] in Hlen. lia.
  - intros ->. lia.
Qed.

Lemma removeHosts_spec_witness :
  [Example.user; Example.admin]
  = List.filter (fun h => negb (named ["staff"; "ghost"] h))
      [Example.user; Example.staff; Example.admin]
  /\ (1 + Z.of_nat (length ["ghost"]) = Z.of_nat (length [" Staff "; "ghost"]))%Z.
Proof.
  destruct (removeHosts_spec id [" Staff "; "ghost"]
              [Example.user; Example.staff; Example.admin]
              [Example.user; Example.admin] 1 ["ghost"]) as (Hh & _ & Hm & _).
  - refine (bool_decide_unpack _ _); vm_compute; exact I.
  - vm_compute. reflexivity.
  - split; [exact Hh | exact Hm].
Defined.

(** ** The edits of add *)

Lemma name_index_unique (hosts : list Host) (i j : nat) (h h' : Host) :
  NoDup (map Name hosts) ->
  hosts !! i = Some h -> hosts !! j = Some h' -> Name h = Name h' -> i = j.
Proof.
  intros Hnd Hi Hj E.
  apply (NoDup_lookup (map Name hosts) i j (Name h)); [exact Hnd| |].
  - change (map Name hosts) with (Name <$> hosts). rewrite list_lookup_fmap, Hi. reflexivity.
  - change (map Name hosts) with (Name <$> hosts). rewrite list_lookup_fmap, Hj, E. reflexivity.
Qed.

Lemma indexHosts_synced (rest : list Host) : forall pre existing,
  NoDup (map Name (pre ++ rest)) ->
  synced pre existing ->
  synced (pre ++ rest) (cli.indexHosts (length pre) rest existing).
Proof.
  induction rest as [|h rest IH]; intros pre existing Hnd Hs.
  - rewrite List.app_nil_r. exact Hs.
  - cbn [cli.indexHosts].
    replace (pre ++ h :: rest)%list with ((pre ++ [h]) ++ rest)%list in *
      by (rewrite <- List.app_assoc; reflexivity).
    replace (S (length pre)) with (length (pre ++ [h]))
      by (rewrite length_app; cbn [length]; lia).
    apply IH; [exact Hnd|].
    assert (NoDup (map Name (pre ++ [h]))) as Hnd'.
    { rewrite map_app in Hnd. apply NoDup_app in Hnd as (Hnd & _ & _). exact Hnd. }
    intros name i. destruct (decide (name = Name h)) as [->|Hne].
    + rewrite lookup_insert_eq. split.
      * intros [= <-]. exists h. split; [|reflexivity].
        rewrite lookup_app_r by lia. rewrite Nat.sub_diag. reflexivity.
      * intros (h' & Hi & Hn). f_equal. symmetry.
        apply (name_index_unique (pre ++ [h]) i (length pre) h' h Hnd' Hi); [|exact Hn].
        rewrite lookup_app_r by lia. rewrite Nat.sub_diag. reflexivity.
    + rewrite lookup_insert_ne by congruence. rewrite (Hs name i). split.
      * intros (h' & Hi & Hn). exists h'. split; [|exact Hn].
        apply lookup_app_l_Some. exact Hi.
      * intros (h' & Hi & Hn). exists h'. split; [|exact Hn].
        apply lookup_app_Some in Hi as [Hi | [Hlen Hi]]; [exact Hi|].
        apply list_lookup_singleton_Some in Hi as [_ <-]. congruence.
Qed.

Lemma upsertHost_found (forced : option bool) (name upstream : string)
    (hosts : list Host) : forall i h,
  NoDup (map Name hosts) ->
  hosts !! i = Some h -> Name h = name ->
  upsertHost forced name upstream hosts
  = <[i := mkHost name upstream (default (TLS h) forced)]> hosts.
Proof.
  induction hosts as [|x hosts IH]; intros i h Hnd Hi Hn; [discriminate|].
  cbn [upsertHost]. destruct i as [|i].
  - injection Hi as ->. rewrite Hn, String.eqb_refl. reflexivity.
  - cbn in Hi. cbn [map] in Hnd. apply NoDup_cons in Hnd as [Hnotin Hnd].
    destruct (String.eqb (Name x) name) eqn:E.
    + exfalso. apply String.eqb_eq in E. apply Hnotin. rewrite E, <- Hn.
      apply list_elem_of_In, List.in_map. apply list_elem_of_In.
      eapply list_elem_of_lookup_2. exact Hi.
    + cbn. f_equal. apply IH; assumption.
Qed.

Lemma upsertHost_new (forced : option bool) (name upstream : string)
    (hosts : list Host) :
  (forall i h, hosts !! i = Some h -> Name h <> name) ->
  upsertHost forced name upstream hosts
  = (hosts ++ [mkHost name upstream (default true forced)])%list.
Proof.
  induction hosts as [|x hosts IH]; intros Hno; [reflexivity|].
  cbn [upsertHost].
  assert (String.eqb (Name x) name = false) as ->
      by (apply String.eqb_neq; apply (Hno 0%nat x); reflexivity).
  cbn. f_equal. apply IH. intros i h Hi. apply (Hno (S i) h). exact Hi.
Qed.

Lemma addLoop_spec (mapLower : string -> string) (forced : option bool)
    (specs : list string) : forall hosts existing,
  NoDup (map Name hosts) ->
  synced hosts existing ->
  match cli.addLoop mapLower forced specs hosts existing with
  | cli.Done hosts' =>
      exists parsed,
        Forall2 (fun spec p => cli.parseHostSpec mapLower spec = cli.Done p) specs parsed
        /\ hosts' = fold_left (fun hs p => upsertHost forced p.1 p.2 hs) parsed hosts
        /\ NoDup (map Name hosts')
  | cli.Failed e =>
      exists spec, In spec specs /\ cli.parseHostSpec mapLower spec = cli.Failed e
  | cli.Panic => False
  end.
Proof.
  induction specs as [|spec rest IH]; intros hosts existing Hnd Hs.
  - cbn [cli.addLoop]. exists []. split; [constructor|]. split; [reflexivity | exact Hnd].
  - cbn [cli.addLoop].
    destruct (cli.parseHostSpec mapLower spec) as [[name upstream]|e|] eqn:Hparse.
    3:{ exact (parseHostSpec_no_panic mapLower spec Hparse). }
    2:{ exists spec. split; [left; reflexivity | exact Hparse]. }
    assert (forall hosts1 existing1,
              NoDup (map Name hosts1) -> synced hosts1 existing1 ->
              hosts1 = upsertHost forced name upstream hosts ->
              match cli.addLoop mapLower forced rest hosts1 existing1 with
              | cli.Done hosts' =>
                  exists parsed,
                    Forall2 (fun spec p => cli.parseHostSpec mapLower spec = cli.Done p)
                      (spec :: rest) parsed
                    /\ hosts' = fold_left (fun hs p => upsertHost forced p.1 p.2 hs)
                                  parsed hosts
                    /\ NoDup (map Name hosts')
              | cli.Failed e =>
                  exists spec', In spec' (spec :: rest)
                                /\ cli.parseHostSpec mapLower spec' = cli.Failed e
              | cli.Panic => False
              end) as Hnext.
    { intros hosts1 existing1 Hnd1 Hs1 Hup.
      specialize (IH hosts1 existing1 Hnd1 Hs1).
      destruct (cli.addLoop mapLower forced rest hosts1 existing1) as [hosts'|e|].
      - destruct IH as (parsed & Hall & Hfold & Hnd').
        exists ((name, upstream) :: parsed).
        split; [constructor; assumption|]. split; [|exact Hnd'].
        cbn [fold_left fst snd]. rewrite <- Hup. exact Hfold.
      - destruct IH as (spec' & Hin & Hp). exists spec'. split; [right; exact Hin | exact Hp].
      - exact IH. }
    destruct (existing !! name) as [idx|] eqn:Hex.
    + destruct (proj1 (Hs name idx) Hex) as (h & Hidx & Hname).
      rewrite Hidx.
      assert (idx < length hosts)%nat as Hlt by (eapply lookup_lt_Some; exact Hidx).
      assert (match forced with Some v => cli.Done v | None => cli.Done (TLS h) end
              = cli.Done (default (TLS h) forced)) as -> by (destruct forced; reflexivity).
      destruct (decide (idx < length hosts)%nat) as [_|]; [|contradiction].
      set (host := mkHost name upstream (default (TLS h) forced)).
      assert (map Name (<[idx := host]> hosts) = map Name hosts) as Hnames.
      { change (Name <$> <[idx := host]> hosts = Name <$> hosts).
        rewrite list_fmap_insert. apply list_insert_id.
        rewrite list_lookup_fmap, Hidx. cbn. f_equal. exact Hname. }
      apply Hnext.
      * rewrite Hnames. exact Hnd.
      * intros n j. rewrite (Hs n j). destruct (decide (j = idx)) as [->|Hne].
        -- rewrite list_lookup_insert_eq by exact Hlt. rewrite Hidx. split.
           ++ intros (h' & [= <-] & Hn). exists host. split; [reflexivity|].
              rewrite <- Hn. symmetry. exact Hname.
           ++ intros (h' & [= <-] & Hn). exists h. split; [reflexivity|].
              rewrite <- Hn. exact Hname.
        -- rewrite list_lookup_insert_ne by congruence. reflexivity.
      * symmetry. apply (upsertHost_found forced name upstream hosts idx h Hnd Hidx Hname).
    + assert (forall i h, hosts !! i = Some h -> Name h <> name) as Hno.
      { intros i h Hi Hn.
        assert (existing !! name = Some i) as Hsome by (apply Hs; exists h; auto).
        congruence. }
      assert (match forced with Some v => cli.Done v | None => cli.Done true end
              = cli.Done (default true forced)) as -> by (destruct forced; reflexivity).
      set (host := mkHost name upstream (default true forced)).
      apply Hnext.
      * rewrite map_app. cbn [map]. apply NoDup_app. split; [exact Hnd|]. split.
        -- intros n Hn Hn'. apply list_elem_of_In in Hn' as [E|[]].
           cbn in E. subst n.
           apply list_elem_of_In, List.in_map_iff in Hn as (h & Hh & Hin).
           apply list_elem_of_In, list_elem_of_lookup_1 in Hin as [i Hi].
           exact (Hno i h Hi Hh).
        -- apply NoDup_singleton.
      * intros n j. destruct (decide (n = name)) as [->|Hne].
        -- rewrite lookup_insert_eq. split.
           ++ intros [= <-]. exists host. split; [|reflexivity].
              rewrite lookup_app_r by lia. rewrite Nat.sub_diag. reflexivity.
           ++ intros (h' & Hj & Hn). f_equal.
              apply lookup_app_Some in Hj as [Hj | [Hlen Hj]].
              ** exfalso. exact (Hno j h' Hj Hn).
              ** apply list_lookup_singleton_Some in Hj as [Hj _]. lia.
        -- rewrite lookup_insert_ne by congruence. rewrite (Hs n j). split.
           ++ intros (h' & Hj & Hn). exists h'. split; [|exact Hn].
              apply lookup_app_l_Some. exact Hj.
           ++ intros (h' & Hj & Hn). exists h'. split; [|exact Hn].
              apply lookup_app_Some in Hj as [Hj | [Hlen Hj]]; [exact Hj|].
              apply list_lookup_singleton_Some in Hj as [_ <-]. cbn in Hn. congruence.
      * symmetry. apply upsertHost_new. exact Hno.
Qed.

(** [handleAdd] upserts: on a configuration in which no two hosts share
    a name, it never indexes out of range; it stops at the first spec
    that does not parse; and otherwise it has put each parsed spec, in
    turn, in the place of the host with that name (keeping its TLS
    setting unless one is forced) or at the end.  No two hosts of the
    result share a name. *)
Theorem addHosts_upserts (mapLower : string -> string) (forced : option bool)
    (specs : list string) (hosts : list Host) :
  NoDup (map Name hosts) ->
  match cli.addHosts mapLower forced specs hosts with
  | cli.Done hosts' =>
      exists parsed,
        Forall2 (fun spec p => cli.parseHostSpec mapLower spec = cli.Done p) specs parsed
        /\ hosts' = fold_left (fun hs p => upsertHost forced p.1 p.2 hs) parsed hosts
        /\ NoDup (map Name hosts')
  | cli.Failed e =>
      exists spec, In spec specs /\ cli.parseHostSpec mapLower spec = cli.Failed e
  | cli.Panic => False
  end.
Proof.
  intros Hnd. unfold cli.addHosts.
  apply addLoop_spec; [exact Hnd|].
  apply (indexHosts_synced hosts [] ∅ Hnd).
  intros name i. rewrite lookup_empty. split; [discriminate|].
  intros (h & Hi & _). discriminate.
Qed.

Lemma addHosts_upserts_witness :
  match cli.addHosts id None ["user=localhost:9000"; "api:3000"]
          [Example.user; Example.staff] with
  | cli.Done hosts' =>
      exists parsed,
        Forall2 (fun spec p => cli.parseHostSpec id spec = cli.Done p)
          ["user=localhost:9000"; "api:3000"] parsed
        /\ hosts' = fold_left (fun hs p => upsertHost None p.1 p.2 hs) parsed
                      [Example.user; Example.staff]
        /\ NoDup (map Name hosts')
  | cli.Failed e =>
      exists spec, In spec ["user=localhost:9000"; "api:3000"]
                   /\ cli.parseHostSpec id spec = cli.Failed e
  | cli.Panic => False
  end.
Proof.
  apply (addHosts_upserts id None ["user=localhost:9000"; "api:3000"]
           [Example.user; Example.staff]).
  refine (bool_decide_unpack _ _); vm_compute; exact I.
Defined.

(** * Validation *)

Lemma rev_app_rev_app (s : string) : forall t u,
  String.rev_app (String.rev_app s t) u = String.rev_app t (s +:+ u).
Proof.
  induction s as [|a s IH]; intros t u; [reflexivity|].
  cbn [String.rev_app]. rewrite IH. rewrite sapp_cons. reflexivity.
Qed.

Lemma rev_rev (s : string) : String.rev (String.rev s) = s.
Proof. unfold String.rev. rewrite rev_app_rev_app. cbn. apply sapp_nil_r. Qed.

Lemma rev_app_hostChars (s : string) : forall t,
  hostChars s = true -> hostChars t = true -> hostChars (String.rev_app s t) = true.
Proof.
  induction s as [|a s IH]; intros t Hs Ht; [exact Ht|].
  cbn [hostChars] in Hs. apply andb_prop in Hs as [Ha Hs].
  cbn [String.rev_app]. apply IH; [exact Hs|]. cbn [hostChars]. rewrite Ha, Ht. reflexivity.
Qed.

Lemma hostChar_no_space (c : ascii) (s : string) :
  isHostChar c = true ->
  spaceWidth (String c s) = 0%nat /\ spaceWidthRev (String c s) = 0%nat.
Proof.
  intros Hc.
  destruct c as [[] [] [] [] [] [] [] []]; try discriminate Hc.
  all: split; destruct s as [|c1 [|c2 s]]; cbn;
    rewrite ?andb_false_r, ?andb_false_l, ?orb_false_r; reflexivity.
Qed.

Lemma trimLeading_hostChars (s : string) :
  hostChars s = true ->
  trimLeading spaceWidth 0 s = s /\ trimLeading spaceWidthRev 0 s = s.
Proof.
  destruct s as [|c s]; [split; reflexivity|].
  cbn [hostChars]. intros [Hc _]%andb_prop.
  destruct (hostChar_no_space c s Hc) as [H1 H2].
  cbn [trimLeading]. rewrite H1, H2. split; reflexivity.
Qed.

Lemma TrimSpace_hostChars (s : string) : hostChars s = true -> TrimSpace s = s.
Proof.
  intros Hs. unfold TrimSpace.
  rewrite (proj1 (trimLeading_hostChars s Hs)).
  rewrite (proj2 (trimLeading_hostChars (String.rev s)
                    (rev_app_hostChars s "" Hs eq_refl))).
  apply rev_rev.
Qed.

Lemma ToLower_hostChars (mapLower : string -> string) (s : string) :
  hostChars s = true -> ToLower mapLower s = s.
Proof.
  intros Hs. unfold ToLower.
  assert (isASCII s = true /\ lowerASCII s = s) as [-> ->]; [|reflexivity].
  induction s as [|c s IH]; [split; reflexivity|].
  cbn [hostChars] in Hs. apply andb_prop in Hs as [Hc Hs].
  destruct (IH Hs) as [H1 H2]. cbn [isASCII lowerASCII]. rewrite H1, H2.
  destruct c as [[] [] [] [] [] [] [] []]; try discriminate Hc; split; reflexivity.
Qed.

Lemma hostPatternTail_chars (s : string) : hostPatternTail s = true -> hostChars s = true.
Proof.
  induction s as [|c s IH]; [reflexivity|]. cbn [hostPatternTail hostChars].
  destruct s as [|c' s'].
  - intros H. unfold isHostChar. rewrite H. reflexivity.
  - intros [Hc Hs]%andb_prop. rewrite Hc. exact (IH Hs).
Qed.

Lemma hostPattern_chars (s : string) : hostPatternMatch s = true -> hostChars s = true.
Proof.
  destruct s as [|c s]; [discriminate|]. cbn [hostPatternMatch hostChars].
  intros [Hc Hs]%andb_prop. unfold isHostChar. rewrite Hc.
  exact (hostPatternTail_chars s Hs).
Qed.

(** A name the pattern admits is its own normal form. *)
Lemma NormalizeHostName_pattern (mapLower : string -> string) (s : string) :
  hostPatternMatch s = true -> NormalizeHostName mapLower s = s.
Proof.
  intros H. apply hostPattern_chars in H. unfold NormalizeHostName.
  rewrite (TrimSpace_hostChars s H). apply ToLower_hostChars. exact H.
Qed.

Lemma validateHost_ok (mapLower : string -> string) (urlParse : string -> option URL)
    (h : Host) :
  validateHost mapLower urlParse h = None ->
  hostPatternMatch (Name h) = true
  /\ validateUpstream mapLower urlParse (Upstream h) = None.
Proof.
  unfold validateHost.
  destruct (String.eqb (Name h) ""); [discriminate|].
  destruct (Contains (Name h) "."); [discriminate|].
  destruct (hostPatternMatch (Name h)); [|discriminate]. cbn [negb].
  destruct (validateUpstream mapLower urlParse (Upstream h)); [discriminate|].
  split; reflexivity.
Qed.

Lemma validateHosts_ok (mapLower : string -> string) (urlParse : string -> option URL)
    (hosts : list Host) : forall names hosts',
  validateHosts mapLower urlParse names hosts = (None, hosts') ->
  hosts' = map (normalised mapLower) hosts
  /\ Forall (fun h => validateHost mapLower urlParse h = None) hosts'
  /\ NoDup (map Name hosts')
  /\ (forall h, In h hosts' -> Name h ∉ names).
Proof.
  induction hosts as [|h rest IH]; intros names hosts'.
  - intros [= <-]. split; [reflexivity|]. split; [constructor|].
    split; [constructor | intros h []].
  - cbn [validateHosts]. fold (normalised mapLower h).
    destruct (validateHost mapLower urlParse (normalised mapLower h)) eqn:Hv; [discriminate|].
    destruct (decide (Name (normalised mapLower h) ∈ names)) as [|Hnew]; [discriminate|].
    destruct (validateHosts mapLower urlParse ({[Name (normalised mapLower h)]} ∪ names) rest)
      as [err rest'] eqn:Hrest.
    intros [= -> <-].
    destruct (IH _ _ Hrest) as (Hmap & Hall & Hnd & Hout).
    split; [cbn [map]; rewrite Hmap; reflexivity|].
    split; [constructor; assumption|].
    split.
    + cbn [map]. apply NoDup_cons. split; [|exact Hnd].
      intros Hin. apply list_elem_of_In, List.in_map_iff in Hin as (h' & E & Hin).
      apply (Hout h' Hin). rewrite E. apply elem_of_union_l, elem_of_singleton.
      reflexivity.
    + intros h' [<-|Hin]; [exact Hnew|].
      intros Hn. apply (Hout h' Hin). apply elem_of_union_r. exact Hn.
Qed.

Lemma validateHosts_again (mapLower : string -> string) (urlParse : string -> option URL)
    (hosts : list Host) : forall names,
  Forall (fun h => validateHost mapLower urlParse h = None) hosts ->
  NoDup (map Name hosts) ->
  (forall h, In h hosts -> Name h ∉ names) ->
  validateHosts mapLower urlParse names hosts = (None, hosts).
Proof.
  induction hosts as [|h rest IH]; intros names Hall Hnd Hout; [reflexivity|].
  inversion Hall as [|? ? Hh Hrest]; subst.
  cbn [map] in Hnd. apply NoDup_cons in Hnd as [Hnotin Hnd].
  cbn [validateHosts].
  assert (mkHost (NormalizeHostName mapLower (Name h)) (Upstream h) (TLS h) = h) as ->.
  { rewrite (NormalizeHostName_pattern mapLower (Name h))
      by (apply (validateHost_ok mapLower urlParse h Hh)).
    destruct h; reflexivity. }
  rewrite Hh.
  destruct (decide (Name h ∈ names)) as [Hin|_];
    [exfalso; apply (Hout h); [left; reflexivity | exact Hin]|].
  rewrite IH; [reflexivity | exact Hrest | exact Hnd |].
  intros h' Hin' Hn. apply elem_of_union in Hn as [Hn|Hn].
  - apply elem_of_singleton in Hn. apply Hnotin. rewrite <- Hn.
    apply list_elem_of_In, List.in_map. exact Hin'.
  - apply (Hout h'); [right; exact Hin' | exact Hn].
Qed.

#[local] Instance nameLe_trans : Transitive nameLe.
Proof. intros a b c. unfold nameLe. apply transitivity. Qed.

#[local] Instance nameLe_total : Total nameLe.
Proof. intros a b. unfold nameLe. apply total. apply _. Qed.

(** With names pairwise distinct a sorted list of hosts is the only
    sorted arrangement of its elements: the result of [sort.Slice] does
    not depend on the algorithm. *)
Lemma sorted_hosts_unique (l1 l2 : list Host) :
  NoDup (map Name l1) ->
  StronglySorted nameLe l1 -> StronglySorted nameLe l2 -> l1 ≡ₚ l2 -> l1 = l2.
Proof.
  intros Hnd H1 H2 Hp.
  apply (StronglySorted_unique_strong nameLe); [|assumption..].
  intros x1 x2 Hx1 Hx2 Hle Hge.
  assert (Name x1 = Name x2) as E by (apply (anti_symm String.le); assumption).
  rewrite <- Hp in Hx2.
  apply list_elem_of_lookup_1 in Hx1 as [i Hi], Hx2 as [j Hj].
  pose proof (name_index_unique l1 i j x1 x2 Hnd Hi Hj E) as ->.
  congruence.
Qed.

(** What a snapshot that passes [ValidateSnapshot] looks like, and what
    the call leaves in the caller's slice: version 1, both paths set;
    the hosts with their names normalised, in the order of their names;
    no two names equal; every name admitted by the host pattern, hence
    free of line breaks and not empty, so that the managed block lists
    the names in the order of the slice. *)
Theorem ValidateSnapshot_success (mapLower : string -> string)
    (urlParse : string -> option URL) (s : Snapshot) (hosts' : list Host) :
  ValidateSnapshot mapLower urlParse s = (None, hosts') ->
  Version s = 1%Z /\ BaseCaddyfile s <> "" /\ IncludeCaddyfile s <> ""
  /\ hosts' ≡ₚ map (normalised mapLower) (Hosts s)
  /\ StronglySorted nameLe hosts'
  /\ NoDup (map Name hosts')
  /\ Forall (fun h => hostPatternMatch (Name h) = true
                      /\ validateUpstream mapLower urlParse (Upstream h) = None) hosts'
  /\ plainNames hosts'
  /\ hostsfile.extractHostnames hosts' = map Name hosts'.
Proof.
  unfold ValidateSnapshot.
  destruct (Version s =? 1)%Z eqn:Hv; [|discriminate]. cbn [negb].
  destruct (String.eqb (BaseCaddyfile s) "") eqn:Hb; [discriminate|].
  destruct (String.eqb (IncludeCaddyfile s) "") eqn:Hi; [discriminate|].
  destruct (validateHosts mapLower urlParse ∅ (Hosts s)) as [[e|] hosts0] eqn:Hloop;
    [discriminate|].
  intros [= <-].
  destruct (validateHosts_ok _ _ _ _ _ Hloop) as (Hmap & Hall & Hnd & _).
  pose proof (merge_sort_Permutation nameLe hosts0) as Hperm.
  assert (Forall (fun h => hostPatternMatch (Name h) = true
                           /\ validateUpstream mapLower urlParse (Upstream h) = None)
            (merge_sort nameLe hosts0)) as Hall'.
  { rewrite Hperm. eapply List.Forall_impl; [|exact Hall].
    intros h. apply validateHost_ok. }
  assert (StronglySorted nameLe (merge_sort nameLe hosts0)) as Hsorted
      by (apply StronglySorted_merge_sort; apply _).
  assert (NoDup (map Name (merge_sort nameLe hosts0))) as Hnd'.
  { change (NoDup (Name <$> merge_sort nameLe hosts0)). rewrite Hperm. exact Hnd. }
  assert (plainNames (merge_sort nameLe hosts0)) as Hplain.
  { apply validated_names_plain. eapply List.Forall_impl; [|exact Hall'].
    intros h [Hp _]. exact Hp. }
  split; [apply Z.eqb_eq; exact Hv|].
  split; [apply String.eqb_neq; exact Hb|].
  split; [apply String.eqb_neq; exact Hi|].
  split; [rewrite Hperm, Hmap; reflexivity|].
  split; [exact Hsorted|]. split; [exact Hnd'|]. split; [exact Hall'|].
  split; [exact Hplain|].
  unfold hostsfile.extractHostnames, sortStrings.
  assert (hostsfile.nonEmptyNames (merge_sort nameLe hosts0)
          = map Name (merge_sort nameLe hosts0)) as ->.
  { clear -Hall'. induction Hall' as [|h l [Hp _] _ IH]; [reflexivity|].
    cbn [hostsfile.nonEmptyNames map]. rewrite IH.
    destruct (Name h); [discriminate Hp | reflexivity]. }
  apply (StronglySorted_unique String.le).
  - apply StronglySorted_merge_sort; apply _.
  - apply (StronglySorted_fmap Name nameLe String.le); [|exact Hsorted].
    intros x y H. exact H.
  - apply merge_sort_Permutation.
Qed.

Lemma ValidateSnapshot_success_witness :
  let urlParse := fun _ : string => Some (mkURL "http" "localhost" "" "8000") in
  let s := Example.snapshot [mkHost " User " "http://localhost:8000" true;
                             Example.admin] in
  [Example.admin; Example.user] ≡ₚ map (normalised id) (Hosts s)
  /\ hostsfile.extractHostnames [Example.admin; Example.user] = ["admin"; "user"].
Proof.
  intros urlParse s.
  destruct (ValidateSnapshot_success id urlParse s [Example.admin; Example.user])
    as (_ & _ & _ & Hperm & _ & _ & _ & _ & Hnames).
  - vm_compute. reflexivity.
  - split; [exact Hperm | exact Hnames].
Defined.

(** Validation is idempotent: a snapshot with the hosts a successful
    [ValidateSnapshot] left passes again, and the second call leaves
    the hosts as they are. *)
Theorem ValidateSnapshot_again (mapLower : string -> string)
    (urlParse : string -> option URL) (s : Snapshot) (hosts' : list Host) :
  ValidateSnapshot mapLower urlParse s = (None, hosts') ->
  ValidateSnapshot mapLower urlParse
    (mkSnapshot (Version s) hosts' (BaseCaddyfile s) (IncludeCaddyfile s))
  = (None, hosts').
Proof.
  unfold ValidateSnapshot. cbn [Version Hosts BaseCaddyfile IncludeCaddyfile].
  destruct (Version s =? 1)%Z eqn:Hv; [|discriminate]. cbn [negb].
  destruct (String.eqb (BaseCaddyfile s) "") eqn:Hb; [discriminate|].
  destruct (String.eqb (IncludeCaddyfile s) "") eqn:Hi; [discriminate|].
  destruct (validateHosts mapLower urlParse ∅ (Hosts s)) as [[e|] hosts0] eqn:Hloop;
    [discriminate|].
  intros [= <-].
  destruct (validateHosts_ok _ _ _ _ _ Hloop) as (Hmap & Hall & Hnd & _).
  pose proof (merge_sort_Permutation nameLe hosts0) as Hperm.
  assert (StronglySorted nameLe (merge_sort nameLe hosts0)) as Hsorted
      by (apply StronglySorted_merge_sort; apply _).
  assert (NoDup (map Name (merge_sort nameLe hosts0))) as Hnd'.
  { change (NoDup (Name <$> merge_sort nameLe hosts0)). rewrite Hperm. exact Hnd. }
  rewrite validateHosts_again.
  - f_equal. symmetry.
    apply sorted_hosts_unique; [exact Hnd' | exact Hsorted | |].
    + apply StronglySorted_merge_sort; apply _.
    + symmetry. apply merge_sort_Permutation.
  - rewrite Hperm. exact Hall.
  - exact Hnd'.
  - intros h _. apply not_elem_of_empty.
Qed.

Lemma ValidateSnapshot_again_witness :
  let urlParse := fun _ : string => Some (mkURL "http" "localhost" "" "8000") in
  ValidateSnapshot id urlParse (Example.snapshot [Example.admin; Example.user])
  = (None, [Example.admin; Example.user]).
Proof.
  intros urlParse.
  apply (ValidateSnapshot_again id urlParse
           (Example.snapshot [mkHost " User " "http://localhost:8000" true;
                              Example.admin])
           [Example.admin; Example.user]).
  vm_compute. reflexivity.
Defined.

(** * The reload *)

Section ReloadFacts.

Lemma noRunSince_refl (w : World) : noRunSince w w.
Proof. exists []. rewrite List.app_nil_r. split; reflexivity. Qed.

Lemma noRunSince_log (w0 w : World) (e : event) :
  isRun e = false -> noRunSince w0 w -> noRunSince w0 (FS.log e w).
Proof.
  intros He (t & Ht & Hq). exists (t ++ [e]). cbn. split.
  - rewrite Ht, List.app_assoc. reflexivity.
  - rewrite forallb_app, Hq. cbn. rewrite He. reflexivity.
Qed.

Lemma noRunSince_Now (w0 : World) : preserves (noRunSince w0) Now.
Proof. intros w H. exact H. Qed.

Lemma noRunSince_ReadFile (w0 : World) (p : string) :
  preserves (noRunSince w0) (FS.ReadFile p).
Proof.
  intros w H. unfold FS.ReadFile.
  destruct (FS.faultOf _ _ _); [|destruct (files w !! p)];
    apply noRunSince_log; [reflexivity | exact H | reflexivity | exact H
                           | reflexivity | exact H].
Qed.

Lemma noRunSince_MkdirAll (w0 : World) (p : string) :
  preserves (noRunSince w0) (FS.MkdirAll p).
Proof.
  intros w H. unfold FS.MkdirAll.
  destruct (FS.faultOf _ _ _); apply noRunSince_log; (reflexivity || exact H).
Qed.

Lemma noRunSince_WriteFile (w0 : World) (p data : string) :
  preserves (noRunSince w0) (FS.WriteFile p data).
Proof.
  intros w H. unfold FS.WriteFile.
  destruct (FS.faultOf _ _ _); apply (noRunSince_log w0 w); (reflexivity || exact H).
Qed.

Lemma noRunSince_Remove (w0 : World) (p : string) :
  preserves (noRunSince w0) (FS.Remove p).
Proof.
  intros w H. unfold FS.Remove.
  destruct (FS.faultOf _ _ _); [|destruct (files w !! p)];
    apply (noRunSince_log w0 w); (reflexivity || exact H).
Qed.

Lemma noRunSince_Rename (w0 : World) (p q : string) :
  preserves (noRunSince w0) (FS.Rename p q).
Proof.
  intros w H. unfold FS.Rename.
  destruct (FS.faultOf _ _ _); [|destruct (files w !! p)];
    apply (noRunSince_log w0 w); (reflexivity || exact H).
Qed.

End ReloadFacts.

#[local] Hint Resolve noRunSince_Now noRunSince_ReadFile noRunSince_MkdirAll
  noRunSince_WriteFile noRunSince_Remove noRunSince_Rename : invariant.

Lemma EnsureBaseReady_noRun (env : Env) (basePath includePath : string)
    (hosts : list Host) (w0 : World) :
  preserves (noRunSince w0) (caddy.EnsureBaseReady env basePath includePath hosts).
Proof. unfold caddy.EnsureBaseReady. preserve. Qed.

Lemma UpdateInclude_noRun (env : Env) (path content : string) (w0 : World) :
  preserves (noRunSince w0) (caddy.UpdateInclude env path content).
Proof. unfold caddy.UpdateInclude, caddy.updateContent. preserve. Qed.

Lemma RestoreInclude_noRun (res : caddy.UpdateResult) (w0 : World) :
  preserves (noRunSince w0) (caddy.RestoreInclude res).
Proof. unfold caddy.RestoreInclude. preserve. Qed.

Lemma Apply_noRun (env : Env) (path : string) (hosts : list Host) (w0 : World) :
  preserves (noRunSince w0) (hostsfile.Apply env path hosts).
Proof.
  unfold hostsfile.Apply, hostsfile.applyContent, hostsfile.takeBackup,
    hostsfile.replaceFile.
  preserve.
Qed.

Lemma EnsureBaseReady_resolves (env : Env) (basePath includePath : string)
    (hosts : list Host) (w w' : World) :
  caddy.EnsureBaseReady env basePath includePath hosts w = (None, w') ->
  exists rb, ExpandUser env basePath = Ok rb.
Proof.
  unfold caddy.EnsureBaseReady.
  destruct (ExpandUser env basePath) as [rb|e]; [eexists; reflexivity | discriminate].
Qed.

(** The reload comes last and once.  In a successful apply, whatever the
    file system did, the one command that was run is
    [caddy reload --config <base> --adapter caddyfile], it is the last
    event, and it ran, without error, on the files as the apply leaves
    them.  An apply that fails for another reason than the reload has
    run no command at all. *)
Theorem applyState_reloads_last (a : cli.App) (s : Snapshot) (w w1 : World)
    (r : result cli.applyOutcome) :
  cli.applyState a s w = (r, w1) ->
  match r with
  | Ok _ =>
      exists rb t out,
        ExpandUser (cli.appEnv a) (BaseCaddyfile s) = Ok rb
        /\ trace w1
           = trace w ++ t ++ [EvRun "caddy" ["reload"; "--config"; rb;
                                            "--adapter"; "caddyfile"]]
        /\ forallb (fun e => negb (isRun e)) t = true
        /\ cli.appRunner a (files w1) "caddy"
             ["reload"; "--config"; rb; "--adapter"; "caddyfile"] = (out, None)
  | Err e =>
      (forall inner details, e <> ErrReload inner details) -> noRunSince w w1
  end.
Proof.
  intros Hrun. unfold cli.applyState in Hrun.
  pose proof (EnsureBaseReady_noRun (cli.appEnv a) (BaseCaddyfile s)
                (IncludeCaddyfile s) (Hosts s) w w (noRunSince_refl w)) as H0.
  destruct (caddy.EnsureBaseReady (cli.appEnv a) (BaseCaddyfile s)
              (IncludeCaddyfile s) (Hosts s) w) as [r0 w0] eqn:Hready.
  erewrite bind_eq in Hrun by exact Hready. cbv beta iota in Hrun. cbn [snd] in H0.
  destruct r0 as [e0|]; [injection Hrun as <- <-; intros _; exact H0|].
  destruct (EnsureBaseReady_resolves _ _ _ _ _ _ Hready) as [rb Hrb].
  pose proof (UpdateInclude_noRun (cli.appEnv a) (IncludeCaddyfile s)
                (caddy.GenerateInclude (Hosts s)) w w0 H0) as Ha.
  destruct (caddy.UpdateInclude (cli.appEnv a) (IncludeCaddyfile s)
              (caddy.GenerateInclude (Hosts s)) w0) as [ri wa] eqn:Hinclude.
  erewrite bind_eq in Hrun by exact Hinclude. cbv beta iota in Hrun. cbn [snd] in Ha.
  destruct ri as [ires|e1]; [|injection Hrun as <- <-; intros _; exact Ha].
  pose proof (Apply_noRun (cli.appEnv a) (cli.HostsPath a) (Hosts s) w wa Ha) as Hb.
  destruct (hostsfile.Apply (cli.appEnv a) (cli.HostsPath a) (Hosts s) wa)
    as [rh wb] eqn:Hhosts.
  erewrite bind_eq in Hrun by exact Hhosts. cbv beta iota in Hrun. cbn [snd] in Hb.
  destruct rh as [hres|e2].
  2:{ pose proof (RestoreInclude_noRun ires w wb Hb) as Hc.
      destruct (caddy.RestoreInclude ires wb) as [x wc] eqn:Hrest.
      erewrite bind_eq in Hrun by exact Hrest. injection Hrun as <- <-.
      intros _. exact Hc. }
  unfold caddy.Reload in Hrun. rewrite Hrb in Hrun. unfold Run in Hrun.
  erewrite bind_eq in Hrun by reflexivity. cbv beta iota in Hrun.
  destruct (cli.appRunner a (files wb) "caddy"
              ["reload"; "--config"; rb; "--adapter"; "caddyfile"])
    as [out err] eqn:Hrunner.
  destruct err as [e3|].
  { unfold bind, ret in Hrun.
    destruct (caddy.RestoreInclude ires _) as [x wc].
    destruct (hostsfile.Restore (cli.appEnv a) hres wc) as [y wd].
    injection Hrun as <- <-. intros Hne. exfalso. eapply Hne. reflexivity. }
  injection Hrun as <- <-.
  destruct Hb as (t & Ht & Hq).
  exists rb, t, out. split; [exact Hrb|]. cbn.
  split; [rewrite Ht, <- List.app_assoc; reflexivity|].
  split; [exact Hq | exact Hrunner].
Qed.

Lemma applyState_reloads_last_witness :
  let w := Example.world [(Example.base, Example.baseContent)] in
  let r := cli.applyState (Example.app Example.reloadOk)
             (Example.snapshot [Example.user]) w in
  exists o t out,
    fst r = Ok o
    /\ trace (snd r)
       = trace w ++ t ++ [EvRun "caddy" ["reload"; "--config"; Example.base;
                                        "--adapter"; "caddyfile"]]
    /\ forallb (fun e => negb (isRun e)) t = true
    /\ Example.reloadOk (files (snd r)) "caddy"
         ["reload"; "--config"; Example.base; "--adapter"; "caddyfile"] = (out, None).
Proof.
  intros w r.
  pose proof (applyState_reloads_last (Example.app Example.reloadOk)
                (Example.snapshot [Example.user]) w (snd r) (fst r)
                (surjective_pairing _)) as T.
  destruct (fst r) as [o|e] eqn:Hr; [|vm_compute in Hr; discriminate Hr].
  destruct T as (rb & t & out & Hrb & Ht & Hq & Hout).
  injection Hrb as <-.
  exists o, t, out. split; [reflexivity|]. split; [exact Ht|].
  split; [exact Hq | exact Hout].
Defined.



Lemma drop_app_length (a b : string) : drop (String.length a) (a +:+ b) = b.
Proof. induction a as [|c a IH]; [reflexivity|]. rewrite sapp_cons. exact IH. Qed.

Lemma altHomeToken_under_home (env : Env) (home rest : string) :
  UserHomeDir env = Some home ->
  caddy.altHomeToken env (home +:+ "/" +:+ rest) = "~/" +:+ rest.
Proof.
  intros Hhome. unfold caddy.altHomeToken. rewrite Hhome.
  unfold HasPrefix. rewrite <- (sapp_assoc home "/" rest), prefix_app.
  unfold TrimPrefix, HasPrefix. rewrite (sapp_assoc home "/" rest), prefix_app.
  rewrite drop_app_length. reflexivity.
Qed.



(** * The include fragment, line by line *)

Lemma renderBlock_lines (h : Host) :
  caddy.renderBlock h = Join (siteLines h) caddy.newline.
Proof. unfold caddy.renderBlock, siteLines. destruct (TLS h); reflexivity. Qed.

Lemma Split_renderBlock (h : Host) :
  hasByte nl (Name h) = false -> hasByte nl (Upstream h) = false ->
  Split nl (caddy.renderBlock h) = siteLines h.
Proof.
  intros Hn Hu. rewrite renderBlock_lines. unfold caddy.newline.
  apply Split_Join.
  - unfold siteLines. discriminate.
  - unfold siteLines.
    assert (hasByte nl (Name h +:+ " {") = false) as H1
        by (rewrite hasByte_app, Hn; reflexivity).
    assert (hasByte nl ("  reverse_proxy " +:+ Upstream h) = false) as H2
        by (rewrite hasByte_app, Hu; reflexivity).
    destruct (TLS h); repeat constructor; assumption.
Qed.

(** The fragment is one block for each host, in the order of the hosts,
    each followed by an empty line: for a non-empty list of hosts whose
    names and upstreams have no line break, the lines of
    [GenerateInclude] are, host after host, the header with the name,
    [tls internal] and an empty line when TLS is on, the [reverse_proxy]
    line with the upstream, the closing brace and an empty line. *)
Theorem GenerateInclude_lines (hosts : list Host) :
  hosts <> [] ->
  Forall (fun h => hasByte nl (Name h) = false /\ hasByte nl (Upstream h) = false)
    hosts ->
  Split nl (caddy.GenerateInclude hosts)
  = flat_map (fun h => siteLines h ++ [""])%list hosts.
Proof.
  intros Hne Hall. destruct hosts as [|h hosts]; [congruence|]. clear Hne.
  unfold caddy.GenerateInclude. cbn [map].
  revert h Hall. induction hosts as [|h2 hosts IH]; intros h Hall.
  - inversion Hall as [|? ? [Hn Hu] _]; subst.
    cbn [map Join flat_map]. unfold caddy.newline.
    rewrite Split_app_sep, (Split_renderBlock h Hn Hu), List.app_nil_r. reflexivity.
  - inversion Hall as [|? ? [Hn Hu] Hrest]; subst.
    cbn [map]. rewrite Join_cons2.
    change (flat_map (fun h => siteLines h ++ [""])%list (h :: h2 :: hosts))
      with ((siteLines h ++ [""]) ++
            flat_map (fun h => siteLines h ++ [""]) (h2 :: hosts))%list.
    rewrite <- (IH h2 Hrest). cbn [map].
    unfold caddy.newline.
    rewrite !sapp_assoc, sapp_cons, sapp_nil_l, sapp_cons.
    rewrite Split_app_sep, (Split_renderBlock h Hn Hu).
    rewrite <- List.app_assoc. f_equal.
Qed.

Lemma GenerateInclude_lines_witness :
  Split nl (caddy.GenerateInclude [Example.user; Example.staff])
  = flat_map (fun h => siteLines h ++ [""])%list [Example.user; Example.staff].
Proof.
  apply (GenerateInclude_lines [Example.user; Example.staff]).
  - discriminate.
  - repeat constructor.
Defined.

(** * Validate, then apply *)


Lemma validated_names (mapLower : string -> string) (urlParse : string -> option URL)
    (s : Snapshot) (hosts' : list Host) :
  ValidateSnapshot mapLower urlParse s = (None, hosts') ->
  StronglySorted String.le (map Name hosts')
  /\ hostsfile.extractHostnames hosts' = map Name hosts'.
Proof.
  unfold ValidateSnapshot.
  destruct (negb (Version s =? 1)%Z); [discriminate|].
  destruct (String.eqb (BaseCaddyfile s) ""); [discriminate|].
  destruct (String.eqb (IncludeCaddyfile s) ""); [discriminate|].
  destruct (validateHosts mapLower urlParse ∅ (Hosts s)) as [[e|] hosts0] eqn:Hloop;
    [discriminate|].
  intros [= <-].
  destruct (validateHosts_ok _ _ _ _ _ Hloop) as (_ & Hall & _ & _).
  assert (StronglySorted String.le (map Name (merge_sort nameLe hosts0))) as Hsorted.
  { apply (StronglySorted_fmap Name nameLe String.le); [intros x y H; exact H|].
    apply StronglySorted_merge_sort; apply _. }
  split; [exact Hsorted|].
  assert (Forall (fun h => validateHost mapLower urlParse h = None)
            (merge_sort nameLe hosts0)) as Hall'
      by (rewrite (merge_sort_Permutation nameLe hosts0); exact Hall).
  unfold hostsfile.extractHostnames, sortStrings.
  assert (hostsfile.nonEmptyNames (merge_sort nameLe hosts0)
          = map Name (merge_sort nameLe hosts0)) as ->.
  { clear -Hall'. induction Hall' as [|h l Hh _ IH]; [reflexivity|].
    cbn [hostsfile.nonEmptyNames map]. rewrite IH.
    apply validateHost_ok in Hh as [Hp _].
    destruct (Name h); [discriminate Hp | reflexivity]. }
  apply (StronglySorted_unique String.le);
    [apply StronglySorted_merge_sort; apply _ | exact Hsorted
    | apply merge_sort_Permutation].
Qed.


